(** * Hashi: the reconciliation pipeline, embedded and verified

    A shallow embedding of the core of the Hashi orchestrator
    (topology resolver, resource-directory client, zone client, zone
    reconciler, monitoring-config generator and the cycle entry point) and
    the proofs of the properties its specification states about it.

    Conventions of the embedding.
    - A JavaScript string is a [string]: a sequence of code units, here
      restricted to the code units below 256.
    - A JavaScript number that the code only uses as an integer (ports, TTLs,
      octets, 32-bit address values) is a [Z]; [NaN] and [undefined] are the
      [None] of an [option]; the 32-bit wrap-around of the bit operators is
      written out.
    - An object that the code uses as a dictionary and never iterates is a
      [gmap] over its own keys, and reading a key from it goes through
      [Proto.get], which also finds the members that a plain object inherits;
      an object or [Map] whose iteration order the code depends on is an
      association list in insertion order (none of the keys such an object
      gets here is an array index, which [Object.entries] would list first).
    - A value that came out of a decoded body (a response of an API, the body
      of a request) is a [Json.value]; converting one to a string can throw,
      and the conversions that the code asks for are part of the embedding
      even where the text only goes to the log.
    - Calls to the outside world (DNS, REST APIs, TCP probes, the file system)
      are explicit: the world is a value, each call consumes it and returns
      the next one, and the calls that matter are recorded in a trace. *)

From Stdlib Require Import ZArith List Bool Ascii String Lia DecimalString.
From stdpp Require Import gmap strings.
Import ListNotations.

Local Open Scope string_scope.
Local Open Scope Z_scope.

(** ** JavaScript string primitives used by the sources *)

Module JsString.

(** [s.startsWith(p)] *)
Definition startsWith (p s : string) : bool := String.prefix p s.

(** [s.includes(sub)]: some suffix of [s] starts with [sub]. *)
Fixpoint includes (sub s : string) : bool :=
  String.prefix sub s ||
  match s with
  | EmptyString => false
  | String _ s' => includes sub s'
  end.

(** [s.endsWith(suf)] *)
Fixpoint endsWith (suf s : string) : bool :=
  String.eqb suf s ||
  match s with
  | EmptyString => false
  | String _ s' => endsWith suf s'
  end.

Fixpoint drop (n : nat) (s : string) : string :=
  match n, s with
  | O, _ => s
  | S n', String _ s' => drop n' s'
  | S _, EmptyString => EmptyString
  end.

(** [s.replace(pat, rep)] with a string pattern: only the first
    occurrence is replaced.  (Every replacement string in the sources is
    empty, so the [$]-patterns of the replacement never matter.) *)
Fixpoint replace (pat rep s : string) : string :=
  if String.prefix pat s then rep ++ drop (String.length pat) s
  else match s with
       | EmptyString => EmptyString
       | String c s' => String c (replace pat rep s')
       end.

(** [s.replace(/\.$/, '')]: one trailing dot is removed. *)
Fixpoint stripDot (s : string) : string :=
  match s with
  | EmptyString => EmptyString
  | String c s' =>
      match s' with
      | EmptyString => if Ascii.eqb c "." then EmptyString else s
      | String _ _ => String c (stripDot s')
      end
  end.

(** [s.split(sep)] for a one-character separator. *)
Fixpoint split (sep : ascii) (s : string) : list string :=
  match s with
  | EmptyString => [EmptyString]
  | String c s' =>
      if Ascii.eqb c sep then EmptyString :: split sep s'
      else match split sep s' with
           | h :: t => String c h :: t
           | [] => [String c EmptyString]
           end
  end.

(** White space of [trim] and of [parseInt], among the code units below
    256: TAB, LF, VT, FF, CR, SPACE and NBSP. *)
Definition isWhite (c : ascii) : bool :=
  let n := nat_of_ascii c in
  (Nat.leb 9 n && Nat.leb n 13) || Nat.eqb n 32 || Nat.eqb n 160.

Fixpoint trimStart (s : string) : string :=
  match s with
  | EmptyString => EmptyString
  | String c s' => if isWhite c then trimStart s' else s
  end.

Fixpoint trimEnd (s : string) : string :=
  match s with
  | EmptyString => EmptyString
  | String c s' =>
      let r := trimEnd s' in
      if isWhite c && String.eqb r EmptyString then EmptyString
      else String c r
  end.

Definition trim (s : string) : string := trimEnd (trimStart s).

Definition digit (c : ascii) : option Z :=
  let n := nat_of_ascii c in
  if Nat.leb 48 n && Nat.leb n 57 then Some (Z.of_nat n - 48) else None.

(** The longest prefix of decimal digits, read as a number; [None] when
    there is no digit at all. *)
Fixpoint digits (s : string) (acc : option Z) : option Z :=
  match s with
  | EmptyString => acc
  | String c s' =>
      match digit c with
      | Some d => digits s' (Some (10 * default 0 acc + d))
      | None => acc
      end
  end.

(** [Number.parseInt(s, 10)]; [None] is [NaN]. *)
Definition parseInt (s : string) : option Z :=
  match trimStart s with
  | String "-" r => Z.opp <$> digits r None
  | String "+" r => digits r None
  | r => digits r None
  end.

(** [s.toLowerCase()], code unit by code unit: among the code units below
    256 the capital letters are A to Z (65 to 90) and, in the Latin-1 range,
    192 to 222 except the multiplication sign (215); each is 32 below its
    small letter. *)
Definition lowerChar (c : ascii) : ascii :=
  let n := nat_of_ascii c in
  if (Nat.leb 65 n && Nat.leb n 90)
     || (Nat.leb 192 n && Nat.leb n 222 && negb (Nat.eqb n 215))
  then ascii_of_nat (n + 32) else c.

Fixpoint toLowerCase (s : string) : string :=
  match s with
  | EmptyString => EmptyString
  | String c s' => String (lowerChar c) (toLowerCase s')
  end.

(** [`${n}`] for an integer [n]. *)
Definition ofZ (n : Z) : string := NilZero.string_of_int (Z.to_int n).

(** [arr.includes(x)] on an array of strings. *)
Definition inList (x : string) (l : list string) : bool :=
  existsb (String.eqb x) l.

End JsString.

(** ** 32-bit integer operators *)

Module JsInt.

Definition toUint32 (z : Z) : Z := z mod 2 ^ 32.

Definition toInt32 (z : Z) : Z := (z + 2 ^ 31) mod 2 ^ 32 - 2 ^ 31.

(** [a << n] *)
Definition shl (a n : Z) : Z := toInt32 (toInt32 a * 2 ^ (toUint32 n mod 32)).

(** [~a] *)
Definition not (a : Z) : Z := - toInt32 a - 1.

(** [a & b] *)
Definition and (a b : Z) : Z := toInt32 (Z.land (toUint32 a) (toUint32 b)).

(** [a >>> 0] *)
Definition ushr0 (a : Z) : Z := toUint32 a.

(** The number nearest to an integer: a number has 53 significant bits, a
    longer integer is rounded to the nearest one that fits, to the even one
    of two that are equally near; [None] is an infinity. *)
Definition nearest (z : Z) : option Z :=
  let a := Z.abs z in
  let e := Z.log2 a in
  if e <? 53 then Some z
  else
    let shift := e - 52 in
    let q := Z.shiftr a shift in
    let r := Z.land a (Z.ones shift) in
    let half := Z.shiftl 1 (shift - 1) in
    let q' := if (half <? r) || ((r =? half) && Z.odd q) then q + 1 else q in
    let m := Z.shiftl q' shift in
    if 2 ^ 1024 <=? m then None else Some (Z.sgn z * m).

End JsInt.

(** ** The topology resolver ([src/core/topology.js]) *)

Module Topology.
Import JsString.

(** [ipToSubnet]: the /24 block of a dotted quad, built from the parts as
    they are written. *)
Definition octetOk (part : string) : bool :=
  match parseInt part with
  | Some num => (0 <=? num) && (num <=? 255)
  | None => false
  end.

Definition ipToSubnet (ip : string) : option string :=
  match split "." ip with
  | [p0; p1; p2; p3] =>
      if forallb octetOk [p0; p1; p2; p3]
      then Some (p0 ++ "." ++ p1 ++ "." ++ p2 ++ ".0/24")
      else None
  | _ => None
  end.

(** The loop of [ipToNumber]: [null] at the first bad part. *)
Fixpoint ipToNumberLoop (parts : list string) (num : Z) : option Z :=
  match parts with
  | [] => Some num
  | part :: rest =>
      match parseInt part with
      | None => None
      | Some val =>
          if (val <? 0) || (255 <? val) then None
          else ipToNumberLoop rest (JsInt.shl num 8 + val)
      end
  end.

Definition ipToNumber (ip : string) : option Z :=
  let parts := split "." ip in
  if negb (Nat.eqb (List.length parts) 4) then None
  else JsInt.ushr0 <$> ipToNumberLoop parts 0.

(** [ipInSubnet].  [subnet.split('/')] is destructured into its first two
    elements; a missing second element is [undefined], which [parseInt]
    turns into [NaN], and [32 - NaN] shifts by 0, as an infinity does.  The
    prefix is a number, so a numeral of more than 53 bits is rounded, and so
    is the difference. *)
Definition ipInSubnet (ip subnet : string) : bool :=
  let sp := split "/" subnet in
  let subnetIp := hd EmptyString sp in
  let prefix := match sp with
                | _ :: prefixStr :: _ => parseInt prefixStr ≫= JsInt.nearest
                | _ => None
                end in
  match ipToNumber ip, ipToNumber subnetIp with
  | Some ipNum, Some subnetNum =>
      let count := default 0 (prefix ≫= fun p => JsInt.nearest (32 - p)) in
      let mask := JsInt.ushr0 (JsInt.not (JsInt.shl 1 count - 1)) in
      JsInt.and ipNum mask =? JsInt.and subnetNum mask
  | _, _ => false
  end.

(** [getCnameForIp]: the first of [Object.entries(mapping)] whose subnet
    contains the address.  The list is the mapping as [Object.entries] lists
    it; for an object whose keys are not array indices, as the keys
    [on.<host>] of the mapping are, that is the order of insertion. *)
Fixpoint getCnameForIp (ip : string) (mapping : list (string * string)) : option string :=
  match mapping with
  | [] => None
  | (cnamePrefix, subnet) :: rest =>
      if ipInSubnet ip subnet then Some cnamePrefix else getCnameForIp ip rest
  end.

(** What [getHostSubnetMapping] does with the TXT payload: the entries of
    the comma-separated list, each trimmed and split at its first two
    colon-separated fields; an entry with a bad address is skipped.  The
    mapping is an object filled by assignment: a repeated key keeps its
    place and takes the new value. *)
Fixpoint objSet {V : Type} (k : string) (v : V) (o : list (string * V)) : list (string * V) :=
  match o with
  | [] => [(k, v)]
  | (k', v') :: rest =>
      if String.eqb k' k then (k, v) :: rest else (k', v') :: objSet k v rest
  end.

Definition parseEntry (mapping : list (string * string)) (entry : string) : list (string * string) :=
  let trimmed := trim entry in
  if negb (includes ":" trimmed) then mapping
  else
    let fields := split ":" trimmed in
    let cleanHostname := trim (nth 0 fields EmptyString) in
    let cleanIp := trim (nth 1 fields EmptyString) in
    match ipToSubnet cleanIp with
    | Some subnet => objSet ("on." ++ cleanHostname) subnet mapping
    | None => mapping
    end.

Definition parseTopology (txtData : string) : list (string * string) :=
  fold_left parseEntry (split "," txtData) [].

End Topology.

(** ** Results and exceptions *)

(** A JavaScript [Error]: the sources only ever read its message. *)
Record Error : Type := mkError { message : string }.

(** The outcome of a call that may throw a value of type [E]. *)
Inductive outcome (E A : Type) : Type :=
| Returned (a : A)
| Thrown (e : E).
Arguments Returned {E A} a.
Arguments Thrown {E A} e.

Definition bindO {E A B : Type} (m : outcome E A) (f : A -> outcome E B) : outcome E B :=
  match m with
  | Returned a => f a
  | Thrown e => Thrown e
  end.

(** [try { body } catch (e) { handler(e) }] *)
Definition tryCatch {E F A : Type} (body : outcome E A) (handler : E -> outcome F A) : outcome F A :=
  match body with
  | Returned a => Returned a
  | Thrown e => handler e
  end.

#[global] Instance outcome_ret {E : Type} : MRet (outcome E) := fun _ a => Returned a.
#[global] Instance outcome_bind {E : Type} : MBind (outcome E) := fun _ _ f m => bindO m f.

(** Reading [.message] of a caught value: a [TypeError] when the value is
    [null]. *)
Definition messageOf (e : option Error) : outcome Error string :=
  match e with
  | Some err => Returned (message err)
  | None => Thrown (mkError "Cannot read properties of null (reading 'message')")
  end.

(** ** The TXT query ([src/utils/dns.js], in its two versions) *)

Module Dns.

(** What the world sees of a query: each single attempt, with the timeout
    armed for it, and each pause. *)
Inductive event : Type :=
| Attempt (n : nat) (timeoutMs : Z)
| Sleep (ms : Z).

(** The version with retries. *)
Module Retrying.
Definition TIMEOUT_MS : Z := 10000.
Definition MAX_RETRIES : nat := 3.
Definition RETRY_DELAY_MS : Z := 2000.

(** The [for] loop of [queryTXT], entered at [attempt] with
    [remaining] iterations left; [once n] is the answer to the [n]-th
    single attempt ([queryTXTOnce]). *)
Fixpoint loop (once : nat -> outcome Error string) (attempt remaining : nat)
    (lastError : option Error) : outcome (option Error) string * list event :=
  match remaining with
  | O => (Thrown lastError, [])
  | S remaining' =>
      match once attempt with
      | Returned txt => (Returned txt, [Attempt attempt TIMEOUT_MS])
      | Thrown err =>
          let pause := if Nat.ltb attempt MAX_RETRIES then [Sleep RETRY_DELAY_MS] else [] in
          let '(res, evs) := loop once (S attempt) remaining' (Some err) in
          (res, Attempt attempt TIMEOUT_MS :: (pause ++ evs)%list)
      end
  end.

Definition queryTXT (once : nat -> outcome Error string)
    : outcome (option Error) string * list event :=
  loop once 1 MAX_RETRIES None.
End Retrying.

(** The version without: one attempt, whose failure is the failure of the
    query. *)
Module SingleShot.
Definition TIMEOUT_MS : Z := 5000.

Definition queryTXT (once : nat -> outcome Error string)
    : outcome (option Error) string * list event :=
  (match once 1%nat with
   | Returned txt => Returned txt
   | Thrown err => Thrown (Some err)
   end, [Attempt 1 TIMEOUT_MS]).
End SingleShot.

Inductive version : Type := WithRetries | WithoutRetries.

Definition queryTXT (v : version) :=
  match v with
  | WithRetries => Retrying.queryTXT
  | WithoutRetries => SingleShot.queryTXT
  end.

Definition maxAttempts (v : version) : nat :=
  match v with WithRetries => Retrying.MAX_RETRIES | WithoutRetries => 1 end.

Definition timeoutOf (v : version) : Z :=
  match v with WithRetries => Retrying.TIMEOUT_MS | WithoutRetries => SingleShot.TIMEOUT_MS end.

End Dns.

(** [TopologyResolver.getHostSubnetMapping]: the whole body is in a [try];
    the handler reads the message of what it caught and returns the empty
    mapping. *)
Definition getHostSubnetMapping (query : outcome (option Error) string)
    : outcome Error (list (string * string)) :=
  tryCatch (txtData ← query; Returned (Topology.parseTopology txtData))
           (fun error => _ ← messageOf error; Returned []).

(** ** JSON values, as the REST clients receive them *)

Module Json.

(** A decoded response body.  Numbers are integers here. *)
#[warnings="-register-all"] Inductive json : Type :=
| JNull
| JBool (b : bool)
| JNum (n : Z)
| JStr (s : string)
| JArr (items : list json)
| JObj (fields : list (string * json)).

(** A value an expression of the client evaluates to: a JSON value or
    [undefined]. *)
Definition value : Type := option json.

Definition truthy (v : value) : bool :=
  match v with
  | None | Some JNull => false
  | Some (JBool b) => b
  | Some (JNum n) => negb (n =? 0)
  | Some (JStr s) => negb (String.eqb s EmptyString)
  | Some (JArr _) | Some (JObj _) => true
  end.

(** [Array.isArray(v)] *)
Definition isArray (v : value) : bool :=
  match v with Some (JArr _) => true | _ => false end.

(** [typeof v === 'object'], which holds of [null] too. *)
Definition typeofObject (v : value) : bool :=
  match v with Some JNull | Some (JArr _) | Some (JObj _) => true | _ => false end.

(** The member of a decoded object: the last of the fields of that name. *)
Fixpoint field (k : string) (fields : list (string * json)) : value :=
  match fields with
  | [] => None
  | (k', v) :: rest =>
      match field k rest with
      | Some later => Some later
      | None => if String.eqb k' k then Some v else None
      end
  end.

(** [v.k], for the member names the clients read ([data], [orgs],
    [resources], [targets], [orgId], [id], [name]): a [TypeError] on
    [null] and [undefined], the member on an object, [undefined] on
    everything else. *)
Definition getProp (v : value) (k : string) : outcome Error value :=
  match v with
  | None | Some JNull =>
      Thrown (mkError ("Cannot read properties of null or undefined (reading '" ++ k ++ "')"))
  | Some (JObj fields) => Returned (field k fields)
  | Some _ => Returned None
  end.

(** [v?.k] *)
Definition optProp (v : value) (k : string) : outcome Error value :=
  match v with
  | None | Some JNull => Returned None
  | _ => getProp v k
  end.

(** [for (const x of v) body(x)]: arrays and strings are iterable, the
    other values are not. *)
Fixpoint each {A : Type} (body : A -> outcome Error unit) (l : list A) : outcome Error unit :=
  match l with
  | [] => Returned tt
  | x :: rest => _ ← body x; each body rest
  end.

Definition chars (s : string) : list json :=
  map (fun c => JStr (String c EmptyString)) (list_ascii_of_string s).

Definition forOf (v : value) (body : value -> outcome Error unit) : outcome Error unit :=
  match v with
  | Some (JArr items) => each (fun x => body (Some x)) items
  | Some (JStr s) => each (fun x => body (Some x)) (chars s)
  | _ => Thrown (mkError "value is not iterable")
  end.

(** A value that is known not to be [undefined], as a JSON value. *)
Definition defined (v : value) : json := default (JArr []) v.

(** [v.length]: the number of entries of an array, of code units of a
    string, the member of that name of an object, [undefined] on a number or
    a boolean, a [TypeError] on [null] and [undefined]. *)
Definition lengthOf (v : value) : outcome Error value :=
  match v with
  | None | Some JNull =>
      Thrown (mkError "Cannot read properties of null or undefined (reading 'length')")
  | Some (JArr items) => Returned (Some (JNum (Z.of_nat (List.length items))))
  | Some (JStr s) => Returned (Some (JNum (Z.of_nat (String.length s))))
  | Some (JObj fields) => Returned (field "length" fields)
  | Some _ => Returned None
  end.

(** Whether a value can be converted to a string.  A decoded object has no
    member that can be called: with a member [toString] of its own the
    conversion finds no method that gives a primitive value ([valueOf],
    its own or the inherited one, gives none either) and throws; without,
    the inherited method answers.  An array is joined: each entry that is
    not [null] is converted in turn.  Every other value has a text. *)
Fixpoint convertible (j : json) : bool :=
  match j with
  | JObj fields => negb (existsb (fun kv => String.eqb (fst kv) "toString") fields)
  | JArr items => forallb convertible items
  | _ => true
  end.

(** [`${v}`] in a template literal whose text is only logged: the logger
    is not part of the embedding, so what is kept of the conversion is
    whether it throws. *)
Definition interpolate (v : value) : outcome Error unit :=
  match v with
  | Some j =>
      if convertible j then Returned tt
      else Thrown (mkError "Cannot convert object to primitive value")
  | None => Returned tt
  end.

End Json.

(** ** The resource-directory client ([PangolinAPI]) *)

Module Pangolin.
Import Json.

(** [a || b] on values. *)
Definition orValue (a b : value) : value := if truthy a then a else b.

(** The body of the loop of [listOrgs] that logs each entry:
    [org.orgId || org.id || 'unknown'], [org.name || 'unnamed'], and the
    line that shows both. *)
Definition logEntry (org : value) : outcome Error unit :=
  orgId ← getProp org "orgId";
  orgId ← (if truthy orgId then Returned orgId
           else (id ← getProp org "id"; Returned (orValue id (Some (JStr "unknown")))));
  name ← getProp org "name";
  _ ← interpolate orgId;
  interpolate (orValue name (Some (JStr "unnamed"))).

(** [listOrgs], from the answer of [request('/orgs')].  Inside the [try],
    the number of the selected organisations is logged, then each of them. *)
Definition listOrgs (response : outcome Error json) : json :=
  let body : outcome Error json :=
    body ← response;
    let data : value := Some body in
    orgs ← (if isArray data then Returned data
            else if typeofObject data then
              inner ← getProp data "data";
              nested ← optProp inner "orgs";
              if truthy nested then Returned nested
              else if isArray inner then Returned inner
              else
                top ← getProp data "orgs";
                if truthy top then Returned top else Returned (Some (JArr []))
            else Returned (Some (JArr [])));
    count ← lengthOf orgs;
    _ ← interpolate count;
    _ ← forOf orgs logEntry;
    Returned (defined orgs)
  in
  match body with
  | Returned orgs => orgs
  | Thrown _ => JArr []
  end.

(** [listResources], from the answer of [request('/org/<id>/resources')].
    Inside the [try], the number of the selected resources is logged. *)
Definition listResources (response : outcome Error json) : json :=
  let body : outcome Error json :=
    body ← response;
    let data : value := Some body in
    resources ← (if isArray data then Returned data
                 else if typeofObject data then
                   inner ← getProp data "data";
                   nested ← optProp inner "resources";
                   if truthy nested then Returned nested
                   else if isArray inner then Returned inner
                   else
                     top ← getProp data "resources";
                     if truthy top then Returned top else Returned (Some (JArr []))
                 else Returned (Some (JArr [])));
    count ← lengthOf resources;
    _ ← interpolate count;
    Returned (defined resources)
  in
  match body with
  | Returned resources => resources
  | Thrown _ => JArr []
  end.

(** [getResourceTargets], from the answer of
    [request('/resource/<id>/targets')]. *)
Definition getResourceTargets (response : outcome Error json) : json :=
  let body : outcome Error json :=
    body ← response;
    let data : value := Some body in
    if isArray data then Returned body
    else if typeofObject data then
      inner ← getProp data "data";
      nested ← optProp inner "targets";
      if truthy nested then Returned (defined nested)
      else if isArray inner then Returned (defined inner)
      else
        top ← getProp data "targets";
        if truthy top then Returned (defined top) else Returned (JArr [])
    else Returned (JArr [])
  in
  match body with
  | Returned targets => targets
  | Thrown _ => JArr []
  end.

(** The shape-resolution policy in the words of the specification: the
    value itself when it is an array; for an object, the member [key] of
    its member [data] when present, else its member [data] when that is an
    array, else its own member [key] when present; the empty list in every
    other case.  A member is present when the object has it with a value
    that counts as true. *)
Definition present (v : value) : option json :=
  match v with
  | Some j => if truthy (Some j) then Some j else None
  | None => None
  end.

Definition memberOf (j : json) (key : string) : value :=
  match j with
  | JObj fields => field key fields
  | _ => None
  end.

Definition shapePolicy (key : string) (data : json) : json :=
  match data with
  | JArr _ => data
  | JObj fields =>
      match present (memberOf (defined (field "data" fields)) key) with
      | Some nested => nested
      | None =>
          match field "data" fields with
          | Some (JArr items) => JArr items
          | _ =>
              match present (field key fields) with
              | Some top => top
              | None => JArr []
              end
          end
      end
  | _ => JArr []
  end.

(** A selection whose [length] can be shown: not [null], and for an
    object, a member [length] that can be converted to a string, or none. *)
Definition countable (selected : json) : bool :=
  match selected with
  | JNull => false
  | JObj fields =>
      match field "length" fields with
      | Some count => convertible count
      | None => true
      end
  | _ => true
  end.

(** An organisation that [listOrgs] can log: not [null], and for an
    object, an id and a name that can be converted to a string. *)
Definition entryLoggable (org : json) : bool :=
  match org with
  | JNull => false
  | JObj fields =>
      convertible (defined (orValue (field "orgId" fields)
                             (orValue (field "id" fields) (Some (JStr "unknown")))))
      && convertible (defined (orValue (field "name" fields) (Some (JStr "unnamed"))))
  | _ => true
  end.

(** What [listOrgs] can log without failing: an array of organisations it
    can log, or a string. *)
Definition loggable (orgs : json) : bool :=
  match orgs with
  | JArr items => forallb entryLoggable items
  | JStr _ => true
  | _ => false
  end.

End Pangolin.

(** ** Plain objects and what they inherit *)

Module Proto.

(** The properties of [Object.prototype].  A plain object (an object
    literal, an object the YAML loader made) inherits them: reading one of
    these keys from an object that has no property of that name of its own
    gives the inherited member, which is a function, or for [__proto__] the
    prototype itself; it is never [undefined] and it counts as true. *)
Definition members : list string :=
  ["constructor"; "__defineGetter__"; "__defineSetter__"; "hasOwnProperty";
   "__lookupGetter__"; "__lookupSetter__"; "isPrototypeOf"; "propertyIsEnumerable";
   "toString"; "valueOf"; "__proto__"; "toLocaleString"].

(** What reading a key of a plain object with values of type [V] gives,
    when it gives something: a value of the object, or the member inherited
    under that key. *)
Inductive value (V : Type) : Type :=
| Plain (v : V)
| Inherited (key : string).
Arguments Plain {V} v.
Arguments Inherited {V} key.

(** [o[k]] on a plain object whose own properties are [own]; [None] is
    [undefined]. *)
Definition get {V : Type} (own : gmap string V) (k : string) : option (value V) :=
  match own !! k with
  | Some v => Some (Plain v)
  | None => if JsString.inList k members then Some (Inherited k) else None
  end.

(** [`${m}`] for an inherited member: the source text of a built-in
    function, under the name the function has, and [[object Object]] for the
    prototype. *)
Definition text (key : string) : string :=
  if String.eqb key "__proto__" then "[object Object]"
  else "function " ++ (if String.eqb key "constructor" then "Object" else key)
       ++ "() { [native code] }".

End Proto.

(** ** The configuration accessor ([Config]), as far as the core reads it *)

Record Defaults : Type := mkDefaults {
  interval : option string;
  client : option (list (string * Json.json));
  alerts : option Json.json
}.

(** [nameOverrides] and [gatusSubdomainPortOverrides] are plain objects,
    given by their own properties; the generator reads them through
    [Proto.get]. *)
Record Config : Type := mkConfig {
  domain : string;
  pangolinOrgId : string;
  hetznerZoneId : string;
  keepSubdomains : list string;
  ignoreSubdomains : list string;
  nameOverrides : gmap string string;
  gatusDefaults : Defaults;
  gatusAllowedHttpCodes : list Z;
  gatusSubdomainHttpCodes : list (Z * list string);
  gatusSubdomainPortOverrides : gmap string Z;
  gatusSkipTechnicalCnames : bool;
  gatusAggressiveHostFiltering : bool
}.

(** ** The zone client ([HetznerDNS]) and the zone it talks to *)

Module Hetzner.
Import JsString.

(** A record set of the zone: the values grouped under one name and type. *)
Record RRSet : Type := mkRRSet {
  rr_name : string;
  rr_type : string;
  rr_ttl : Z;
  rr_records : list string
}.

(** The flat record [listRecords] makes of each value of a record set. *)
Record ZoneRecord : Type := mkZoneRecord {
  rec_id : string;
  rec_name : string;
  rec_type : string;
  rec_value : string;
  rec_ttl : Z;
  rec_zone_id : string
}.

(** The mutation calls of the client, with the arguments the reconciler
    passes. *)
Inductive call : Type :=
| CreateRecord (zoneId name recordType value : string) (ttl : Z)
| UpdateRecord (recordId zoneId name recordType value : string) (ttl : Z)
| DeleteRecord (recordId zoneId : string).

(** *** The zone API

    The API is not part of the repository.  It is taken to keep one record
    set per name and type and to answer as a REST resource does: creating a
    record set that exists, or replacing or deleting one that does not, is an
    error and changes nothing. *)
Definition sameSet (name recordType : string) (rr : RRSet) : bool :=
  String.eqb (rr_name rr) name && String.eqb (rr_type rr) recordType.

Definition apiCreate (name recordType : string) (ttl : Z) (value : string)
    (zone : list RRSet) : option (list RRSet) :=
  if existsb (sameSet name recordType) zone then None
  else Some (zone ++ [mkRRSet name recordType ttl [value]])%list.

Definition apiSetRecords (name recordType value : string)
    (zone : list RRSet) : option (list RRSet) :=
  if existsb (sameSet name recordType) zone
  then Some (map (fun rr => if sameSet name recordType rr
                            then mkRRSet (rr_name rr) (rr_type rr) (rr_ttl rr) [value]
                            else rr) zone)
  else None.

Definition apiDelete (name recordType : string)
    (zone : list RRSet) : option (list RRSet) :=
  if existsb (sameSet name recordType) zone
  then Some (List.filter (fun rr => negb (sameSet name recordType rr)) zone)
  else None.

(** *** The client *)

(** [getZoneId]: the configured id when there is one, else the id the API
    finds for the domain ([byName]; [None] when the lookup fails or finds
    nothing). *)
Definition getZoneId (configured : string) (byName : option string) : option string :=
  if negb (String.eqb configured EmptyString) then Some configured else byName.

(** [listRecords]: every value of every record set, in the order of the
    pages; the empty list when a request fails. *)
Definition flatten (zoneId : string) (rr : RRSet) : list ZoneRecord :=
  map (fun value => mkZoneRecord (rr_name rr ++ ":" ++ rr_type rr) (rr_name rr) (rr_type rr)
                                 value (rr_ttl rr) zoneId)
      (rr_records rr).

Definition listRecords (listable : bool) (zoneId : string) (zone : list RRSet) : list ZoneRecord :=
  if listable then flat_map (flatten zoneId) zone else [].

(** A CNAME value is sent with a trailing dot. *)
Definition finalValue (recordType value : string) : string :=
  if String.eqb recordType "CNAME" && negb (endsWith "." value) then value ++ "." else value.

(** What a mutation call does to the zone, and whether it reports success.
    [accepts] tells whether the API lets the request through at all. *)
Definition perform (accepts : call -> bool) (c : call) (zone : list RRSet) : bool * list RRSet :=
  let answer :=
    if accepts c then
      match c with
      | CreateRecord _ name recordType value ttl =>
          apiCreate name recordType ttl (finalValue recordType value) zone
      | UpdateRecord _ _ name recordType value _ =>
          apiSetRecords name recordType (finalValue recordType value) zone
      | DeleteRecord recordId _ =>
          let parts := split ":" recordId in
          apiDelete (nth 0 parts EmptyString) (nth 1 parts "undefined") zone
      end
    else None in
  match answer with
  | Some zone' => (true, zone')
  | None => (false, zone)
  end.

End Hetzner.

(** ** The monitoring-config generator ([GatusConfigGenerator]) *)

Module Gatus.
Import JsString.

Definition PORT_PROTOCOLS (port : Z) : option string :=
  match port with
  | 8443 => Some "https"
  | 8006 => Some "https"
  | 8080 => Some "http"
  | 587 => Some "starttls"
  | 465 => Some "tls"
  | 993 => Some "tls"
  | 443 => Some "https"
  | 80 => Some "http"
  | 123 => Some "udp"
  | 53 => Some "dns"
  | 21 => Some "tcp"
  | _ => None
  end.

Definition CHECK_ORDER : list Z := [8443; 8006; 8080; 21; 443; 80; 587; 465; 993; 123; 53].

Record detection : Type := mkDetection { protocol : string; port : Proto.value Z }.

(** The scan of [detectProtocolAndPort]: the ports in order, up to the first
    that is open.  The second component lists the ports probed. *)
Fixpoint scan (isOpen : Z -> bool) (ports : list Z) : detection * list Z :=
  match ports with
  | [] => (mkDetection "icmp" (Proto.Plain 0), [])
  | port :: rest =>
      if isOpen port
      then (mkDetection (default "tcp" (PORT_PROTOCOLS port)) (Proto.Plain port), [port])
      else let '(found, probed) := scan isOpen rest in (found, port :: probed)
  end.

(** [PORT_PROTOCOLS[port] || 'tcp'] for an override.  The key that an
    inherited member is looked up under is its text, which is no port of the
    table and no member of the prototype. *)
Definition protocolOf (port : Proto.value Z) : string :=
  match port with
  | Proto.Plain number => default "tcp" (PORT_PROTOCOLS number)
  | Proto.Inherited _ => "tcp"
  end.

(** [detectProtocolAndPort]; [checkPort host port] is the outcome of the TCP
    connection attempt.  The overrides are a plain object: the test
    [this.portOverrides[subdomain] !== undefined] holds of an inherited
    member too. *)
Definition detectProtocolAndPort (portOverrides : gmap string Z)
    (checkPort : string -> Z -> bool) (target subdomain : string) : detection * list Z :=
  match (if negb (String.eqb subdomain EmptyString)
         then Proto.get portOverrides subdomain else None) with
  | Some port => (mkDetection (protocolOf port) port, [])
  | None => scan (checkPort target) CHECK_ORDER
  end.

(** The state of the generator: the mapping, the subnet-to-hostname object
    and the set of hostnames, both in insertion order. *)
Record Generator : Type := mkGenerator {
  hostMapping : list (string * string);
  subnetToHostname : list (string * string);
  hostnames : list string
}.

Definition setAdd (x : string) (s : list string) : list string :=
  if inList x s then s else (s ++ [x])%list.

Definition updateHostMapping (mapping : list (string * string)) : Generator :=
  fold_left (fun g '(cname, subnet) =>
               let hostname := replace "on." EmptyString cname in
               mkGenerator mapping
                           (Topology.objSet subnet hostname (subnetToHostname g))
                           (setAdd hostname (hostnames g)))
            mapping (mkGenerator mapping [] []).

(** [getDisplayName]: the override when reading it gives something that
    counts as true, which an inherited member does. *)
Definition getDisplayName (cfg : Config) (subdomain defaultName : string) : Proto.value string :=
  match Proto.get (nameOverrides cfg) subdomain with
  | Some (Proto.Plain override) =>
      Proto.Plain (if String.eqb override EmptyString then defaultName else override)
  | Some (Proto.Inherited key) => Proto.Inherited key
  | None => Proto.Plain defaultName
  end.

Fixpoint firstSubnet (targetIp : string) (entries : list (string * string)) : option string :=
  match entries with
  | [] => None
  | (subnet, hostname) :: rest =>
      if Topology.ipInSubnet targetIp subnet then Some hostname else firstSubnet targetIp rest
  end.

Definition getGroupForTarget (g : Generator) (targetIp domain : string) : string :=
  match firstSubnet targetIp (subnetToHostname g) with
  | Some hostname => hostname
  | None =>
      match List.find (fun hostname => includes (toLowerCase hostname) (toLowerCase domain)) (hostnames g) with
      | Some hostname => hostname
      | None => "other"
      end
  end.

Definition shouldSkipEndpoint (cfg : Config) (g : Generator) (name : string) : bool :=
  existsb (fun ignored => String.eqb ignored name
                          || (negb (String.eqb ignored EmptyString) && includes ignored name))
          (ignoreSubdomains cfg)
  || (gatusSkipTechnicalCnames cfg
      && existsb (fun hostname => includes ("on." ++ hostname) name
                                  || includes ("via." ++ hostname) name) (hostnames g))
  || (gatusAggressiveHostFiltering cfg
      && existsb (fun hostname => includes hostname name) (hostnames g)).

(** [[...new Set(codes)].sort((a, b) => a - b)] *)
Fixpoint insertSorted (x : Z) (l : list Z) : list Z :=
  match l with
  | [] => [x]
  | y :: rest => if x <=? y then x :: l else y :: insertSorted x rest
  end.

Definition sortUnique (codes : list Z) : list Z :=
  fold_right (fun x acc => if existsb (Z.eqb x) acc then acc else insertSorted x acc) [] codes.

(** [name.toLowerCase()]: an inherited member has no such method, and
    the call throws a [TypeError]. *)
Definition lower (name : Proto.value string) : outcome Error string :=
  match name with
  | Proto.Plain s => Returned (toLowerCase s)
  | Proto.Inherited _ => Thrown (mkError "toLowerCase is not a function")
  end.

(** The test of one pattern, its four alternatives from left to right. *)
Definition matchesPattern (subdomain name : Proto.value string) (pattern : string)
    : outcome Error bool :=
  let patternLower := toLowerCase pattern in
  sub ← lower subdomain;
  if includes patternLower sub then Returned true
  else
    nm ← lower name;
    if includes patternLower nm then Returned true
    else
      sub' ← lower subdomain;
      if String.eqb sub' patternLower then Returned true
      else nm' ← lower name; Returned (String.eqb nm' patternLower).

(** The loop over the patterns of one code, left at the first match. *)
Fixpoint anyPattern (subdomain name : Proto.value string) (patterns : list string)
    : outcome Error bool :=
  match patterns with
  | [] => Returned false
  | pattern :: rest =>
      bindO (matchesPattern subdomain name pattern)
            (fun found => if found then Returned true else anyPattern subdomain name rest)
  end.

(** The loop over the codes of the table. *)
Fixpoint collectCodes (subdomain name : Proto.value string) (table : list (Z * list string))
    (baseCodes : list Z) : outcome Error (list Z) :=
  match table with
  | [] => Returned baseCodes
  | (codeNum, allowedSubdomains) :: rest =>
      if existsb (Z.eqb codeNum) baseCodes then collectCodes subdomain name rest baseCodes
      else
        bindO (anyPattern subdomain name allowedSubdomains)
              (fun found =>
                 collectCodes subdomain name rest
                              (if found then (baseCodes ++ [codeNum])%list else baseCodes))
  end.

Definition getAllowedCodesForSubdomain (cfg : Config) (subdomain name : Proto.value string)
    : outcome Error (list Z) :=
  baseCodes ← collectCodes subdomain name (gatusSubdomainHttpCodes cfg)
                           (gatusAllowedHttpCodes cfg);
  Returned (sortUnique baseCodes).

Record Endpoint : Type := mkEndpoint {
  ep_name : Proto.value string;
  ep_url : string;
  ep_group : option string;
  ep_conditions : list string;
  ep_interval : option string;
  ep_client : option (list (string * Json.json));
  ep_alerts : option Json.json
}.

Fixpoint join (sep : string) (l : list string) : string :=
  match l with
  | [] => EmptyString
  | [x] => x
  | x :: rest => x ++ sep ++ join sep rest
  end.

(** [`${port}`] *)
Definition portText (port : Proto.value Z) : string :=
  match port with
  | Proto.Plain number => ofZ number
  | Proto.Inherited key => Proto.text key
  end.

(** [generateEndpoint]; [subdomain] defaults to the empty string. *)
Definition generateEndpoint (cfg : Config) (name : Proto.value string) (host : string)
    (port : Proto.value Z) (protocol group : string)
    (conditions : option (list string)) (useInsecureTls : bool) (subdomain : string)
    : outcome Error Endpoint :=
  let url :=
    if String.eqb protocol "icmp" then "icmp://" ++ host
    else if String.eqb protocol "http" || String.eqb protocol "https"
         then protocol ++ "://" ++ host ++ ":" ++ portText port
    else if String.eqb protocol "dns" then "dns://" ++ host
    else protocol ++ "://" ++ host ++ ":" ++ portText port in
  conds ←
    match conditions with
    | Some given => Returned given
    | None =>
        if String.eqb protocol "http" || String.eqb protocol "https" then
          allowedCodes ←
            getAllowedCodesForSubdomain cfg
              (if String.eqb subdomain EmptyString then name else Proto.Plain subdomain) name;
          Returned match allowedCodes with
                   | [code] => ["[STATUS] == " ++ ofZ code]
                   | _ => ["[STATUS] == any(" ++ join ", " (map ofZ allowedCodes) ++ ")"]
                   end
        else Returned ["[CONNECTED] == true"]
    end;
  let clientConfig :=
    match client (gatusDefaults cfg), useInsecureTls with
    | None, false => None
    | given, _ =>
        let copy := default [] given in
        Some (if useInsecureTls then Topology.objSet "insecure" (Json.JBool true) copy else copy)
    end in
  Returned (mkEndpoint name url
                       (if String.eqb group EmptyString then None else Some group)
                       conds (interval (gatusDefaults cfg)) clientConfig
                       (alerts (gatusDefaults cfg))).

(** The entries [generateConfig] is called with. *)
Record PangolinEntry : Type := mkPangolinEntry {
  pe_name : string;
  pe_domain : string;
  pe_target : string;
  pe_port : Z;
  pe_protocol : string
}.

Record HetznerEntry : Type := mkHetznerEntry {
  he_name : string;
  he_type : string;
  he_value : string
}.

Definition orElse (a b : string) : string := if String.eqb a EmptyString then b else a.

(** A loop whose body may throw. *)
Fixpoint forEach {A B : Type} (body : A -> B -> outcome Error A) (l : list B) (acc : A)
    : outcome Error A :=
  match l with
  | [] => Returned acc
  | x :: rest => bindO (body acc x) (forEach body rest)
  end.

(** First loop of [generateConfig]: the endpoints of the resource entries
    and the set of names they claim. *)
Definition pangolinStep (cfg : Config) (g : Generator)
    (acc : list Endpoint * list string) (entry : PangolinEntry)
    : outcome Error (list Endpoint * list string) :=
  let '(endpoints, pangolinSubdomains) := acc in
  let name := orElse (pe_name entry) (orElse (pe_domain entry) "Unknown") in
  let domain' := pe_domain entry in
  let targetIp := pe_target entry in
  let port := if pe_port entry =? 0 then 443 else pe_port entry in
  let protocol := orElse (pe_protocol entry) "https" in
  let subdomain := replace ("." ++ domain cfg) EmptyString domain' in
  let claimed := setAdd domain' (setAdd subdomain pangolinSubdomains) in
  if shouldSkipEndpoint cfg g name || shouldSkipEndpoint cfg g domain'
  then Returned (endpoints, claimed)
  else if String.eqb targetIp EmptyString then Returned (endpoints, claimed)
  else
    let group := getGroupForTarget g targetIp domain' in
    let useInsecure := String.eqb protocol "https" in
    endpoint ← generateEndpoint cfg (Proto.Plain name) targetIp (Proto.Plain port) protocol
                                group None useInsecure subdomain;
    Returned ((endpoints ++ [endpoint])%list, claimed).

(** Second loop: the endpoints of the remaining zone records. *)
Definition hetznerStep (cfg : Config) (g : Generator) (checkPort : string -> Z -> bool)
    (pangolinSubdomains : list string) (endpoints : list Endpoint) (entry : HetznerEntry)
    : outcome Error (list Endpoint) :=
  let recordName := he_name entry in
  let recordType := he_type entry in
  let target := he_value entry in
  let isKept := inList recordName (keepSubdomains cfg) in
  if negb isKept && (startsWith "on." recordName || startsWith "on." target)
  then Returned endpoints
  else if inList recordName pangolinSubdomains && negb isKept then Returned endpoints
  else
    let fullDomain := if String.eqb recordName "@" then domain cfg
                      else recordName ++ "." ++ domain cfg in
    if inList fullDomain pangolinSubdomains then Returned endpoints
    else if negb (String.eqb recordType "A") && negb (String.eqb recordType "CNAME")
    then Returned endpoints
    else if shouldSkipEndpoint cfg g recordName || shouldSkipEndpoint cfg g fullDomain
    then Returned endpoints
    else
      let subdomain := if negb (String.eqb recordName "@") then recordName else EmptyString in
      let displayName := getDisplayName cfg subdomain fullDomain in
      let detectTarget := if String.eqb recordType "CNAME" then stripDot target else fullDomain in
      let found := fst (detectProtocolAndPort (gatusSubdomainPortOverrides cfg) checkPort
                                              detectTarget recordName) in
      let targetVal := stripDot target in
      let group :=
        match List.find (fun hostname => includes ("on." ++ hostname) targetVal) (hostnames g) with
        | Some hostname => hostname
        | None =>
            match List.find (fun hostname => includes (toLowerCase hostname) (toLowerCase fullDomain))
                       (hostnames g) with
            | Some hostname => hostname
            | None => "other"
            end
        end in
      endpoint ← generateEndpoint cfg displayName fullDomain (port found) (protocol found)
                                  group None false recordName;
      Returned (endpoints ++ [endpoint])%list.

Definition generateConfig (cfg : Config) (g : Generator) (checkPort : string -> Z -> bool)
    (pangolinEntries : list PangolinEntry) (hetznerEntries : list HetznerEntry)
    : outcome Error (list Endpoint) :=
  '(endpoints, pangolinSubdomains) ← forEach (pangolinStep cfg g) pangolinEntries ([], []);
  forEach (hetznerStep cfg g checkPort pangolinSubdomains) hetznerEntries endpoints.

End Gatus.

(** ** The orchestrator ([DNSSync]) *)

Module Sync.
Import JsString.

(** What the resource directory hands over, after the client has extracted
    the lists: an absent or empty text member is the empty string, an absent
    or zero number is 0. *)
Record Target : Type := mkTarget {
  t_ip : string;
  t_port : Z;
  t_method : string;
  t_enabled : option bool
}.

Record Resource : Type := mkResource {
  r_resourceId : string;
  r_id : string;
  r_name : string;
  r_fullDomain : string;
  r_domain : string;
  r_subdomain : string;
  r_protocol : string;
  r_targets : list Target
}.

Record Org : Type := mkOrg {
  o_orgId : string;
  o_id : string;
  o_org_id : string
}.

(** A desired pair, as [getPangolinDomainCnamePairs] pushes it. *)
Record Pair : Type := mkPair {
  p_name : string;
  p_domain : string;
  p_subdomain : string;
  p_cname : string;
  p_cname_full : string;
  p_is_root : bool;
  p_resource_name : string;
  p_target : string;
  p_port : Z;
  p_protocol : string
}.

(** The outside world of a cycle: what each external call answers.  These
    are the inputs a cycle cannot change. *)
Record Env : Type := mkEnv {
  txtAnswer : nat -> outcome Error string;
  orgs : list Org;
  resourcesOf : string -> list Resource;
  targetsOf : string -> list Target;
  zoneIdByName : option string;
  zoneListable : bool;
  zoneAccepts : Hetzner.call -> bool;
  checkPort : string -> Z -> bool;
  fsWritable : bool;
  yamlDump : list Gatus.Endpoint -> outcome Error string
}.

(** What a cycle can change: the zone, the output file, and the state the
    generator object keeps. *)
Record Store : Type := mkStore {
  zone : list Hetzner.RRSet;
  gatusFile : option string;
  generator : Gatus.Generator
}.

(** The calls that change the outside world, with their result. *)
Inductive effect : Type :=
| ZoneCall (c : Hetzner.call) (ok : bool)
| FileWrite (content : string) (ok : bool).

Record Summary : Type := mkSummary {
  pangolinMappings : Z;
  dnsRecords : Z;
  gatusEndpoints : Z;
  errors : list string
}.

Record RunResult : Type := mkRunResult {
  success : bool;
  summary : Summary
}.

(** The state of a running cycle and the computations over it: a step
    returns or throws, and leaves the state it reached. *)
Record Cycle : Type := mkCycle {
  store : Store;
  report : Summary;
  trace : list effect
}.

Definition M (A : Type) : Type := Cycle -> outcome Error A * Cycle.

#[global] Instance M_ret : MRet M := fun _ a c => (Returned a, c).
#[global] Instance M_bind : MBind M := fun _ _ f m c =>
  match m c with
  | (Returned a, c') => f a c'
  | (Thrown e, c') => (Thrown e, c')
  end.

(** An asynchronous step of the cycle: from the store it finds, it returns
    or throws, leaves a store and has made some calls. *)
Definition Step (A : Type) : Type := Store -> outcome Error A * Store * list effect.

Definition run {A : Type} (step : Step A) : M A :=
  fun c =>
    let '(o, st', es) := step (store c) in
    (o, mkCycle st' (report c) (trace c ++ es)%list).

Definition getStore : M Store := fun c => (Returned (store c), c).

Definition putStore (s : Store) : M unit :=
  fun c => (Returned tt, mkCycle s (report c) (trace c)).

Definition getReport : M Summary := fun c => (Returned (report c), c).

Definition setReport (f : Summary -> Summary) : M unit :=
  fun c => (Returned tt, mkCycle (store c) (f (report c)) (trace c)).

(** [try { body } catch (error) { handler(error) }] *)
Definition tryCatchM {A : Type} (body : M A) (handler : Error -> M A) : M A :=
  fun c =>
    match body c with
    | (Returned a, c') => (Returned a, c')
    | (Thrown e, c') => handler e c'
    end.

(** *** [getPangolinDomainCnamePairs] *)

Definition getOrgId (specifiedOrgId : string) (listed : list Org) : option string :=
  if negb (String.eqb specifiedOrgId EmptyString) then Some specifiedOrgId
  else match listed with
       | firstOrg :: _ =>
           let orgId := Gatus.orElse (o_orgId firstOrg)
                          (Gatus.orElse (o_id firstOrg) (o_org_id firstOrg)) in
           if String.eqb orgId EmptyString then None else Some orgId
       | [] => None
       end.

(** The protocol of a target, by precedence. *)
Definition targetProtocol (resource : Resource) (target : Target) (targetPort : Z) : string :=
  let targetMethod := toLowerCase (t_method target) in
  if String.eqb targetMethod "http" || String.eqb targetMethod "https" then targetMethod
  else
    let resProto := toLowerCase (r_protocol resource) in
    if String.eqb resProto "http" || String.eqb resProto "https" then resProto
    else if (targetPort =? 443) || (targetPort =? 8006) then "https"
    else if targetPort =? 80 then "http"
    else "tcp".

(** One turn of the loop over the resources. *)
Definition resourceStep (cfg : Config) (env : Env) (mapping : list (string * string))
    (pairs : list Pair) (resource : Resource) : list Pair :=
  let resourceId := Gatus.orElse (r_resourceId resource) (r_id resource) in
  let resourceName := Gatus.orElse (r_name resource) "Unknown" in
  let domain0 := Gatus.orElse (r_fullDomain resource)
                   (Gatus.orElse (r_domain resource) (r_subdomain resource)) in
  if String.eqb domain0 EmptyString then pairs
  else
    let domain' := if negb (endsWith (domain cfg) domain0)
                   then domain0 ++ "." ++ domain cfg else domain0 in
    let live := targetsOf env resourceId in
    let targets := match live with [] => r_targets resource | _ => live end in
    match targets with
    | [] => pairs
    | first :: _ =>
        let target := default first
                        (List.find (fun t => negb (bool_decide (t_enabled t = Some false))) targets) in
        let targetIp := t_ip target in
        let targetPort := if t_port target =? 0 then 443 else t_port target in
        let protocol := targetProtocol resource target targetPort in
        if String.eqb targetIp EmptyString then pairs
        else
          match Topology.getCnameForIp targetIp mapping with
          | None => pairs
          | Some cname =>
              if String.eqb cname EmptyString then pairs
              else
                let subdomain := replace ("." ++ domain cfg) EmptyString domain' in
                let isRoot := String.eqb subdomain (domain cfg)
                              || String.eqb subdomain EmptyString in
                (pairs ++ [mkPair resourceName domain' subdomain cname
                                  (cname ++ "." ++ domain cfg) isRoot resourceName
                                  targetIp targetPort protocol])%list
          end
    end.

Definition getPangolinDomainCnamePairs (dns : Dns.version) (cfg : Config) (env : Env)
    : outcome Error (list Pair * list (string * string)) :=
  mapping ← getHostSubnetMapping (fst (Dns.queryTXT dns (txtAnswer env)));
  match mapping with
  | [] => Returned ([], [])
  | _ =>
      match getOrgId (pangolinOrgId cfg) (orgs env) with
      | None => Returned ([], mapping)
      | Some orgId =>
          let resources := resourcesOf env orgId in
          match resources with
          | [] => Returned ([], mapping)
          | _ => Returned (fold_left (resourceStep cfg env mapping) resources [], mapping)
          end
      end
  end.

(** *** [syncHetznerDns] *)

(** A CNAME value that references a topology hostname. *)
Definition isManaged (value : string) : bool :=
  startsWith "on." value || includes ".on." value.

Definition mapGet {V : Type} (k : string) (m : list (string * V)) : option V :=
  snd <$> List.find (fun kv => String.eqb (fst kv) k) m.

Definition mapHas {V : Type} (k : string) (m : list (string * V)) : bool :=
  existsb (fun kv => String.eqb (fst kv) k) m.

(** The [Map] of the managed CNAME records, by name: value, then id. *)
Definition currentStep (currentCnames : list (string * (string * string)))
    (record : Hetzner.ZoneRecord) : list (string * (string * string)) :=
  if negb (String.eqb (Hetzner.rec_type record) "CNAME") then currentCnames
  else
    let name := Hetzner.rec_name record in
    let value := stripDot (Hetzner.rec_value record) in
    if isManaged value
    then Topology.objSet name (value, Hetzner.rec_id record) currentCnames
    else currentCnames.

(** The [Map] of the expected records, by record name. *)
Definition expectedStep (cfg : Config) (expectedCnames : list (string * string))
    (pair : Pair) : list (string * string) :=
  let subdomain := p_subdomain pair in
  let cnameTarget := p_cname_full pair in
  let isRoot := p_is_root pair in
  if inList subdomain (ignoreSubdomains cfg) then expectedCnames
  else if isRoot && (inList "@" (ignoreSubdomains cfg)
                     || inList EmptyString (ignoreSubdomains cfg)
                     || inList (domain cfg) (ignoreSubdomains cfg)) then expectedCnames
  else
    let recordName := if isRoot then "@" else subdomain in
    Topology.objSet recordName cnameTarget expectedCnames.

Definition expectedOf (cfg : Config) (pangolinPairs : list Pair) : list (string * string) :=
  fold_left (expectedStep cfg) pangolinPairs [].

Definition currentOf (currentRecords : list Hetzner.ZoneRecord) : list (string * (string * string)) :=
  fold_left currentStep currentRecords [].

(** A mutation call: the zone after it, and the call with its result added
    to the log. *)
Definition issue (env : Env) (c : Hetzner.call)
    (st : list Hetzner.RRSet * list (Hetzner.call * bool)) : list Hetzner.RRSet * list (Hetzner.call * bool) :=
  let '(ok, zone') := Hetzner.perform (zoneAccepts env) c (fst st) in
  (zone', (snd st ++ [(c, ok)])%list).

(** "Delete orphaned records" *)
Definition deleteStep (cfg : Config) (env : Env) (zoneId : string)
    (expectedCnames : list (string * string))
    (st : list Hetzner.RRSet * list (Hetzner.call * bool))
    (entry : string * (string * string)) : list Hetzner.RRSet * list (Hetzner.call * bool) :=
  let '(name, (value, id)) := entry in
  if negb (mapHas name expectedCnames) then
    if inList name (keepSubdomains cfg) then st
    else issue env (Hetzner.DeleteRecord id zoneId) st
  else st.

(** "Update or create records" *)
Definition upsertStep (env : Env) (zoneId : string)
    (currentCnames : list (string * (string * string)))
    (st : list Hetzner.RRSet * list (Hetzner.call * bool))
    (entry : string * string) : list Hetzner.RRSet * list (Hetzner.call * bool) :=
  let '(name, target) := entry in
  let targetClean := stripDot target in
  match mapGet name currentCnames with
  | Some (value, id) =>
      if negb (String.eqb value targetClean)
      then issue env (Hetzner.UpdateRecord id zoneId name "CNAME" target 3600) st
      else st
  | None => issue env (Hetzner.CreateRecord zoneId name "CNAME" target 3600) st
  end.

(** [syncHetznerDns]: the refreshed records, the zone it leaves and the
    calls it made. *)
Definition syncHetznerDns (cfg : Config) (env : Env) (pangolinPairs : list Pair)
    (zone0 : list Hetzner.RRSet)
    : list Hetzner.ZoneRecord * (list Hetzner.RRSet * list (Hetzner.call * bool)) :=
  match Hetzner.getZoneId (hetznerZoneId cfg) (zoneIdByName env) with
  | None => ([], (zone0, []))
  | Some zoneId =>
      if String.eqb zoneId EmptyString then ([], (zone0, []))
      else
        let currentRecords := Hetzner.listRecords (zoneListable env) zoneId zone0 in
        let currentCnames := currentOf currentRecords in
        let expectedCnames := expectedOf cfg pangolinPairs in
        let deleted := fold_left (deleteStep cfg env zoneId expectedCnames) currentCnames (zone0, []) in
        let upserted := fold_left (upsertStep env zoneId currentCnames) expectedCnames deleted in
        (Hetzner.listRecords (zoneListable env) zoneId (fst upserted), upserted)
  end.

(** *** [generateGatusConfig] *)

Definition toHetznerEntry (cfg : Config) (pangolinSubdomains : list string)
    (record : Hetzner.ZoneRecord) : option Gatus.HetznerEntry :=
  let recordType := Hetzner.rec_type record in
  let name := Hetzner.rec_name record in
  let value := stripDot (Hetzner.rec_value record) in
  if negb (String.eqb recordType "A") && negb (String.eqb recordType "CNAME") then None
  else if inList name pangolinSubdomains then None
  else if startsWith "on." name && negb (inList name (keepSubdomains cfg)) then None
  else Some (Gatus.mkHetznerEntry name recordType value).

Definition generateGatusConfig (cfg : Config) (env : Env) (g : Gatus.Generator)
    (pangolinPairs : list Pair) (hetznerRecords : list Hetzner.ZoneRecord)
    : outcome Error (list Gatus.Endpoint) :=
  let pangolinEntries :=
    map (fun pair => Gatus.mkPangolinEntry (p_resource_name pair) (p_domain pair) (p_target pair)
                                           (p_port pair) (p_protocol pair)) pangolinPairs in
  let pangolinSubdomains := map p_subdomain pangolinPairs in
  let hetznerEntries := omap (toHetznerEntry cfg pangolinSubdomains) hetznerRecords in
  Gatus.generateConfig cfg g (checkPort env) pangolinEntries hetznerEntries.

(** *** [writeGatusConfig]: whether the file was written

    The serializer is a library; [yamlDump] is what it answers, a text or
    an exception.  It is called before the first [try], so its exception is
    that of [writeGatusConfig]. *)

Definition writeGatusConfig (env : Env) (config : list Gatus.Endpoint) : Step bool :=
  fun st =>
    match yamlDump env config with
    | Thrown e => (Thrown e, st, [])
    | Returned newContent =>
        if bool_decide (gatusFile st = Some newContent) then (Returned false, st, [])
        else if fsWritable env
             then (Returned true, mkStore (zone st) (Some newContent) (generator st),
                   [FileWrite newContent true])
             else (Returned false, st, [FileWrite newContent false])
    end.

(** *** [runOnce] *)

(** The four asynchronous steps of a cycle. *)
Record Steps : Type := mkSteps {
  stepPairs : Step (list Pair * list (string * string));
  stepSync : list Pair -> Step (list Hetzner.ZoneRecord);
  stepGenerate : list Pair -> list Hetzner.ZoneRecord -> Step (list Gatus.Endpoint);
  stepWrite : list Gatus.Endpoint -> Step bool
}.

Definition len {A : Type} (l : list A) : Z := Z.of_nat (List.length l).

(** The body of the [try]. *)
Definition cycleBody (steps : Steps) : M RunResult :=
  '(pangolinPairs, mapping) ← run (stepPairs steps);
  _ ← setReport (fun s => mkSummary (len pangolinPairs) (dnsRecords s) (gatusEndpoints s) (errors s));
  st ← getStore;
  _ ← putStore (mkStore (zone st) (gatusFile st) (Gatus.updateHostMapping mapping));
  hetznerRecords ← run (stepSync steps pangolinPairs);
  _ ← setReport (fun s => mkSummary (pangolinMappings s) (len hetznerRecords) (gatusEndpoints s) (errors s));
  gatusConfig ← run (stepGenerate steps pangolinPairs hetznerRecords);
  _ ← setReport (fun s => mkSummary (pangolinMappings s) (dnsRecords s) (len gatusConfig) (errors s));
  _ ← run (stepWrite steps gatusConfig);
  s ← getReport;
  mret (mkRunResult true s).

(** [runOnce] over given steps, from the state [st] the last cycle left. *)
Definition runOnceWith (steps : Steps) (st : Store) : outcome Error RunResult * Cycle :=
  tryCatchM (cycleBody steps)
            (fun error =>
               _ ← setReport (fun s => mkSummary (pangolinMappings s) (dnsRecords s) (gatusEndpoints s)
                                                 (errors s ++ [message error])%list);
               s ← getReport;
               mret (mkRunResult false s))
            (mkCycle st (mkSummary 0 0 0 []) []).

(** The steps of the orchestrator itself. *)
Definition steps (dns : Dns.version) (cfg : Config) (env : Env) : Steps :=
  mkSteps
    (fun st => (getPangolinDomainCnamePairs dns cfg env, st, []))
    (fun pangolinPairs st =>
       let '(records, (zone', calls)) := syncHetznerDns cfg env pangolinPairs (zone st) in
       (Returned records, mkStore zone' (gatusFile st) (generator st),
        map (fun '(c, ok) => ZoneCall c ok) calls))
    (fun pangolinPairs hetznerRecords st =>
       (generateGatusConfig cfg env (generator st) pangolinPairs hetznerRecords, st, []))
    (writeGatusConfig env).

Definition runOnce (dns : Dns.version) (cfg : Config) (env : Env) (st : Store)
    : outcome Error RunResult * Cycle :=
  runOnceWith (steps dns cfg env) st.

End Sync.

(** ** Notions of the specification *)

(** What the resolver reads as an address: four parts, each of which
    [parseInt] reads as a number between 0 and 255.  [parseInt] skips leading
    white space and stops at the first character that is not a digit, so the
    parts need not be numerals. *)
Definition readableQuad (ip : string) : bool :=
  let parts := JsString.split "." ip in
  Nat.eqb (List.length parts) 4 && forallb Topology.octetOk parts.

(** A decimal numeral: one digit or more, and nothing else. *)
Definition isNumeral (s : string) : bool :=
  negb (String.eqb s EmptyString)
  && forallb (fun c => bool_decide (is_Some (JsString.digit c))) (list_ascii_of_string s).

(** A valid dotted quad: four numerals, each between 0 and 255. *)
Definition validDottedQuad (ip : string) : bool :=
  let parts := JsString.split "." ip in
  Nat.eqb (List.length parts) 4
  && forallb (fun part => isNumeral part && Topology.octetOk part) parts.

(** The four octets of a dotted quad. *)
Definition octetsOf (ip : string) : option (Z * Z * Z * Z) :=
  match JsString.split "." ip with
  | [p0; p1; p2; p3] =>
      match JsString.parseInt p0, JsString.parseInt p1, JsString.parseInt p2, JsString.parseInt p3 with
      | Some a, Some b, Some c, Some d =>
          if forallb (fun o => (0 <=? o) && (o <=? 255)) [a; b; c; d] then Some (a, b, c, d) else None
      | _, _, _, _ => None
      end
  | _ => None
  end.

(** The attempts [from], [from + 1], ... ([k] of them), each with its own
    timeout, and a pause of [delay] between two of them. *)
Fixpoint schedule (timeout delay : Z) (from k : nat) : list Dns.event :=
  match k with
  | O => []
  | S k' =>
      Dns.Attempt from timeout ::
      match k' with
      | O => []
      | S _ => Dns.Sleep delay :: schedule timeout delay (S from) k'
      end
  end.

Definition attempts (evs : list Dns.event) : nat :=
  List.length (List.filter (fun e => match e with Dns.Attempt _ _ => true | _ => false end) evs).

(** The failure of a single attempt, as the query rethrows it. *)
Definition rethrown (o : outcome Error string) : outcome (option Error) string :=
  match o with
  | Returned txt => Returned txt
  | Thrown err => Thrown (Some err)
  end.

(** Some step of the cycle throws [e]: the first that does not return. *)
Definition withGenerator (mapping : list (string * string)) (st : Sync.Store) : Sync.Store :=
  Sync.mkStore (Sync.zone st) (Sync.gatusFile st) (Gatus.updateHostMapping mapping).

Inductive stepThrows (steps : Sync.Steps) (st : Sync.Store) (e : Error) : Prop :=
| ThrowsPairs st1 es1 :
    Sync.stepPairs steps st = (Thrown e, st1, es1) ->
    stepThrows steps st e
| ThrowsSync pairs mapping st1 es1 st2 es2 :
    Sync.stepPairs steps st = (Returned (pairs, mapping), st1, es1) ->
    Sync.stepSync steps pairs (withGenerator mapping st1) = (Thrown e, st2, es2) ->
    stepThrows steps st e
| ThrowsGenerate pairs mapping st1 es1 records st2 es2 st3 es3 :
    Sync.stepPairs steps st = (Returned (pairs, mapping), st1, es1) ->
    Sync.stepSync steps pairs (withGenerator mapping st1) = (Returned records, st2, es2) ->
    Sync.stepGenerate steps pairs records st2 = (Thrown e, st3, es3) ->
    stepThrows steps st e
| ThrowsWrite pairs mapping st1 es1 records st2 es2 config st3 es3 st4 es4 :
    Sync.stepPairs steps st = (Returned (pairs, mapping), st1, es1) ->
    Sync.stepSync steps pairs (withGenerator mapping st1) = (Returned records, st2, es2) ->
    Sync.stepGenerate steps pairs records st2 = (Returned config, st3, es3) ->
    Sync.stepWrite steps config st3 = (Thrown e, st4, es4) ->
    stepThrows steps st e.

(** The calls of a reconciliation, read off the two maps: a delete for
    each current entry that is neither expected nor retained, then an update
    for each expected entry whose current value differs and a create for each
    that has no current entry. *)
Definition plannedDelete (cfg : Config) (zoneId : string) (expectedCnames : list (string * string))
    (entry : string * (string * string)) : option Hetzner.call :=
  if negb (Sync.mapHas (fst entry) expectedCnames)
     && negb (JsString.inList (fst entry) (keepSubdomains cfg))
  then Some (Hetzner.DeleteRecord (snd (snd entry)) zoneId) else None.

Definition plannedUpsert (zoneId : string) (currentCnames : list (string * (string * string)))
    (entry : string * string) : option Hetzner.call :=
  match Sync.mapGet (fst entry) currentCnames with
  | Some (value, id) =>
      if negb (String.eqb value (JsString.stripDot (snd entry)))
      then Some (Hetzner.UpdateRecord id zoneId (fst entry) "CNAME" (snd entry) 3600)
      else None
  | None => Some (Hetzner.CreateRecord zoneId (fst entry) "CNAME" (snd entry) 3600)
  end.

Definition plannedCalls (cfg : Config) (zoneId : string)
    (currentCnames : list (string * (string * string)))
    (expectedCnames : list (string * string)) : list Hetzner.call :=
  (omap (plannedDelete cfg zoneId expectedCnames) currentCnames
   ++ omap (plannedUpsert zoneId currentCnames) expectedCnames)%list.

(** The calls a reconciliation made, without their results. *)
Definition callsOf (cfg : Config) (env : Sync.Env) (pangolinPairs : list Sync.Pair)
    (zone0 : list Hetzner.RRSet) : list Hetzner.call :=
  map fst (snd (snd (Sync.syncHetznerDns cfg env pangolinPairs zone0))).

(** The current entry of a name, read off the records: the last CNAME
    record of that name whose value is managed. *)
Definition pick (name : string) (record : Hetzner.ZoneRecord) : option (string * string) :=
  if String.eqb (Hetzner.rec_type record) "CNAME"
     && String.eqb (Hetzner.rec_name record) name
     && Sync.isManaged (JsString.stripDot (Hetzner.rec_value record))
  then Some (JsString.stripDot (Hetzner.rec_value record), Hetzner.rec_id record)
  else None.

Fixpoint lastFor (name : string) (records : list Hetzner.ZoneRecord) : option (string * string) :=
  match records with
  | [] => None
  | record :: rest =>
      match lastFor name rest with
      | Some x => Some x
      | None => pick name record
      end
  end.

Definition isDelete (c : Hetzner.call) : bool :=
  match c with Hetzner.DeleteRecord _ _ => true | _ => false end.

(** A call that reported success. *)
Definition effectOk (e : Sync.effect) : bool :=
  match e with
  | Sync.ZoneCall _ ok => ok
  | Sync.FileWrite _ ok => ok
  end.

(** What a value sent for a CNAME leaves as current entry of [name]. *)
Definition entryOf (name value : string) : option (string * string) :=
  if Sync.isManaged (JsString.stripDot value)
  then Some (JsString.stripDot value, name ++ ":" ++ "CNAME") else None.

(** A name is deleted by the delete phase over [entries]. *)
Definition isDeleted (cfg : Config) (expectedCnames : list (string * string))
    (entries : list (string * (string * string))) (name : string) : bool :=
  existsb (fun entry => String.eqb (fst entry) name
                        && negb (Sync.mapHas (fst entry) expectedCnames)
                        && negb (JsString.inList (fst entry) (keepSubdomains cfg)))
          entries.

(** ** Example data *)

Definition exampleConfig : Config :=
  mkConfig "example.com" "org" "zone1" [] [] ∅ (mkDefaults None None None) [200] [] ∅ true false.

Definition exampleEnv : Sync.Env :=
  Sync.mkEnv (fun _ => Returned "alpha:10.0.4.5") [] (fun _ => []) (fun _ => []) None true
             (fun _ => true) (fun _ _ => false) true (fun _ => Returned EmptyString).

Definition examplePair (subdomain target : string) : Sync.Pair :=
  Sync.mkPair "svc" (subdomain ++ ".example.com") subdomain target target false "svc"
              "10.0.4.17" 443 "https".

Definition retainConfig : Config :=
  mkConfig "example.com" "org" "zone1" ["d"] [] ∅ (mkDefaults None None None) [200] [] ∅ true false.

(** The records of a zone, as a successful listing returns them. *)
Abbreviation listing zoneId zone := (flat_map (Hetzner.flatten zoneId) zone).

(** The targets of the pairs are values the reconciler recognises as its
    own. *)
Definition managedTargets (pairs : list Sync.Pair) : Prop :=
  forall pair, In pair pairs ->
    Sync.isManaged (JsString.stripDot (Sync.p_cname_full pair)) = true.

(** The zone calls of a reconciliation, as effects of the cycle. *)
Definition zoneEffects (calls : list (Hetzner.call * bool)) : list Sync.effect :=
  map (fun '(c, ok) => Sync.ZoneCall c ok) calls.

(** A serializer for the examples: a line per endpoint; like the YAML
    library, it refuses a name that is a function. *)
Definition exampleLine (ep : Gatus.Endpoint) : outcome Error string :=
  match Gatus.ep_name ep with
  | Proto.Plain name =>
      Returned (name ++ " " ++ Gatus.ep_url ep ++ " " ++ default EmptyString (Gatus.ep_group ep))
  | Proto.Inherited _ => Thrown (mkError "unacceptable kind of an object to dump")
  end.

Fixpoint exampleLines (endpoints : list Gatus.Endpoint) : outcome Error (list string) :=
  match endpoints with
  | [] => Returned []
  | ep :: rest =>
      bindO (exampleLine ep) (fun line =>
      bindO (exampleLines rest) (fun lines => Returned (line :: lines)))
  end.

Definition exampleDump (endpoints : list Gatus.Endpoint) : outcome Error string :=
  lines ← exampleLines endpoints; Returned (Gatus.join ";" lines).

(** The end-to-end scenario of the specification: the topology
    [alpha:10.0.4.5], one resource [app.example.com] with the target
    [10.0.4.17:443]; [accepts] tells whether the zone API accepts
    mutations. *)
Definition scenarioEnv (accepts : bool) : Sync.Env :=
  Sync.mkEnv (fun _ => Returned "alpha:10.0.4.5") []
             (fun _ => [Sync.mkResource "1" EmptyString "App" "app.example.com" EmptyString
                                         EmptyString EmptyString []])
             (fun _ => [Sync.mkTarget "10.0.4.17" 443 "https" None])
             None true (fun _ => accepts) (fun _ _ => false) true exampleDump.

Definition emptyStore : Sync.Store :=
  Sync.mkStore [] None (Gatus.mkGenerator [] [] []).

(** ** Notions used by the further properties *)

(** A token of a topology payload: no white space, no comma, no colon. *)
Definition plain (s : string) : bool :=
  forallb (fun c => negb (JsString.isWhite c || Ascii.eqb c "," || Ascii.eqb c ":"))
          (list_ascii_of_string s).

(** A payload as the topology source publishes it: [host:ip] items,
    separated by commas. *)
Definition payloadOf (hosts : list (string * string)) : string :=
  Gatus.join "," (map (fun '(hostname, ip) => hostname ++ ":" ++ ip) hosts).

(** The mapping such a list of hosts stands for: each host with a valid
    address is assigned its block, in order. *)
Definition assignHost (mapping : list (string * string)) (host : string * string)
    : list (string * string) :=
  match Topology.ipToSubnet (snd host) with
  | Some subnet => Topology.objSet ("on." ++ fst host) subnet mapping
  | None => mapping
  end.

(** What an item of the payload contributes. *)
Definition fromItem (entry k v : string) : Prop :=
  JsString.includes ":" (JsString.trim entry) = true /\
  k = "on." ++ JsString.trim (nth 0 (JsString.split ":" (JsString.trim entry)) EmptyString) /\
  Topology.ipToSubnet
    (JsString.trim (nth 1 (JsString.split ":" (JsString.trim entry)) EmptyString)) = Some v.



(** A list of numbers in strictly increasing order. *)
Fixpoint increasing (l : list Z) : bool :=
  match l with
  | x :: (y :: _) as rest => (x <? y) && increasing rest
  | _ => true
  end.

(** ** [HetznerDNS.listRecords], page by page

    The listing above takes the zone as one answer.  The client asks for it
    page by page; this is its loop. *)

Module HetznerPaged.

(** The answer to the request of one page: its record sets (the empty list
    when the member [rrsets] is missing) and [meta.pagination.last_page]
    (0 when it is missing). *)
Record Page : Type := mkPage {
  rrsets : list Hetzner.RRSet;
  last_page : Z
}.

(** [pagination.last_page || 1] *)
Definition lastOf (data : Page) : Z :=
  if last_page data =? 0 then 1 else last_page data.

(** The [while (true)] loop, entered at [page] with the records gathered so
    far; [request p] is the answer to the request of page [p].  The loop has
    no bound of its own: [None] says that it has not ended after [fuel]
    requests. *)
Fixpoint loop (fuel : nat) (request : Z -> outcome Error Page) (zoneId : string)
    (page : Z) (allRecords : list Hetzner.ZoneRecord)
    : option (outcome Error (list Hetzner.ZoneRecord)) :=
  match fuel with
  | O => None
  | S fuel' =>
      match request page with
      | Thrown e => Some (Thrown e)
      | Returned data =>
          let allRecords' :=
            (allRecords ++ flat_map (Hetzner.flatten zoneId) (rrsets data))%list in
          if page >=? lastOf data then Some (Returned allRecords')
          else loop fuel' request zoneId (page + 1) allRecords'
      end
  end.

(** [listRecords]: the whole loop is in a [try] whose handler returns the
    empty list. *)
Definition listRecords (fuel : nat) (request : Z -> outcome Error Page) (zoneId : string)
    : option (list Hetzner.ZoneRecord) :=
  (fun result => match result with
                 | Returned allRecords => allRecords
                 | Thrown _ => []
                 end) <$> loop fuel request zoneId 1 [].

End HetznerPaged.

(** What every desired pair satisfies, with respect to the configuration
    and the host mapping it was built from. *)
Definition consistentPair (cfg : Config) (mapping : list (string * string)) (pair : Sync.Pair) : Prop :=
  (exists subnet, In (Sync.p_cname pair, subnet) mapping /\
                  Topology.ipInSubnet (Sync.p_target pair) subnet = true) /\
  Sync.p_cname_full pair = Sync.p_cname pair ++ "." ++ domain cfg /\
  JsString.endsWith (domain cfg) (Sync.p_domain pair) = true /\
  Sync.p_subdomain pair =
    JsString.replace ("." ++ domain cfg) EmptyString (Sync.p_domain pair) /\
  Sync.p_is_root pair =
    (String.eqb (Sync.p_subdomain pair) (domain cfg)
     || String.eqb (Sync.p_subdomain pair) EmptyString) /\
  Sync.p_target pair <> EmptyString /\
  Sync.p_port pair <> 0 /\
  In (Sync.p_protocol pair) ["http"; "https"; "tcp"] /\
  Sync.p_name pair = Sync.p_resource_name pair.

(** ** [PangolinAPI.getOrgId], on the decoded answer *)

Module PangolinOrg.
Import Json.

(** [orgs.length > 0], then [orgs[0]], on what [listOrgs] returns, which
    is an array or a string (it has iterated over it): the first entry of an
    array, the first character of a string, nothing when there is none. *)
Definition firstEntry (orgs : json) : outcome Error (option json) :=
  match orgs with
  | JNull => Thrown (mkError "Cannot read properties of null (reading 'length')")
  | JArr (firstOrg :: _) => Returned (Some firstOrg)
  | JStr (String c _) => Returned (Some (JStr (String c EmptyString)))
  | _ => Returned None
  end.

(** [getOrgId]: the id of the configuration when there is one, else the
    first of [orgId], [id] and [org_id] of the first listed organisation
    that counts as true, which is shown in a log line before it is returned;
    [None] is [null].  Nothing here is in a [try].  [response] is the answer
    to the request that [listOrgs] makes. *)
Definition getOrgId (specifiedOrgId : string) (response : outcome Error json)
    : outcome Error (option json) :=
  if negb (String.eqb specifiedOrgId EmptyString) then Returned (Some (JStr specifiedOrgId))
  else
    first ← firstEntry (Pangolin.listOrgs response);
    match first with
    | Some firstOrg =>
        orgId ← getProp (Some firstOrg) "orgId";
        orgId ← (if truthy orgId then Returned orgId else getProp (Some firstOrg) "id");
        orgId ← (if truthy orgId then Returned orgId else getProp (Some firstOrg) "org_id");
        if truthy orgId then (_ ← interpolate orgId; Returned orgId) else Returned None
    | None => Returned None
    end.

End PangolinOrg.

(** ** The authentication service ([AuthService]) *)

Module Auth.

Definition SESSION_TIMEOUT_MS : Z := 24 * 60 * 60 * 1000.

(** The user name of a session is the value the login was called with. *)
Record Session : Type := mkSession {
  s_username : Json.value;
  s_createdAt : Z;
  s_lastActivity : Z
}.

(** [config.auth], as far as the service reads it: the members
    [username] and [password_hash], each as the configuration file or an
    earlier registration left it, [undefined] when it is missing. *)
Record Account : Type := mkAccount {
  a_username : Json.value;
  a_password_hash : Json.value
}.

(** What [register] and [login] answer. *)
Record Reply : Type := mkReply {
  success : bool;
  sessionId : option string;
  error : option string
}.

Definition refused (reason : string) : Reply := mkReply false None (Some reason).

(** [getStatus().registered] *)
Definition registered (account : Account) : bool :=
  Json.truthy (a_username account) && Json.truthy (a_password_hash account).

(** [a === b] for a value [a] out of the body of a request and a stored
    value [b]: equal primitive values; an array or an object decoded from a
    request is a new one, identical to no stored value. *)
Definition strictEq (a b : Json.value) : bool :=
  match a, b with
  | None, None => true
  | Some Json.JNull, Some Json.JNull => true
  | Some (Json.JBool x), Some (Json.JBool y) => Bool.eqb x y
  | Some (Json.JNum x), Some (Json.JNum y) => x =? y
  | Some (Json.JStr x), Some (Json.JStr y) => String.eqb x y
  | _, _ => false
  end.

Section Guards.

(** The route passes the members [username] and [password] of the body of
    the request as they are: any decoded value, or [undefined].

    [textBelow v n] is the comparison [v < n] of a string, or of an array
    (which is joined to a string first), with a number: the string is read
    as a number, and reading numbers is not part of the embedding.  It is
    only asked for the member [length] of an object. *)
Variable textBelow : Json.json -> Z -> outcome Error bool.

(** [v < n] for a decoded value and a number: [null] is 0, [false] 0 and
    [true] 1; an object has no number ([NaN] is below nothing), and none at
    all with a member [toString] of its own, which cannot be called. *)
Definition below (v : Json.json) (n : Z) : outcome Error bool :=
  match v with
  | Json.JNull => Returned (0 <? n)
  | Json.JBool b => Returned ((if b then 1 else 0) <? n)
  | Json.JNum m => Returned (m <? n)
  | Json.JObj _ =>
      if Json.convertible v then Returned false
      else Thrown (mkError "Cannot convert object to primitive value")
  | Json.JStr _ | Json.JArr _ => textBelow v n
  end.

(** [v.length < n] for a value that counts as true: the length of a string
    or of an array is a number; a number or [true] has no length, and
    [undefined < n] is false; the [length] of an object is its member of that
    name. *)
Definition shorter (v : Json.json) (n : Z) : outcome Error bool :=
  match v with
  | Json.JStr s => Returned (Z.of_nat (String.length s) <? n)
  | Json.JArr items => Returned (Z.of_nat (List.length items) <? n)
  | Json.JObj fields =>
      match Json.field "length" fields with
      | Some member => below member n
      | None => Returned false
      end
  | _ => Returned false
  end.

(** [!v || v.length < n] *)
Definition missingOrShort (v : Json.value) (n : Z) : outcome Error bool :=
  if negb (Json.truthy v) then Returned true else shorter (Json.defined v) n.

(** [register]; [hashed] is what [bcrypt.hash] answers for the password and
    [saved] is the outcome of writing the configuration file.  The account is
    replaced in memory before the file is written. *)
Definition register (account : Account) (username password : Json.value)
    (hashed : outcome Error string) (saved : outcome Error unit)
    : outcome Error Reply * Account :=
  if registered account then (Returned (refused "User already registered"), account)
  else
    match missingOrShort username 3 with
    | Thrown e => (Thrown e, account)
    | Returned true => (Returned (refused "Username must be at least 3 characters"), account)
    | Returned false =>
        match missingOrShort password 8 with
        | Thrown e => (Thrown e, account)
        | Returned true =>
            (Returned (refused "Password must be at least 8 characters"), account)
        | Returned false =>
            match hashed with
            | Thrown e => (Thrown e, account)
            | Returned hash =>
                let account' := mkAccount username (Some (Json.JStr hash)) in
                match saved with
                | Returned _ => (Returned (mkReply true None None), account')
                | Thrown e => (Thrown e, account')
                end
            end
        end
    end.

End Guards.

(** [login]; [compare] is [bcrypt.compare], [fresh] the session id drawn
    from the random source, [now] and [now'] the two readings of the clock. *)
Definition login (compare : Json.value -> Json.value -> outcome Error bool) (account : Account)
    (sessions : gmap string Session) (username password : Json.value) (fresh : string)
    (now now' : Z) : outcome Error Reply * gmap string Session :=
  if negb (Json.truthy (a_username account)) || negb (Json.truthy (a_password_hash account))
  then (Returned (refused "No user registered"), sessions)
  else if negb (strictEq username (a_username account))
  then (Returned (refused "Invalid credentials"), sessions)
  else
    match compare password (a_password_hash account) with
    | Thrown e => (Thrown e, sessions)
    | Returned false => (Returned (refused "Invalid credentials"), sessions)
    | Returned true =>
        (Returned (mkReply true (Some fresh) None),
         <[fresh := mkSession username now now']> sessions)
    end.

Definition expired (now : Z) (session : Session) : bool :=
  now - s_lastActivity session >? SESSION_TIMEOUT_MS.

(** [validateSession]; a missing cookie is the empty string.  [now] is the
    reading of the clock for the check, [now'] the one for the update. *)
Definition validateSession (sessions : gmap string Session) (sessionId : string) (now now' : Z)
    : bool * gmap string Session :=
  if String.eqb sessionId EmptyString then (false, sessions)
  else match sessions !! sessionId with
       | None => (false, sessions)
       | Some session =>
           if expired now session then (false, delete sessionId sessions)
           else (true, <[sessionId := mkSession (s_username session) (s_createdAt session) now']>
                         sessions)
       end.

Definition logout (sessions : gmap string Session) (sessionId : string) : gmap string Session :=
  if String.eqb sessionId EmptyString then sessions else delete sessionId sessions.

(** [cleanupSessions]: the loop over the entries of the map, each expired
    one deleted as it is met. *)
Definition cleanupSessions (now : Z) (sessions : gmap string Session) : gmap string Session :=
  map_fold (fun sessionId session remaining =>
              if expired now session then delete sessionId remaining else remaining)
           sessions sessions.

End Auth.

(** ** The logger ([Logger]) *)

Module Log.

Definition MAX_BUFFER_SIZE : nat := 1000.
Definition CLEANUP_HOURS : Z := 12.

(** A log entry.  The time stamp is kept as the number of milliseconds that
    its ISO text stands for. *)
Record Entry : Type := mkEntry {
  ts : Z;
  level : string;
  msg : string;
  run_id : option string
}.

(** The buffer, the set of connected clients in the order they were added,
    and the id of the running cycle. *)
Record Logger : Type := mkLogger {
  buffer : list Entry;
  wsClients : list nat;
  currentRunId : option string
}.

Definition setRunId (runId : option string) (lg : Logger) : Logger :=
  mkLogger (buffer lg) (wsClients lg) runId.

(** [log]: the entry is pushed and, when the buffer has grown beyond its
    size, the oldest entry is shifted out; a client whose [send] throws
    ([sendOk] is false) is removed.  The file and the console are written
    to, with failures ignored. *)
Definition log (sendOk : nat -> bool) (now : Z) (level msg : string) (lg : Logger) : Logger :=
  let entry := mkEntry now level msg (currentRunId lg) in
  let pushed := (buffer lg ++ [entry])%list in
  mkLogger (if Nat.ltb MAX_BUFFER_SIZE (List.length pushed) then tl pushed else pushed)
           (List.filter sendOk (wsClients lg))
           (currentRunId lg).

(** [logs.slice(-limit)]; [None] is a limit that is not a number. *)
Definition sliceLast {A : Type} (limit : option Z) (logs : list A) : list A :=
  match limit with
  | Some n =>
      if 0 <? n then skipn (List.length logs - Z.to_nat n) logs
      else skipn (Z.to_nat (- n)) logs
  | None => logs
  end.

(** [getLogs({ since, limit, levels })].  [since] is [None] when it is
    missing or empty, [Some None] when it is not a date, and the time it
    stands for otherwise; [levels] is [None] when it is missing. *)
Definition getLogs (since : option (option Z)) (limit : option Z) (levels : option (list string))
    (lg : Logger) : list Entry :=
  let logs := buffer lg in
  let logs := match since with
              | Some sinceDate =>
                  List.filter (fun l => match sinceDate with
                                        | Some t => t <? ts l
                                        | None => false
                                        end) logs
              | None => logs
              end in
  let logs := match levels with
              | Some ((_ :: _) as wanted) => List.filter (fun l => JsString.inList (level l) wanted) logs
              | _ => logs
              end in
  sliceLast limit logs.

(** [getRunLogs(runId)] *)
Definition getRunLogs (runId : string) (lg : Logger) : list Entry :=
  List.filter (fun l => bool_decide (run_id l = Some runId)) (buffer lg).

(** A run of the history. *)
Record Run : Type := mkRun {
  id : string;
  start : Z;
  finish : Z;
  success : bool;
  logs : list Entry
}.

(** One turn of the loop of [getHistory]: entries without a run id are
    passed over; the run of the entry is created when its id is met first,
    and then updated in place. *)
Definition historyStep (runs : list (string * Run)) (entry : Entry) : list (string * Run) :=
  match run_id entry with
  | None => runs
  | Some runId =>
      if String.eqb runId EmptyString then runs
      else
        let run := default (mkRun runId (ts entry) (ts entry) true []) (Sync.mapGet runId runs) in
        let success1 := if String.eqb (level entry) "ERROR" then false else success run in
        let success2 := if String.eqb (level entry) "SUCCESS" then true else success1 in
        Topology.objSet runId
          (mkRun (id run) (start run) (ts entry) success2 (logs run ++ [entry])%list) runs
  end.

(** [getHistory()]: the runs, the one met last first. *)
Definition getHistory (lg : Logger) : list Run :=
  rev (map snd (fold_left historyStep (buffer lg) [])).

(** [cleanup()]: the entries not newer than the cutoff are dropped from the
    buffer, then the clean-up is logged.  [now] is the reading of the clock
    for the cutoff, [now'] the one for the log entry. *)
Definition cleanup (sendOk : nat -> bool) (now now' : Z) (lg : Logger) : Logger :=
  let cutoff := now - CLEANUP_HOURS * 60 * 60 * 1000 in
  log sendOk now' "INFO" "Cleaned up logs older than 12 hours"
      (mkLogger (List.filter (fun l => cutoff <? ts l) (buffer lg)) (wsClients lg)
                (currentRunId lg)).

End Log.

(** A sequence of calls of [log], each with the clients' answers, the time,
    the level and the message. *)
Definition logAll (calls : list ((nat -> bool) * Z * string * string)) (lg : Log.Logger)
    : Log.Logger :=
  fold_left (fun lg '(sendOk, now, level, msg) => Log.log sendOk now level msg lg) calls lg.

(** The verdict on a run, read off its own entries: the last entry of level
    [ERROR] or [SUCCESS] decides, and a run without one counts as a
    success. *)
Definition verdict (entries : list Log.Entry) : bool :=
  fold_left (fun ok entry => if String.eqb (Log.level entry) "SUCCESS" then true
                             else if String.eqb (Log.level entry) "ERROR" then false
                             else ok)
            entries true.

(** What a run of the history is, with respect to the entries [seen]. *)
Definition historyRun (seen : list Log.Entry) (runId : string) (run : Log.Run) : Prop :=
  Log.id run = runId /\ runId <> EmptyString /\
  Log.logs run = List.filter (fun l => bool_decide (Log.run_id l = Some runId)) seen /\
  Log.start run = default 0 (Log.ts <$> head (Log.logs run)) /\
  Log.finish run = default 0 (Log.ts <$> last (Log.logs run)) /\
  Log.logs run <> [] /\
  Log.success run = verdict (Log.logs run).

(** ** The scheduler ([Scheduler]), the caller of [runOnce]

    [runSync] is asynchronous: it runs up to the call of [runOnce], waits,
    and runs on when the cycle has returned.  Between the two anything else
    may happen: a timer fires, a cycle is triggered by hand, the scheduler
    is restarted.  The two halves are modelled as two transitions of a
    world that also holds the timers that are armed. *)

Module Scheduler.

Inductive SyncState : Type := IDLE | RUNNING | ERROR.

(** The two callbacks handed to [setTimeout]: the next cycle, and the
    return from [ERROR] to [IDLE]. *)
Inductive callback : Type := CallRunSync | ResetError.

Record World : Type := mkWorld {
  syncState : SyncState;
  currentRunId : option string;
  lastResult : option (bool * string);
  timer : option nat;
  nextRunTime : option Z;
  pending : list (nat * callback);
  armed : nat;
  awaiting : list (string * bool)
}.

(** [setTimeout(callback, delay)]: a new handle, the number of timers armed
    before. *)
Definition setTimeout (cb : callback) (w : World) : nat * World :=
  (armed w,
   mkWorld (syncState w) (currentRunId w) (lastResult w) (timer w) (nextRunTime w)
           (pending w ++ [(armed w, cb)])%list (S (armed w)) (awaiting w)).

Definition clearTimeout (handle : nat) (w : World) : World :=
  mkWorld (syncState w) (currentRunId w) (lastResult w) (timer w) (nextRunTime w)
          (List.filter (fun t => negb (Nat.eqb (fst t) handle)) (pending w)) (armed w) (awaiting w).

Definition setState (s : SyncState) (w : World) : World :=
  mkWorld s (currentRunId w) (lastResult w) (timer w) (nextRunTime w) (pending w) (armed w)
          (awaiting w).

(** [scheduleNextRun(delayMs)], at the time [now]. *)
Definition scheduleNextRun (now delayMs : Z) (w : World) : World :=
  let '(handle, w1) := setTimeout CallRunSync w in
  mkWorld (syncState w1) (currentRunId w1) (lastResult w1) (Some handle) (Some (now + delayMs))
          (pending w1) (armed w1) (awaiting w1).

(** [start()]; [loopInterval] is the interval of the configuration, in
    seconds. *)
Definition start (loopInterval now : Z) (w : World) : World :=
  scheduleNextRun now (loopInterval * 1000) w.

(** [stop()] *)
Definition stop (w : World) : World :=
  let w1 := match timer w with
            | Some handle =>
                let w' := clearTimeout handle w in
                mkWorld (syncState w') (currentRunId w') (lastResult w') None (nextRunTime w')
                        (pending w') (armed w') (awaiting w')
            | None => w
            end in
  mkWorld (syncState w1) (currentRunId w1) (lastResult w1) (timer w1) None (pending w1) (armed w1)
          (awaiting w1).

Definition restart (loopInterval now : Z) (w : World) : World :=
  start loopInterval now (stop w).

(** [runSync(manual)] up to the call of [runOnce]: refused, with nothing
    changed, when a cycle is running. *)
Definition runSyncBegin (manual : bool) (runId : string) (w : World) : bool * World :=
  match syncState w with
  | RUNNING => (false, w)
  | _ =>
      (true,
       mkWorld RUNNING (Some runId) (lastResult w) (timer w) (nextRunTime w) (pending w) (armed w)
               (awaiting w ++ [(runId, manual)])%list)
  end.

(** The entry to [ERROR]: the state, and the timer that leaves it after 5
    seconds. *)
Definition enterError (w : World) : World :=
  snd (setTimeout ResetError (setState ERROR w)).

(** [runSync] from the return of [runOnce] on: [result] is what the cycle
    returned, its [success], or what was thrown. *)
Definition runSyncEnd (loopInterval now : Z) (runId : string) (manual : bool)
    (result : outcome Error bool) (w : World) : World :=
  let w1 :=
    match result with
    | Returned success =>
        let w2 := mkWorld (syncState w) (currentRunId w) (Some (success, runId)) (timer w)
                          (nextRunTime w) (pending w) (armed w) (awaiting w) in
        let w3 := if success then setState IDLE w2 else enterError w2 in
        if negb manual || negb (bool_decide (is_Some (timer w3)))
        then scheduleNextRun now (loopInterval * 1000) w3 else w3
    | Thrown _ =>
        let w2 := mkWorld (syncState w) (currentRunId w) (Some (false, runId)) (timer w)
                          (nextRunTime w) (pending w) (armed w) (awaiting w) in
        scheduleNextRun now (loopInterval * 1000) (enterError w2)
    end in
  mkWorld (syncState w1) None (lastResult w1) (timer w1) (nextRunTime w1) (pending w1) (armed w1)
          (List.filter (fun a => negb (String.eqb (fst a) runId)) (awaiting w1)).

(** What can happen to the world. *)
Inductive event : Type :=
| Start (now : Z)
| Stop
| Trigger (runId : string)
| Fire (handle : nat) (runId : string)
| Finish (runId : string) (result : outcome Error bool) (now : Z).

(** A timer that fires is no longer armed; its callback runs. *)
Definition fire (handle : nat) (runId : string) (w : World) : World :=
  match List.find (fun t => Nat.eqb (fst t) handle) (pending w) with
  | None => w
  | Some (_, cb) =>
      let w1 := clearTimeout handle w in
      match cb with
      | CallRunSync => snd (runSyncBegin false runId w1)
      | ResetError => match syncState w1 with ERROR => setState IDLE w1 | _ => w1 end
      end
  end.

Definition step (loopInterval : Z) (w : World) (ev : event) : World :=
  match ev with
  | Start now => start loopInterval now w
  | Stop => stop w
  | Trigger runId => snd (runSyncBegin true runId w)
  | Fire handle runId => fire handle runId w
  | Finish runId result now =>
      match List.find (fun a => String.eqb (fst a) runId) (awaiting w) with
      | Some (_, manual) => runSyncEnd loopInterval now runId manual result w
      | None => w
      end
  end.

Definition initial : World := mkWorld IDLE None None None None [] 0 [].

(** [getTimeUntilNextRun()] *)
Definition getTimeUntilNextRun (now : Z) (w : World) : option Z :=
  match nextRunTime w with
  | Some t => if t =? 0 then None else Some (Z.max 0 (t - now))
  | None => None
  end.

End Scheduler.

(** The timers armed for the next cycle. *)
Definition cycleTimers (w : Scheduler.World) : list nat :=
  map fst (List.filter (fun t => match snd t with
                                 | Scheduler.CallRunSync => true
                                 | Scheduler.ResetError => false
                                 end) (Scheduler.pending w)).

(** At most one call of [runSync] waits for its cycle; the state is
    [RUNNING] and the run id is set exactly while one does. *)
Definition oneCycle (w : Scheduler.World) : Prop :=
  match Scheduler.awaiting w with
  | [] => Scheduler.syncState w <> Scheduler.RUNNING /\ Scheduler.currentRunId w = None
  | [(runId, _)] =>
      Scheduler.syncState w = Scheduler.RUNNING /\ Scheduler.currentRunId w = Some runId
  | _ => False
  end.

(** ** [Config.toJSON]: the configuration as the API shows it *)

Module ConfigFile.
Import Json.

(** The placeholder shown in the place of a token: twelve bullets, written
    here in their UTF-8 encoding.  The function only ever writes it. *)
Definition MASK : string := "••••••••••••".

(** [obj[k] = v] on the members of a decoded object (each key occurs once):
    the member is replaced where it is, or added at the end. *)
Definition assignField (k : string) (v : json) (fields : list (string * json))
    : list (string * json) :=
  if existsb (fun kv => String.eqb (fst kv) k) fields
  then map (fun kv => if String.eqb (fst kv) k then (fst kv, v) else kv) fields
  else (fields ++ [(k, v)])%list.

(** [delete obj[k]] *)
Definition deleteField (k : string) (fields : list (string * json)) : list (string * json) :=
  List.filter (fun kv => negb (String.eqb (fst kv) k)) fields.

(** The object [j] with its member [k] changed by [change]; any other value
    is left as it is. *)
Definition inMember (k : string) (change : json -> json) (j : json) : json :=
  match j with
  | JObj fields => JObj (map (fun kv => if String.eqb (fst kv) k then (fst kv, change (snd kv))
                                        else kv) fields)
  | _ => j
  end.

Definition onFields (change : list (string * json) -> list (string * json)) (j : json) : json :=
  match j with
  | JObj fields => JObj (change fields)
  | _ => j
  end.

(** [if (config.apis?.<service>?.auth_token) config.apis.<service>.auth_token = MASK] *)
Definition maskToken (service : string) (config : json) : outcome Error json :=
  apis ← getProp (Some config) "apis";
  client ← optProp apis service;
  token ← optProp client "auth_token";
  if truthy token
  then Returned (inMember "apis" (inMember service (onFields (assignField "auth_token" (JStr MASK))))
                          config)
  else Returned config.

(** [if (config.auth?.<key>) delete config.auth.<key>] *)
Definition dropSecret (key : string) (config : json) : outcome Error json :=
  auth ← getProp (Some config) "auth";
  secret ← optProp auth key;
  if truthy secret
  then Returned (inMember "auth" (onFields (deleteField key)) config)
  else Returned config.

(** [toJSON(maskSensitive)]; the copy made through [JSON.stringify] and
    [JSON.parse] is the value itself. *)
Definition toJSON (config : json) (maskSensitive : bool) : outcome Error json :=
  if maskSensitive then
    config ← maskToken "pangolin" config;
    config ← maskToken "hetzner" config;
    config ← dropSecret "password_hash" config;
    dropSecret "password" config
  else Returned config.

End ConfigFile.

(** The member found by following [keys] from [v], as optional chaining
    reads it. *)
Fixpoint path (v : Json.value) (keys : list string) : Json.value :=
  match keys with
  | [] => v
  | k :: rest =>
      match v with
      | Some (Json.JObj fields) => path (Json.field k fields) rest
      | _ => None
      end
  end.

(** * Proofs *)

(** ** Subnet containment *)

Lemma ipToNumberLoop_bad parts :
  forallb Topology.octetOk parts = false ->
  forall num, Topology.ipToNumberLoop parts num = None.
Proof.
  induction parts as [|part rest IH]; simpl; intros Hbad num; [discriminate|].
  unfold Topology.octetOk in Hbad at 1.
  destruct (JsString.parseInt part) as [val|]; [|reflexivity].
  destruct (val <? 0) eqn:Hlo; simpl; [reflexivity|].
  destruct (255 <? val) eqn:Hhi; simpl; [reflexivity|].
  apply IH.
  apply Z.ltb_ge in Hlo, Hhi.
  destruct (0 <=? val) eqn:H0; [|lia].
  destruct (val <=? 255) eqn:H1; [|lia].
  exact Hbad.
Qed.

Lemma ipToNumber_malformed ip :
  readableQuad ip = false -> Topology.ipToNumber ip = None.
Proof.
  unfold readableQuad, Topology.ipToNumber.
  destruct (Nat.eqb (List.length (JsString.split "." ip)) 4); simpl; [|reflexivity].
  intros Hbad. rewrite (ipToNumberLoop_bad _ Hbad). reflexivity.
Qed.

Lemma toInt32_small z : - 2 ^ 31 <= z < 2 ^ 31 -> JsInt.toInt32 z = z.
Proof. intros H. unfold JsInt.toInt32. rewrite Z.mod_small; lia. Qed.

Lemma toInt32_mod z : JsInt.toInt32 z mod 2 ^ 32 = z mod 2 ^ 32.
Proof.
  unfold JsInt.toInt32.
  rewrite Zminus_mod_idemp_l. f_equal. lia.
Qed.

Lemma shl8_small z : 0 <= z < 2 ^ 23 -> JsInt.shl z 8 = z * 256.
Proof.
  intros H. unfold JsInt.shl.
  replace (JsInt.toUint32 8 mod 32) with 8 by reflexivity.
  rewrite (toInt32_small z) by lia. apply toInt32_small. lia.
Qed.

Lemma ipToNumber_octets ip a b c d :
  octetsOf ip = Some (a, b, c, d) ->
  Topology.ipToNumber ip = Some (a * 2 ^ 24 + b * 2 ^ 16 + c * 2 ^ 8 + d) /\
  0 <= a <= 255 /\ 0 <= b <= 255 /\ 0 <= c <= 255 /\ 0 <= d <= 255.
Proof.
  unfold octetsOf, Topology.ipToNumber.
  destruct (JsString.split "." ip) as [|p0 [|p1 [|p2 [|p3 [|p4 rest]]]]]; try discriminate.
  destruct (JsString.parseInt p0) as [a'|] eqn:H0; [|discriminate].
  destruct (JsString.parseInt p1) as [b'|] eqn:H1; [|discriminate].
  destruct (JsString.parseInt p2) as [c'|] eqn:H2; [|discriminate].
  destruct (JsString.parseInt p3) as [d'|] eqn:H3; [|discriminate].
  destruct (forallb _ _) eqn:Hrange; [|discriminate].
  intros [= -> -> -> ->]. simpl in Hrange.
  rewrite !andb_true_iff in Hrange.
  destruct Hrange as ([Ha0 Ha1] & [Hb0 Hb1] & [Hc0 Hc1] & [Hd0 Hd1] & _).
  apply Z.leb_le in Ha0, Ha1, Hb0, Hb1, Hc0, Hc1, Hd0, Hd1.
  split; [|lia].
  cbn [List.length Nat.eqb negb Topology.ipToNumberLoop]. rewrite H0, H1, H2, H3.
  repeat match goal with
         | |- context [?x <? ?y] => destruct (Z.ltb_spec x y); [lia|]
         end.
  cbn [orb fmap option_fmap option_map].
  change (JsInt.shl 0 8) with 0. rewrite (shl8_small (0 + a)) by lia.
  rewrite (shl8_small ((0 + a) * 256 + b)) by lia.
  unfold JsInt.ushr0, JsInt.toUint32, JsInt.shl.
  replace (JsInt.toUint32 8 mod 32) with 8 by reflexivity.
  rewrite (toInt32_small (((0 + a) * 256 + b) * 256 + c)) by lia.
  rewrite Zplus_mod, toInt32_mod, <- Zplus_mod.
  f_equal. rewrite Z.mod_small; lia.
Qed.

Lemma land_mask24 x :
  0 <= x < 2 ^ 32 -> Z.land x 4294967040 = 256 * (x / 256).
Proof.
  intros Hx.
  replace 4294967040 with (Z.ldiff (Z.ones 32) (Z.ones 8)) by reflexivity.
  assert (Hl : Z.land x (Z.ldiff (Z.ones 32) (Z.ones 8)) =
               Z.ldiff (Z.land x (Z.ones 32)) (Z.ones 8)).
  { apply Z.bits_inj'. intros n Hn.
    rewrite Z.land_spec, !Z.ldiff_spec, Z.land_spec. apply andb_assoc. }
  rewrite Hl, Z.land_ones by lia. rewrite Z.mod_small by lia.
  rewrite Z.ldiff_ones_r by lia.
  rewrite Z.shiftl_mul_pow2, Z.shiftr_div_pow2 by lia. change (2 ^ 8) with 256. lia.
Qed.

Lemma and_mask24 x y :
  0 <= x < 2 ^ 32 -> 0 <= y < 2 ^ 32 ->
  (JsInt.and x 4294967040 =? JsInt.and y 4294967040) = (x / 256 =? y / 256).
Proof.
  intros Hx Hy. unfold JsInt.and, JsInt.toUint32.
  change (4294967040 mod 2 ^ 32) with 4294967040.
  rewrite !Z.mod_small by lia. rewrite !land_mask24 by lia.
  assert (Hqx : 0 <= x / 256 < 2 ^ 24) by (split; [apply Z.div_pos | apply Z.div_lt_upper_bound]; lia).
  assert (Hqy : 0 <= y / 256 < 2 ^ 24) by (split; [apply Z.div_pos | apply Z.div_lt_upper_bound]; lia).
  destruct (Z.eqb_spec (x / 256) (y / 256)) as [->|Hne]; [apply Z.eqb_refl|].
  apply Z.eqb_neq. intros Heq. apply Hne.
  apply (f_equal (fun z => z mod 2 ^ 32)) in Heq.
  rewrite !toInt32_mod in Heq. rewrite !Z.mod_small in Heq by lia. lia.
Qed.

Lemma ipInSubnet_slash24 ip subnet subnetIp prefixStr a b c d a' b' c' d' :
  octetsOf ip = Some (a, b, c, d) ->
  JsString.split "/" subnet = [subnetIp; prefixStr] ->
  JsString.parseInt prefixStr = Some 24 ->
  octetsOf subnetIp = Some (a', b', c', d') ->
  Topology.ipInSubnet ip subnet = (a =? a') && (b =? b') && (c =? c').
Proof.
  intros Hip Hsplit Hprefix Hsub.
  apply ipToNumber_octets in Hip as (Hip & Ha & Hb & Hc & Hd).
  apply ipToNumber_octets in Hsub as (Hsub & Ha' & Hb' & Hc' & Hd').
  unfold Topology.ipInSubnet. rewrite Hsplit. cbn [hd]. rewrite Hprefix, Hip, Hsub.
  change (Some 24 ≫= JsInt.nearest) with (Some 24).
  change (default 0 (Some 24 ≫= fun p => JsInt.nearest (32 - p))) with 8.
  change (JsInt.ushr0 (JsInt.not (JsInt.shl 1 8 - 1))) with 4294967040.
  rewrite and_mask24 by lia.
  replace ((a * 2 ^ 24 + b * 2 ^ 16 + c * 2 ^ 8 + d) / 256) with (a * 65536 + b * 256 + c)
    by (apply Z.div_unique with (r := d); lia).
  replace ((a' * 2 ^ 24 + b' * 2 ^ 16 + c' * 2 ^ 8 + d') / 256) with (a' * 65536 + b' * 256 + c')
    by (apply Z.div_unique with (r := d'); lia).
  destruct (Z.eqb_spec a a') as [->|Hna]; destruct (Z.eqb_spec b b') as [->|Hnb];
    destruct (Z.eqb_spec c c') as [->|Hnc]; simpl;
    try apply Z.eqb_refl; apply Z.eqb_neq; lia.
Qed.

Lemma validDottedQuad_readable ip : validDottedQuad ip = true -> readableQuad ip = true.
Proof.
  unfold validDottedQuad, readableQuad. intros H.
  apply andb_true_iff in H as [Hlen Hall]. rewrite Hlen. cbn [andb].
  apply forallb_forall. intros part Hin.
  apply (proj1 (forallb_forall _ _) Hall) in Hin. apply andb_true_iff in Hin as [_ Hok].
  exact Hok.
Qed.

(** C7.  The claim fails on the code: [10.0.4.17abc] and [ 10.0.4.17] are
    not valid dotted quads, and [ipInSubnet] answers that 10.0.4.0/24 contains
    them, because [parseInt] reads [17abc] as 17 and skips the blank.  What
    the code does: for the subnet 10.0.4.0/24 the address 10.0.4.17 is
    contained and 10.0.5.1 is not; an address is contained in a /24 block
    exactly when its first three octets, as [parseInt] reads them, are those
    of the block; an address with a part count other than four, or with a
    part that [parseInt] does not read as a number in 0..255, is contained in
    no subnet; and every valid dotted quad is read as what it says. *)
Theorem ipInSubnet_contains_malformed_address :
  (validDottedQuad "10.0.4.17abc" = false /\
   Topology.ipInSubnet "10.0.4.17abc" "10.0.4.0/24" = true) /\
  (validDottedQuad " 10.0.4.17" = false /\
   Topology.ipInSubnet " 10.0.4.17" "10.0.4.0/24" = true) /\
  Topology.ipInSubnet "10.0.4.17" "10.0.4.0/24" = true /\
  Topology.ipInSubnet "10.0.5.1" "10.0.4.0/24" = false /\
  (forall ip subnet subnetIp prefixStr a b c d a' b' c' d',
     octetsOf ip = Some (a, b, c, d) ->
     JsString.split "/" subnet = [subnetIp; prefixStr] ->
     JsString.parseInt prefixStr = Some 24 ->
     octetsOf subnetIp = Some (a', b', c', d') ->
     Topology.ipInSubnet ip subnet = (a =? a') && (b =? b') && (c =? c')) /\
  (forall ip subnet, readableQuad ip = false -> Topology.ipInSubnet ip subnet = false) /\
  (forall ip, validDottedQuad ip = true -> readableQuad ip = true).
Proof.
  split; [split; vm_compute; reflexivity|].
  split; [split; vm_compute; reflexivity|].
  split; [vm_compute; reflexivity|].
  split; [vm_compute; reflexivity|].
  split; [apply ipInSubnet_slash24|].
  split; [|apply validDottedQuad_readable].
  intros ip subnet Hbad. unfold Topology.ipInSubnet.
  rewrite (ipToNumber_malformed _ Hbad). reflexivity.
Qed.

(** ** Protocol and port detection *)

Lemma scan_first_open isOpen ports :
  match List.find isOpen ports with
  | Some port =>
      exists before after,
        ports = (before ++ port :: after)%list /\
        forallb (fun p => negb (isOpen p)) before = true /\
        isOpen port = true /\
        Gatus.scan isOpen ports =
          (Gatus.mkDetection (default "tcp" (Gatus.PORT_PROTOCOLS port)) (Proto.Plain port),
           (before ++ [port])%list)
  | None => Gatus.scan isOpen ports = (Gatus.mkDetection "icmp" (Proto.Plain 0), ports)
  end.
Proof.
  induction ports as [|p rest IH]; simpl; [reflexivity|].
  destruct (isOpen p) eqn:Hp.
  - exists [], rest. simpl. auto.
  - destruct (List.find isOpen rest) as [port|].
    + destruct IH as (before & after & -> & Hclosed & Hopen & ->).
      exists (p :: before), after. simpl. rewrite Hp. simpl. auto.
    + rewrite IH. reflexivity.
Qed.

Lemma check_order_known port :
  In port Gatus.CHECK_ORDER -> exists proto, Gatus.PORT_PROTOCOLS port = Some proto.
Proof.
  unfold Gatus.CHECK_ORDER. simpl.
  intros H; repeat (destruct H as [<-|H]; [eexists; reflexivity|]); destruct H.
Qed.

Lemma inList_In (x : string) (l : list string) : JsString.inList x l = true <-> In x l.
Proof.
  unfold JsString.inList. rewrite existsb_exists. split.
  - intros (y & Hy & Heq). apply String.eqb_eq in Heq. subst y. exact Hy.
  - intros H. exists x. split; [exact H|apply String.eqb_refl].
Qed.

(** Reading a key of a plain object: the own value, else the inherited
    member, else nothing. *)
Lemma get_own {V : Type} (own : gmap string V) (k : string) (v : V) :
  own !! k = Some v -> Proto.get own k = Some (Proto.Plain v).
Proof. intros H. unfold Proto.get. rewrite H. reflexivity. Qed.

Lemma get_inherited {V : Type} (own : gmap string V) (k : string) :
  own !! k = None -> In k Proto.members -> Proto.get own k = Some (Proto.Inherited k).
Proof.
  intros H Hin. unfold Proto.get. rewrite H.
  rewrite (proj2 (inList_In k Proto.members) Hin). reflexivity.
Qed.

Lemma get_undefined {V : Type} (own : gmap string V) (k : string) :
  own !! k = None -> ~ In k Proto.members -> Proto.get own k = None.
Proof.
  intros H Hin. unfold Proto.get. rewrite H.
  destruct (JsString.inList k Proto.members) eqn:Hm; [|reflexivity].
  apply inList_In in Hm. contradiction.
Qed.

(** C5.  The claim fails on the code.  The overrides are a plain object,
    and the test for an override is [this.portOverrides[subdomain] !==
    undefined]: for a subdomain named like a member of [Object.prototype]
    ([constructor], [toString], ...) that has no override, the inherited
    member is taken for one, nothing is probed and the answer is [tcp] with
    that member as the port.  For every other subdomain without an override
    it is as the claim says: the ports 8443, 8006, 8080, 21, 443, 80, 587,
    465, 993, 123, 53 are probed in that order up to the first that accepts a
    connection, whose port and table protocol are returned; when none
    accepts, all of them were probed and the answer is icmp with port 0; in
    particular, 8443 wins over 443. *)
Theorem detect_inherited_member_skips_probes
    (overrides : gmap string Z) (checkPort : string -> Z -> bool) (target : string) :
  Gatus.detectProtocolAndPort ∅ checkPort target "constructor" =
    (Gatus.mkDetection "tcp" (Proto.Inherited "constructor"), []) /\
  (forall subdomain,
     overrides !! subdomain = None -> In subdomain Proto.members ->
     Gatus.detectProtocolAndPort overrides checkPort target subdomain =
       (Gatus.mkDetection "tcp" (Proto.Inherited subdomain), [])) /\
  (forall subdomain,
     subdomain = EmptyString \/
     (overrides !! subdomain = None /\ ~ In subdomain Proto.members) ->
     Gatus.CHECK_ORDER = [8443; 8006; 8080; 21; 443; 80; 587; 465; 993; 123; 53] /\
     match List.find (checkPort target) Gatus.CHECK_ORDER with
     | Some port =>
         exists before after proto,
           Gatus.CHECK_ORDER = (before ++ port :: after)%list /\
           forallb (fun p => negb (checkPort target p)) before = true /\
           checkPort target port = true /\
           Gatus.PORT_PROTOCOLS port = Some proto /\
           Gatus.detectProtocolAndPort overrides checkPort target subdomain =
             (Gatus.mkDetection proto (Proto.Plain port), (before ++ [port])%list)
     | None =>
         Gatus.detectProtocolAndPort overrides checkPort target subdomain =
           (Gatus.mkDetection "icmp" (Proto.Plain 0), Gatus.CHECK_ORDER)
     end /\
     (checkPort target 8443 = true -> checkPort target 443 = true ->
      fst (Gatus.detectProtocolAndPort overrides checkPort target subdomain) =
        Gatus.mkDetection "https" (Proto.Plain 8443))).
Proof.
  split; [reflexivity|]. split.
  - intros subdomain Hnone Hin. unfold Gatus.detectProtocolAndPort.
    destruct (String.eqb_spec subdomain EmptyString) as [->|Hname].
    + exfalso. revert Hin. unfold Proto.members. simpl.
      intros H; repeat (destruct H as [H|H]; [discriminate H|]); destruct H.
    + cbn [negb]. rewrite (get_inherited _ _ Hnone Hin). reflexivity.
  - intros subdomain Hno.
    assert (Hscan : Gatus.detectProtocolAndPort overrides checkPort target subdomain =
                    Gatus.scan (checkPort target) Gatus.CHECK_ORDER).
    { unfold Gatus.detectProtocolAndPort.
      destruct Hno as [-> | [Hnone Hout]]; [reflexivity|].
      rewrite (get_undefined _ _ Hnone Hout). destruct (negb _); reflexivity. }
    split; [reflexivity|]. split.
    + pose proof (scan_first_open (checkPort target) Gatus.CHECK_ORDER) as Hfirst.
      destruct (List.find (checkPort target) Gatus.CHECK_ORDER) as [port|] eqn:Hfind.
      * destruct Hfirst as (before & after & Hsplit & Hclosed & Hopen & Hres).
        destruct (check_order_known port) as [proto Hproto].
        { rewrite Hsplit. apply in_or_app. right. left. reflexivity. }
        exists before, after, proto. rewrite Hscan, Hres, Hproto. auto.
      * rewrite Hscan. exact Hfirst.
    + intros H8443 _. rewrite Hscan. simpl. rewrite H8443. reflexivity.
Qed.

(** C6.  With a port override configured for the (named) subdomain, the
    answer is that port with its protocol from the table, [tcp] for a port
    the table does not know, and nothing is probed; an override of 80 gives
    http on port 80 whatever the ports of the target answer. *)
Theorem detect_override_first
    (overrides : gmap string Z) (checkPort : string -> Z -> bool)
    (target subdomain : string) (port : Z) :
  subdomain <> EmptyString ->
  overrides !! subdomain = Some port ->
  Gatus.detectProtocolAndPort overrides checkPort target subdomain =
    (Gatus.mkDetection (default "tcp" (Gatus.PORT_PROTOCOLS port)) (Proto.Plain port), []) /\
  (port = 80 ->
   Gatus.detectProtocolAndPort overrides checkPort target subdomain =
     (Gatus.mkDetection "http" (Proto.Plain 80), [])).
Proof.
  intros Hname Hover.
  assert (Hres : Gatus.detectProtocolAndPort overrides checkPort target subdomain =
                 (Gatus.mkDetection (default "tcp" (Gatus.PORT_PROTOCOLS port))
                                    (Proto.Plain port), [])).
  { unfold Gatus.detectProtocolAndPort.
    destruct (String.eqb subdomain EmptyString) eqn:Hempty.
    - apply String.eqb_eq in Hempty. contradiction.
    - simpl. rewrite (get_own _ _ _ Hover). reflexivity. }
  split; [exact Hres|]. intros ->. exact Hres.
Qed.

Lemma detect_override_first_witness :
  Gatus.detectProtocolAndPort {["app" := 80]} (fun _ _ => true) "10.0.4.17" "app" =
    (Gatus.mkDetection "http" (Proto.Plain 80), []).
Proof.
  apply (detect_override_first {["app" := 80]} (fun _ _ => true) "10.0.4.17" "app" 80);
    [discriminate | apply lookup_singleton_eq | reflexivity].
Defined.

(** ** The TXT query and the empty mapping *)

Lemma getHostSubnetMapping_caught (e : Error) :
  getHostSubnetMapping (Thrown (Some e)) = Returned [].
Proof. reflexivity. Qed.

Lemma retrying_shape (once : nat -> outcome Error string) :
  exists k : nat,
    (1 <= k <= 3)%nat /\
    snd (Dns.Retrying.queryTXT once) =
      schedule Dns.Retrying.TIMEOUT_MS Dns.Retrying.RETRY_DELAY_MS 1 k /\
    (forall i, (1 <= i < k)%nat -> exists err, once i = Thrown err) /\
    ((k < 3)%nat -> exists txt, once k = Returned txt) /\
    fst (Dns.Retrying.queryTXT once) = rethrown (once k).
Proof.
  unfold Dns.Retrying.queryTXT, Dns.Retrying.MAX_RETRIES. simpl.
  destruct (once 1%nat) as [t1|e1] eqn:H1.
  { exists 1%nat. rewrite H1. simpl.
    split; [lia|]. split; [reflexivity|]. split; [intros i Hi; lia|].
    split; [eauto | reflexivity]. }
  destruct (once 2%nat) as [t2|e2] eqn:H2.
  { exists 2%nat. rewrite H2. simpl.
    split; [lia|]. split; [reflexivity|]. split; [|split; [eauto | reflexivity]].
    intros i Hi. assert (i = 1%nat) as -> by lia. eauto. }
  assert (Hfail : forall i, (1 <= i < 3)%nat -> exists err, once i = Thrown err).
  { intros i Hi. assert (i = 1 \/ i = 2)%nat as [-> | ->] by lia; eauto. }
  exists 3%nat.
  destruct (once 3%nat) as [t3|e3] eqn:H3; simpl;
    (split; [lia|]; split; [reflexivity|]; split; [exact Hfail|];
     split; [intros Hlt; lia | reflexivity]).
Qed.

(** C9.  The TXT query makes at most three single attempts, each with its
    own timeout, with the fixed pause between two attempts and none after the
    last; it stops at the first attempt that answers and otherwise fails with
    the error of the last attempt.  Whenever the query fails,
    [getHostSubnetMapping] returns the empty mapping and does not throw.
    (The version of the query without retries makes the first attempt
    only.) *)
Theorem queryTXT_retries_then_empty_mapping
    (v : Dns.version) (once : nat -> outcome Error string) :
  (Dns.maxAttempts v <= 3)%nat /\
  Dns.maxAttempts Dns.WithRetries = 3%nat /\
  (exists k : nat,
     (1 <= k <= Dns.maxAttempts v)%nat /\
     snd (Dns.queryTXT v once) = schedule (Dns.timeoutOf v) Dns.Retrying.RETRY_DELAY_MS 1 k /\
     attempts (snd (Dns.queryTXT v once)) = k /\
     (forall i, (1 <= i < k)%nat -> exists err, once i = Thrown err) /\
     ((k < Dns.maxAttempts v)%nat -> exists txt, once k = Returned txt) /\
     fst (Dns.queryTXT v once) = rethrown (once k)) /\
  ((forall i, (1 <= i <= Dns.maxAttempts v)%nat -> exists err, once i = Thrown err) ->
   attempts (snd (Dns.queryTXT v once)) = Dns.maxAttempts v /\
   exists err, once (Dns.maxAttempts v) = Thrown err /\
               fst (Dns.queryTXT v once) = Thrown (Some err)) /\
  (forall e, fst (Dns.queryTXT v once) = Thrown e ->
             getHostSubnetMapping (fst (Dns.queryTXT v once)) = Returned []).
Proof.
  assert (Hshape : exists k : nat,
     (1 <= k <= Dns.maxAttempts v)%nat /\
     snd (Dns.queryTXT v once) = schedule (Dns.timeoutOf v) Dns.Retrying.RETRY_DELAY_MS 1 k /\
     attempts (snd (Dns.queryTXT v once)) = k /\
     (forall i, (1 <= i < k)%nat -> exists err, once i = Thrown err) /\
     ((k < Dns.maxAttempts v)%nat -> exists txt, once k = Returned txt) /\
     fst (Dns.queryTXT v once) = rethrown (once k)).
  { destruct v; simpl.
    - destruct (retrying_shape once) as (k & Hk & Hevs & Hfail & Hstop & Hres).
      exists k. rewrite Hevs.
      split; [exact Hk|]. split; [reflexivity|].
      split; [|split; [assumption | split; assumption]].
      assert (k = 1 \/ k = 2 \/ k = 3)%nat as [-> | [-> | ->]] by lia; reflexivity.
    - exists 1%nat. unfold Dns.SingleShot.queryTXT. simpl.
      split; [lia|]. split; [reflexivity|]. split; [reflexivity|].
      split; [intros i Hi; lia|]. split; [intros Hlt; lia | reflexivity]. }
  assert (Hmax : (Dns.maxAttempts v <= 3)%nat) by (destruct v; cbv; lia).
  split; [exact Hmax|]. split; [reflexivity|]. split; [exact Hshape|].
  destruct Hshape as (k & Hk & Hevs & Hcount & Hfail & Hstop & Hres).
  split.
  - intros Hall.
    assert (k = Dns.maxAttempts v) as Hlast.
    { destruct (Nat.eq_dec k (Dns.maxAttempts v)) as [|Hne]; [assumption|].
      exfalso. destruct Hstop as [txt Htxt]; [lia|].
      destruct (Hall k) as [err Herr]; [lia|]. congruence. }
    rewrite <- Hlast. split; [exact Hcount|].
    destruct (Hall k) as [err Herr]; [lia|].
    exists err. rewrite Hres, Herr. auto.
  - intros e He. rewrite He.
    destruct e as [err|]; [reflexivity|].
    exfalso. rewrite Hres in He. destruct (once k); discriminate.
Qed.

Lemma queryTXT_retries_then_empty_mapping_witness :
  getHostSubnetMapping
    (fst (Dns.queryTXT Dns.WithRetries (fun _ => Thrown (mkError "DNS query timeout")))) =
  Returned [].
Proof.
  apply (queryTXT_retries_then_empty_mapping Dns.WithRetries
           (fun _ => Thrown (mkError "DNS query timeout")))
    with (e := Some (mkError "DNS query timeout")).
  reflexivity.
Defined.

(** ** Response shapes of the resource directory *)

Ltac shape_cases :=
  simpl;
  repeat (match goal with
          | |- context [Json.field ?k ?f] =>
              destruct (Json.field k f) as [[| [] | ? | ? | ? | ?]|]
          | |- context [negb ?c] => destruct c
          end; simpl).

(** Showing the number of the selected entries, then returning them. *)
Lemma counted_selection (selected : Json.json) :
  match (count ← Json.lengthOf (Some selected);
         _ ← Json.interpolate count;
         Returned (Json.defined (Some selected))) : outcome Error Json.json with
  | Returned r => r
  | Thrown _ => Json.JArr []
  end = if Pangolin.countable selected then selected else Json.JArr [].
Proof.
  destruct selected as [| b | n | s | items | fields]; try reflexivity.
  simpl. destruct (Json.field "length" fields) as [count|]; [|reflexivity].
  simpl. destruct (Json.convertible count); reflexivity.
Qed.

Lemma listResources_policy (data : Json.json) :
  Pangolin.listResources (Returned data) =
    if Pangolin.countable (Pangolin.shapePolicy "resources" data)
    then Pangolin.shapePolicy "resources" data else Json.JArr [].
Proof.
  destruct data as [| b | n | s | items | fields]; try reflexivity.
  unfold Pangolin.listResources, Pangolin.shapePolicy.
  Local Opaque Json.lengthOf Json.interpolate Pangolin.countable.
  shape_cases; first [apply counted_selection | reflexivity].
  Local Transparent Json.lengthOf Json.interpolate Pangolin.countable.
Qed.

Lemma getResourceTargets_policy (data : Json.json) :
  Pangolin.getResourceTargets (Returned data) = Pangolin.shapePolicy "targets" data.
Proof.
  destruct data as [| b | n | s | items | fields]; try reflexivity.
  unfold Pangolin.getResourceTargets, Pangolin.shapePolicy. shape_cases; reflexivity.
Qed.

Lemma each_ok {A : Type} (body : A -> outcome Error unit) (l : list A) :
  (forall x, In x l -> body x = Returned tt) -> Json.each body l = Returned tt.
Proof.
  induction l as [|x rest IH]; simpl; intros H; [reflexivity|].
  rewrite H by auto. simpl. apply IH. auto.
Qed.

Lemma interpolate_convertible (j : Json.json) :
  Json.interpolate (Some j) =
    if Json.convertible j then Returned tt
    else Thrown (mkError "Cannot convert object to primitive value").
Proof. reflexivity. Qed.

(** Logging an organisation fails exactly on those that are not
    [entryLoggable]. *)
Lemma logEntry_loggable (x : Json.json) :
  match Pangolin.logEntry (Some x) with
  | Returned _ => Pangolin.entryLoggable x = true
  | Thrown _ => Pangolin.entryLoggable x = false
  end.
Proof.
  destruct x as [| b | n | s | items | fields]; try reflexivity.
  unfold Pangolin.logEntry, Pangolin.entryLoggable, Pangolin.orValue.
  cbn [Json.getProp mbind outcome_bind bindO].
  destruct (Json.truthy (Json.field "orgId" fields)) eqn:HorgId.
  - destruct (Json.field "orgId" fields) as [orgId|]; [|discriminate].
    cbn [mbind outcome_bind bindO Json.defined default from_option id].
    rewrite interpolate_convertible. destruct (Json.convertible orgId); [|reflexivity].
    cbn [mbind outcome_bind bindO andb].
    destruct (Json.truthy (Json.field "name" fields)) eqn:Hname.
    + destruct (Json.field "name" fields) as [name|]; [|discriminate].
      rewrite interpolate_convertible. cbn [Json.defined default from_option id].
      destruct (Json.convertible name); reflexivity.
    + reflexivity.
  - cbn [mbind outcome_bind bindO].
    destruct (Json.truthy (Json.field "id" fields)) eqn:Hid.
    + destruct (Json.field "id" fields) as [ident|]; [|discriminate].
      cbn [mbind outcome_bind bindO Json.defined default from_option id].
      rewrite interpolate_convertible. destruct (Json.convertible ident); [|reflexivity].
      cbn [mbind outcome_bind bindO andb].
      destruct (Json.truthy (Json.field "name" fields)) eqn:Hname.
      * destruct (Json.field "name" fields) as [name|]; [|discriminate].
        rewrite interpolate_convertible. cbn [Json.defined default from_option id].
        destruct (Json.convertible name); reflexivity.
      * reflexivity.
    + cbn [mbind outcome_bind bindO Json.defined default from_option id Json.interpolate
           Json.convertible andb].
      destruct (Json.truthy (Json.field "name" fields)) eqn:Hname.
      * destruct (Json.field "name" fields) as [name|]; [|discriminate].
        simpl. destruct (Json.convertible name); reflexivity.
      * reflexivity.
Qed.

(** The loop that logs the organisations fails exactly on the selections
    that are not [loggable]. *)
Lemma forOf_loggable (orgs : Json.json) :
  match Json.forOf (Some orgs) Pangolin.logEntry with
  | Returned _ => Pangolin.loggable orgs = true
  | Thrown _ => Pangolin.loggable orgs = false
  end.
Proof.
  destruct orgs as [| b | n | s | items | fields]; simpl; try reflexivity.
  - rewrite each_ok; [reflexivity|].
    intros x Hx. unfold Json.chars in Hx. apply in_map_iff in Hx as (c & <- & _).
    reflexivity.
  - induction items as [|x rest IH]; [reflexivity|].
    cbn [Json.each forallb mbind outcome_bind bindO].
    pose proof (logEntry_loggable x) as Hx.
    destruct (Pangolin.logEntry (Some x)) as [[]|e]; rewrite Hx; [exact IH|reflexivity].
Qed.

Lemma listOrgs_policy (data : Json.json) :
  Pangolin.listOrgs (Returned data) =
    if Pangolin.loggable (Pangolin.shapePolicy "orgs" data)
    then Pangolin.shapePolicy "orgs" data else Json.JArr [].
Proof.
  assert (Hsel : forall orgs : Json.json,
            match (count ← Json.lengthOf (Some orgs);
                   _ ← Json.interpolate count;
                   _ ← Json.forOf (Some orgs) Pangolin.logEntry;
                   Returned (Json.defined (Some orgs))) : outcome Error Json.json with
            | Returned r => r
            | Thrown _ => Json.JArr []
            end = if Pangolin.loggable orgs then orgs else Json.JArr []).
  { intros orgs. pose proof (forOf_loggable orgs) as H.
    destruct orgs as [| b | n | s | items | fields]; try reflexivity.
    - cbn [Json.lengthOf Json.interpolate Json.convertible mbind outcome_bind bindO].
      destruct (Json.forOf (Some (Json.JStr s)) Pangolin.logEntry); rewrite H; reflexivity.
    - cbn [Json.lengthOf Json.interpolate Json.convertible mbind outcome_bind bindO].
      destruct (Json.forOf (Some (Json.JArr items)) Pangolin.logEntry); rewrite H;
        reflexivity.
    - cbn [Json.lengthOf mbind outcome_bind bindO].
      destruct (Json.interpolate (Json.field "length" fields)); reflexivity. }
  destruct data as [| b | n | s | items | fields]; try reflexivity.
  - apply (Hsel (Json.JArr items)).
  - unfold Pangolin.listOrgs, Pangolin.shapePolicy.
    Local Opaque Json.forOf Pangolin.loggable Json.lengthOf Json.interpolate.
    shape_cases; apply Hsel.
    Local Transparent Json.forOf Pangolin.loggable Json.lengthOf Json.interpolate.
Qed.

(** C8.  The claim fails on the code.  On the answer [[null]] the policy
    selects the array, which [listResources] and [getResourceTargets] return,
    and [listOrgs] returns the empty list: the loop that logs each
    organisation is inside the [try] and fails on [null].  The line that
    shows the number of entries is inside the [try] too, in [listOrgs] and
    in [listResources]: a selected object whose [length] cannot be converted
    to a string gives the empty list.  Apart from what their logging does,
    the three operations follow the policy: [getResourceTargets] returns the
    selection for every JSON value, [listResources] when its length can be
    shown, [listOrgs] when each of its entries can be logged; a failed
    request gives the empty list in all three. *)
Theorem list_operations_policy_unless_logging_fails :
  (Pangolin.shapePolicy "orgs" (Json.JArr [Json.JNull]) = Json.JArr [Json.JNull] /\
   Pangolin.listOrgs (Returned (Json.JArr [Json.JNull])) = Json.JArr [] /\
   Pangolin.listResources (Returned (Json.JArr [Json.JNull])) = Json.JArr [Json.JNull] /\
   Pangolin.getResourceTargets (Returned (Json.JArr [Json.JNull])) = Json.JArr [Json.JNull]) /\
  (let unshowable := Json.JObj [("length", Json.JObj [("toString", Json.JNum 1)])] in
   Pangolin.shapePolicy "resources" (Json.JObj [("resources", unshowable)]) = unshowable /\
   Pangolin.listResources (Returned (Json.JObj [("resources", unshowable)])) = Json.JArr []) /\
  (forall data : Json.json,
     Pangolin.getResourceTargets (Returned data) = Pangolin.shapePolicy "targets" data /\
     Pangolin.listResources (Returned data) =
       (if Pangolin.countable (Pangolin.shapePolicy "resources" data)
        then Pangolin.shapePolicy "resources" data else Json.JArr []) /\
     Pangolin.listOrgs (Returned data) =
       (if Pangolin.loggable (Pangolin.shapePolicy "orgs" data)
        then Pangolin.shapePolicy "orgs" data else Json.JArr [])) /\
  (forall failure : Error,
     Pangolin.listResources (Thrown failure) = Json.JArr [] /\
     Pangolin.getResourceTargets (Thrown failure) = Json.JArr [] /\
     Pangolin.listOrgs (Thrown failure) = Json.JArr []).
Proof.
  split; [repeat split|]. split; [split; reflexivity|].
  split.
  - intros data. split; [apply getResourceTargets_policy|].
    split; [apply listResources_policy|apply listOrgs_policy].
  - intros failure. repeat split.
Qed.

(** ** The boundary of the cycle *)

Lemma stepThrows_unique (steps : Sync.Steps) (st : Sync.Store) (e e' : Error) :
  stepThrows steps st e -> stepThrows steps st e' -> e = e'.
Proof. intros H H'. destruct H; destruct H'; congruence. Qed.

Lemma runOnceWith_cases (steps : Sync.Steps) (st : Sync.Store) :
  (exists result final,
     Sync.runOnceWith steps st = (Returned result, final) /\
     Sync.success result = true /\
     Sync.summary result = Sync.report final /\
     Sync.errors (Sync.summary result) = [] /\
     forall e, ~ stepThrows steps st e) \/
  (exists e result final,
     stepThrows steps st e /\
     Sync.runOnceWith steps st = (Returned result, final) /\
     Sync.success result = false /\
     Sync.summary result = Sync.report final /\
     Sync.errors (Sync.summary result) = [message e]).
Proof.
  unfold Sync.runOnceWith, Sync.tryCatchM, Sync.cycleBody.
  unfold mbind, Sync.M_bind, Sync.run. simpl.
  destruct (Sync.stepPairs steps st) as [[[[pairs mapping]|e1] st1] es1] eqn:H1; simpl.
  2:{ right. exists e1. do 2 eexists. split; [eapply ThrowsPairs; eauto|].
      split; [reflexivity|]. simpl. auto. }
  fold (withGenerator mapping st1).
  destruct (Sync.stepSync steps pairs (withGenerator mapping st1))
    as [[[records|e2] st2] es2] eqn:H2; simpl.
  2:{ right. exists e2. do 2 eexists. split; [eapply ThrowsSync; eauto|].
      split; [reflexivity|]. simpl. auto. }
  destruct (Sync.stepGenerate steps pairs records st2) as [[[config|e3] st3] es3] eqn:H3; simpl.
  2:{ right. exists e3. do 2 eexists. split; [eapply ThrowsGenerate; eauto|].
      split; [reflexivity|]. simpl. auto. }
  destruct (Sync.stepWrite steps config st3) as [[[wrote|e4] st4] es4] eqn:H4; simpl.
  2:{ right. exists e4. do 2 eexists. split; [eapply ThrowsWrite; eauto|].
      split; [reflexivity|]. simpl. auto. }
  left. do 2 eexists. split; [reflexivity|]. simpl.
  split; [reflexivity|]. split; [reflexivity|]. split; [reflexivity|].
  intros e Hthrows. destruct Hthrows; congruence.
Qed.

(** C2.  Whatever its steps do, [runOnce] returns an object
    [{success, summary}] and throws nothing; when a step throws, the message
    of the error is the entry of [summary.errors] and [success] is [false];
    and [success] is [true] only when no step threw. *)
Theorem runOnce_never_propagates (steps : Sync.Steps) (st : Sync.Store) :
  (exists result final,
     Sync.runOnceWith steps st = (Returned result, final) /\
     Sync.summary result = Sync.report final /\
     (Sync.success result = true -> forall e, ~ stepThrows steps st e)) /\
  (forall e, stepThrows steps st e ->
     exists result final,
       Sync.runOnceWith steps st = (Returned result, final) /\
       Sync.success result = false /\
       Sync.errors (Sync.summary result) = [message e]) /\
  (forall dns cfg env, exists result final,
     Sync.runOnce dns cfg env st = (Returned result, final)).
Proof.
  split; [|split].
  - destruct (runOnceWith_cases steps st)
      as [(result & final & Hrun & Hok & Hsum & _ & Hnone)
         |(e & result & final & _ & Hrun & Hko & Hsum & _)].
    + exists result, final. auto.
    + exists result, final. split; [exact Hrun|]. split; [exact Hsum|].
      intros Hok. congruence.
  - intros e He.
    destruct (runOnceWith_cases steps st)
      as [(result & final & _ & _ & _ & _ & Hnone)
         |(e' & result & final & He' & Hrun & Hko & _ & Herr)].
    + destruct (Hnone e He).
    + exists result, final. rewrite (stepThrows_unique steps st e e' He He'). auto.
  - intros dns cfg env. unfold Sync.runOnce.
    destruct (runOnceWith_cases (Sync.steps dns cfg env) st)
      as [(result & final & Hrun & _)|(e & result & final & _ & Hrun & _)];
      exists result, final; exact Hrun.
Qed.

Lemma runOnce_never_propagates_witness :
  exists result final,
    Sync.runOnceWith
      (Sync.mkSteps (fun st => (Thrown (mkError "fetch failed"), st, []))
                    (fun _ st => (Returned [], st, []))
                    (fun _ _ st => (Returned [], st, []))
                    (fun _ st => (Returned false, st, [])))
      (Sync.mkStore [] None (Gatus.mkGenerator [] [] [])) = (Returned result, final) /\
    Sync.success result = false /\
    Sync.errors (Sync.summary result) = ["fetch failed"].
Proof.
  apply (runOnce_never_propagates
           (Sync.mkSteps (fun st => (Thrown (mkError "fetch failed"), st, []))
                         (fun _ st => (Returned [], st, []))
                         (fun _ _ st => (Returned [], st, []))
                         (fun _ st => (Returned false, st, [])))
           (Sync.mkStore [] None (Gatus.mkGenerator [] [] []))
           ) with (e := mkError "fetch failed").
  eapply ThrowsPairs. reflexivity.
Defined.

(** ** The zone reconciler *)

Lemma issue_log env c st :
  map fst (snd (Sync.issue env c st)) = (map fst (snd st) ++ [c])%list.
Proof.
  unfold Sync.issue. destruct (Hetzner.perform _ c (fst st)) as [ok zone'].
  simpl. rewrite map_app. reflexivity.
Qed.

Lemma deleteStep_log cfg env zoneId expected st entry :
  map fst (snd (Sync.deleteStep cfg env zoneId expected st entry)) =
  (map fst (snd st) ++ option_list (plannedDelete cfg zoneId expected entry))%list.
Proof.
  destruct entry as [name [value id]]. unfold Sync.deleteStep, plannedDelete. simpl.
  destruct (Sync.mapHas name expected); simpl; [rewrite app_nil_r; reflexivity|].
  destruct (JsString.inList name (keepSubdomains cfg)); simpl;
    [rewrite app_nil_r; reflexivity | apply issue_log].
Qed.

Lemma upsertStep_log env zoneId current st entry :
  map fst (snd (Sync.upsertStep env zoneId current st entry)) =
  (map fst (snd st) ++ option_list (plannedUpsert zoneId current entry))%list.
Proof.
  destruct entry as [name target]. unfold Sync.upsertStep, plannedUpsert. simpl.
  destruct (Sync.mapGet name current) as [[value id]|]; [|apply issue_log].
  destruct (negb (String.eqb value (JsString.stripDot target))); simpl;
    [apply issue_log | rewrite app_nil_r; reflexivity].
Qed.

Lemma fold_log {A S : Type} (step : S -> A -> S) (log : S -> list Hetzner.call)
    (plan : A -> option Hetzner.call) :
  (forall st a, log (step st a) = (log st ++ option_list (plan a))%list) ->
  forall l st, log (fold_left step l st) = (log st ++ omap plan l)%list.
Proof.
  intros Hstep l. induction l as [|a rest IH]; intros st; simpl.
  - rewrite app_nil_r. reflexivity.
  - rewrite IH, Hstep, <- app_assoc. f_equal.
    destruct (plan a); reflexivity.
Qed.

Lemma callsOf_planned cfg env pairs zone0 :
  callsOf cfg env pairs zone0 =
  match Hetzner.getZoneId (hetznerZoneId cfg) (Sync.zoneIdByName env) with
  | None => []
  | Some zoneId =>
      if String.eqb zoneId EmptyString then []
      else plannedCalls cfg zoneId
             (Sync.currentOf (Hetzner.listRecords (Sync.zoneListable env) zoneId zone0))
             (Sync.expectedOf cfg pairs)
  end.
Proof.
  unfold callsOf, Sync.syncHetznerDns, plannedCalls.
  destruct (Hetzner.getZoneId _ _) as [zoneId|]; [|reflexivity].
  destruct (String.eqb zoneId EmptyString); [reflexivity|].
  cbn [snd].
  rewrite (fold_log _ (fun st => map fst (snd st)) _ (upsertStep_log env zoneId _)).
  rewrite (fold_log _ (fun st => map fst (snd st)) _ (deleteStep_log cfg env zoneId _)).
  reflexivity.
Qed.

(** ** Insertion-ordered maps *)

Lemma mapGet_objSet {V : Type} (n k : string) (v : V) (m : list (string * V)) :
  Sync.mapGet n (Topology.objSet k v m) = if String.eqb k n then Some v else Sync.mapGet n m.
Proof.
  unfold Sync.mapGet. induction m as [|[k' v'] rest IH]; simpl.
  - destruct (String.eqb k n); reflexivity.
  - destruct (String.eqb k' k) eqn:Hk; simpl.
    + apply String.eqb_eq in Hk. subst k'.
      destruct (String.eqb k n); reflexivity.
    + destruct (String.eqb k' n) eqn:Hn; simpl; [|exact IH].
      apply String.eqb_eq in Hn. subst k'.
      rewrite String.eqb_sym, Hk. reflexivity.
Qed.

Lemma mapHas_mapGet {V : Type} (n : string) (m : list (string * V)) :
  Sync.mapHas n m = match Sync.mapGet n m with Some _ => true | None => false end.
Proof.
  unfold Sync.mapHas, Sync.mapGet. induction m as [|[k v] rest IH]; simpl; [reflexivity|].
  destruct (String.eqb k n); simpl; [reflexivity | exact IH].
Qed.

Lemma mapGet_In {V : Type} (n : string) (v : V) (m : list (string * V)) :
  Sync.mapGet n m = Some v -> In (n, v) m.
Proof.
  unfold Sync.mapGet. intros H.
  destruct (List.find _ m) as [[k v']|] eqn:Hfind; [|discriminate].
  apply find_some in Hfind as [Hin Hk]. simpl in *.
  apply String.eqb_eq in Hk. injection H as <-. subst k. exact Hin.
Qed.

Lemma In_mapHas {V : Type} (n : string) (v : V) (m : list (string * V)) :
  In (n, v) m -> Sync.mapHas n m = true.
Proof.
  intros H. unfold Sync.mapHas. apply existsb_exists. exists (n, v).
  split; [exact H | apply String.eqb_refl].
Qed.

Lemma In_objSet {V : Type} (x : string * V) (k : string) (v : V) (m : list (string * V)) :
  In x (Topology.objSet k v m) -> x = (k, v) \/ In x m.
Proof.
  induction m as [|[k' v'] rest IH]; simpl.
  - intros [<-|[]]. auto.
  - destruct (String.eqb k' k); simpl; intros [<-|H]; auto.
    destruct (IH H); auto.
Qed.

(** ** The map of the current records *)

Lemma currentStep_pick (acc : list (string * (string * string))) (record : Hetzner.ZoneRecord)
    (n : string) :
  Sync.mapGet n (Sync.currentStep acc record) =
  match pick n record with Some x => Some x | None => Sync.mapGet n acc end.
Proof.
  unfold Sync.currentStep, pick.
  destruct (String.eqb (Hetzner.rec_type record) "CNAME"); simpl; [|reflexivity].
  destruct (Sync.isManaged _); simpl.
  - rewrite mapGet_objSet, andb_true_r.
    destruct (String.eqb (Hetzner.rec_name record) n); reflexivity.
  - rewrite andb_false_r. reflexivity.
Qed.

Lemma current_lastFor (records : list Hetzner.ZoneRecord) (n : string) :
  forall acc,
    Sync.mapGet n (fold_left Sync.currentStep records acc) =
    match lastFor n records with Some x => Some x | None => Sync.mapGet n acc end.
Proof.
  induction records as [|record rest IH]; intros acc; simpl; [reflexivity|].
  rewrite IH, currentStep_pick.
  destruct (lastFor n rest); [reflexivity|].
  destruct (pick n record); reflexivity.
Qed.

Lemma currentOf_lastFor records n :
  Sync.mapGet n (Sync.currentOf records) = lastFor n records.
Proof.
  unfold Sync.currentOf. rewrite current_lastFor.
  destruct (lastFor n records); reflexivity.
Qed.

Lemma lastFor_Some n records x :
  lastFor n records = Some x -> exists record, In record records /\ pick n record = Some x.
Proof.
  induction records as [|record rest IH]; simpl; [discriminate|].
  destruct (lastFor n rest) as [y|].
  - intros [= <-]. destruct (IH eq_refl) as (r & Hr & Hp). eauto.
  - intros Hp. eauto.
Qed.

Lemma lastFor_pick n records record x :
  In record records -> pick n record = Some x -> lastFor n records <> None.
Proof.
  induction records as [|r rest IH]; simpl; [intros []|].
  intros [->|Hin] Hp.
  - destruct (lastFor n rest); [discriminate | congruence].
  - destruct (lastFor n rest) eqn:Hl; [discriminate|].
    exfalso. exact (IH Hin Hp eq_refl).
Qed.

Lemma pick_Some n record value id :
  pick n record = Some (value, id) ->
  Hetzner.rec_type record = "CNAME" /\ Hetzner.rec_name record = n /\
  Sync.isManaged (JsString.stripDot (Hetzner.rec_value record)) = true /\
  value = JsString.stripDot (Hetzner.rec_value record) /\ id = Hetzner.rec_id record.
Proof.
  unfold pick.
  destruct (String.eqb (Hetzner.rec_type record) "CNAME") eqn:Ht; simpl; [|discriminate].
  destruct (String.eqb (Hetzner.rec_name record) n) eqn:Hn; simpl; [|discriminate].
  destruct (Sync.isManaged _) eqn:Hm; [|discriminate].
  intros [= <- <-]. apply String.eqb_eq in Ht, Hn. auto.
Qed.

Lemma current_entries records :
  forall acc entry,
    In entry (fold_left Sync.currentStep records acc) ->
    In entry acc \/ exists record, In record records /\ pick (fst entry) record = Some (snd entry).
Proof.
  induction records as [|record rest IH]; intros acc entry; simpl; [auto|].
  intros H. destruct (IH _ _ H) as [Hacc|(r & Hr & Hp)]; [|eauto].
  unfold Sync.currentStep in Hacc.
  destruct (String.eqb (Hetzner.rec_type record) "CNAME") eqn:Ht; simpl in Hacc; [|auto].
  destruct (Sync.isManaged _) eqn:Hm; [|auto].
  apply In_objSet in Hacc as [->|Hacc]; [|auto].
  right. exists record. split; [auto|]. unfold pick. simpl.
  rewrite Ht, Hm, String.eqb_refl. reflexivity.
Qed.

Lemma listRecords_id listable zoneId zone record :
  In record (Hetzner.listRecords listable zoneId zone) ->
  Hetzner.rec_id record = Hetzner.rec_name record ++ ":" ++ Hetzner.rec_type record.
Proof.
  unfold Hetzner.listRecords. destruct listable; [|intros []].
  intros H. apply in_flat_map in H as (rr & _ & H).
  unfold Hetzner.flatten in H. apply in_map_iff in H as (value & <- & _). reflexivity.
Qed.

Lemma append_cons (x : ascii) (a b : string) : String x a ++ b = String x (a ++ b).
Proof. reflexivity. Qed.

Lemma length_append (a b : string) :
  String.length (a ++ b) = (String.length a + String.length b)%nat.
Proof.
  induction a as [|x a IH]; [reflexivity|].
  rewrite append_cons. simpl. rewrite IH. reflexivity.
Qed.

Lemma append_inj_l (a b c : string) : a ++ c = b ++ c -> a = b.
Proof.
  revert b. induction a as [|x a IH]; intros b H.
  - destruct b as [|y b]; [reflexivity|].
    exfalso. apply (f_equal String.length) in H.
    rewrite !length_append in H. simpl in H. lia.
  - destruct b as [|y b].
    + exfalso. apply (f_equal String.length) in H.
      rewrite !length_append in H. simpl in H. lia.
    + rewrite !append_cons in H. injection H as <- H. f_equal. apply IH. exact H.
Qed.

(** ** The calls of the reconciler *)

Lemma planned_deletes_only cfg zoneId expected current c :
  In c (omap (plannedDelete cfg zoneId expected) current) -> isDelete c = true.
Proof.
  intros H. apply list_elem_of_In, list_elem_of_omap in H as (entry & _ & H).
  unfold plannedDelete in H. destruct (_ && _); [|discriminate].
  injection H as <-. reflexivity.
Qed.

Lemma planned_upserts_only zoneId current expected c :
  In c (omap (plannedUpsert zoneId current) expected) -> isDelete c = false.
Proof.
  intros H. apply list_elem_of_In, list_elem_of_omap in H as (entry & _ & H).
  unfold plannedUpsert in H.
  destruct (Sync.mapGet _ _) as [[value id]|].
  - destruct (negb _); [|discriminate]. injection H as <-. reflexivity.
  - injection H as <-. reflexivity.
Qed.

Lemma callsOf_deletes_first cfg env pairs zone0 :
  exists deletes upserts,
    callsOf cfg env pairs zone0 = (deletes ++ upserts)%list /\
    forallb isDelete deletes = true /\
    forallb (fun c => negb (isDelete c)) upserts = true.
Proof.
  rewrite callsOf_planned.
  destruct (Hetzner.getZoneId _ _) as [zoneId|]; [|exists [], []; auto].
  destruct (String.eqb zoneId EmptyString); [exists [], []; auto|].
  unfold plannedCalls. do 2 eexists. split; [reflexivity|]. split.
  - apply forallb_forall. intros c Hc. eapply planned_deletes_only; eauto.
  - apply forallb_forall. intros c Hc. erewrite planned_upserts_only; eauto.
Qed.

(** C3.  With the current managed records [{a: on.x, b: on.y}] and desired
    pairs that give the expected map [{a: on.x, c: on.z}] (and [b] not
    retained), the reconciler makes exactly two calls: the delete of [b],
    then the create of [c]; nothing is done for [a], whose value is the same
    once the trailing dot is stripped.  In every reconciliation the deletes
    come before the creates and updates. *)
Theorem diff_partition_example
    (cfg : Config) (env : Sync.Env) (pairs : list Sync.Pair) (zone0 : list Hetzner.RRSet)
    (zoneId idA idB : string) :
  Hetzner.getZoneId (hetznerZoneId cfg) (Sync.zoneIdByName env) = Some zoneId ->
  zoneId <> EmptyString ->
  Sync.currentOf (Hetzner.listRecords (Sync.zoneListable env) zoneId zone0) =
    [("a", ("on.x", idA)); ("b", ("on.y", idB))] ->
  Sync.expectedOf cfg pairs = [("a", "on.x"); ("c", "on.z")] ->
  JsString.inList "b" (keepSubdomains cfg) = false ->
  callsOf cfg env pairs zone0 =
    [Hetzner.DeleteRecord idB zoneId; Hetzner.CreateRecord zoneId "c" "CNAME" "on.z" 3600] /\
  exists deletes upserts,
    callsOf cfg env pairs zone0 = (deletes ++ upserts)%list /\
    forallb isDelete deletes = true /\
    forallb (fun c => negb (isDelete c)) upserts = true.
Proof.
  intros Hzone Hid Hcurrent Hexpected Hkeep.
  split; [|apply callsOf_deletes_first].
  rewrite callsOf_planned, Hzone.
  apply String.eqb_neq in Hid. rewrite Hid, Hcurrent, Hexpected.
  unfold plannedCalls, plannedDelete, plannedUpsert. simpl. rewrite Hkeep. reflexivity.
Qed.

Lemma diff_partition_example_witness :
  callsOf exampleConfig exampleEnv [examplePair "a" "on.x"; examplePair "c" "on.z"]
          [Hetzner.mkRRSet "a" "CNAME" 3600 ["on.x."]; Hetzner.mkRRSet "b" "CNAME" 3600 ["on.y."]] =
  [Hetzner.DeleteRecord "b:CNAME" "zone1"; Hetzner.CreateRecord "zone1" "c" "CNAME" "on.z" 3600].
Proof.
  apply (diff_partition_example exampleConfig exampleEnv
           [examplePair "a" "on.x"; examplePair "c" "on.z"]
           [Hetzner.mkRRSet "a" "CNAME" 3600 ["on.x."]; Hetzner.mkRRSet "b" "CNAME" 3600 ["on.y."]]
           "zone1" "a:CNAME" "b:CNAME");
    [reflexivity | discriminate | reflexivity | reflexivity | reflexivity].
Defined.

Lemma delete_planned cfg zoneId expected current recordId zoneId' :
  In (Hetzner.DeleteRecord recordId zoneId')
     (plannedCalls cfg zoneId current expected) ->
  zoneId' = zoneId /\
  exists name value,
    In (name, (value, recordId)) current /\
    Sync.mapHas name expected = false /\
    JsString.inList name (keepSubdomains cfg) = false.
Proof.
  unfold plannedCalls. intros H. apply in_app_or in H as [H|H].
  - apply list_elem_of_In, list_elem_of_omap in H as ([name [value id]] & Hin & H).
    unfold plannedDelete in H. simpl in H.
    destruct (Sync.mapHas name expected) eqn:Hexp; simpl in H; [discriminate|].
    destruct (JsString.inList name (keepSubdomains cfg)) eqn:Hkeep; simpl in H; [discriminate|].
    injection H as <- <-. split; [reflexivity|].
    exists name, value. apply list_elem_of_In in Hin. auto.
  - apply planned_upserts_only in H. discriminate.
Qed.

(** C4.  A delete call is only ever made for the id of a zone record that is
    a CNAME, whose value without its trailing dot starts with [on.] or
    contains [.on.], and whose name is neither in the expected map nor in the
    retention list; when no other record of the listing has its id, a record
    for whose id a delete call is made is itself such a record.  In
    particular no delete call is made for a CNAME record whose name is
    retained. *)
Theorem deletes_only_unretained_managed
    (cfg : Config) (env : Sync.Env) (pairs : list Sync.Pair) (zone0 : list Hetzner.RRSet) :
  (forall recordId zoneId,
     In (Hetzner.DeleteRecord recordId zoneId) (callsOf cfg env pairs zone0) ->
     exists record,
       In record (Hetzner.listRecords (Sync.zoneListable env) zoneId zone0) /\
       Hetzner.rec_id record = recordId /\
       Hetzner.rec_type record = "CNAME" /\
       (JsString.startsWith "on." (JsString.stripDot (Hetzner.rec_value record)) = true \/
        JsString.includes ".on." (JsString.stripDot (Hetzner.rec_value record)) = true) /\
       Sync.mapHas (Hetzner.rec_name record) (Sync.expectedOf cfg pairs) = false /\
       JsString.inList (Hetzner.rec_name record) (keepSubdomains cfg) = false) /\
  (forall record zoneId,
     In record (Hetzner.listRecords (Sync.zoneListable env) zoneId zone0) ->
     (forall other, In other (Hetzner.listRecords (Sync.zoneListable env) zoneId zone0) ->
                    Hetzner.rec_id other = Hetzner.rec_id record -> other = record) ->
     In (Hetzner.DeleteRecord (Hetzner.rec_id record) zoneId) (callsOf cfg env pairs zone0) ->
     Hetzner.rec_type record = "CNAME" /\
     (JsString.startsWith "on." (JsString.stripDot (Hetzner.rec_value record)) = true \/
      JsString.includes ".on." (JsString.stripDot (Hetzner.rec_value record)) = true) /\
     Sync.mapHas (Hetzner.rec_name record) (Sync.expectedOf cfg pairs) = false /\
     JsString.inList (Hetzner.rec_name record) (keepSubdomains cfg) = false) /\
  (forall record zoneId zoneId',
     In record (Hetzner.listRecords (Sync.zoneListable env) zoneId zone0) ->
     Hetzner.rec_type record = "CNAME" ->
     JsString.inList (Hetzner.rec_name record) (keepSubdomains cfg) = true ->
     ~ In (Hetzner.DeleteRecord (Hetzner.rec_id record) zoneId') (callsOf cfg env pairs zone0)).
Proof.
  assert (Hfirst : forall recordId zoneId,
     In (Hetzner.DeleteRecord recordId zoneId) (callsOf cfg env pairs zone0) ->
     exists record,
       In record (Hetzner.listRecords (Sync.zoneListable env) zoneId zone0) /\
       Hetzner.rec_id record = recordId /\
       Hetzner.rec_type record = "CNAME" /\
       (JsString.startsWith "on." (JsString.stripDot (Hetzner.rec_value record)) = true \/
        JsString.includes ".on." (JsString.stripDot (Hetzner.rec_value record)) = true) /\
       Sync.mapHas (Hetzner.rec_name record) (Sync.expectedOf cfg pairs) = false /\
       JsString.inList (Hetzner.rec_name record) (keepSubdomains cfg) = false).
  { intros recordId zoneId' H. rewrite callsOf_planned in H.
    destruct (Hetzner.getZoneId _ _) as [zoneId|]; [|destruct H].
    destruct (String.eqb zoneId EmptyString); [destruct H|].
    apply delete_planned in H as (-> & name & value & Hin & Hexp & Hkeep).
    apply current_entries in Hin as [[]|(record & Hrec & Hpick)]. simpl in Hpick.
    apply pick_Some in Hpick as (Htype & Hname & Hman & _ & Hid).
    exists record. subst name. rewrite <- Hid.
    unfold Sync.isManaged in Hman. apply orb_true_iff in Hman. auto 10. }
  split; [exact Hfirst|]. split.
  - intros record zoneId Hin Hunique Hdel.
    destruct (Hfirst _ _ Hdel) as (record' & Hin' & Hid & Htype & Hman & Hexp & Hkeep).
    rewrite (Hunique record' Hin' Hid) in Htype, Hman, Hexp, Hkeep. auto.
  - intros record zoneId zoneId' Hin Htype Hkeep Hdel.
    destruct (Hfirst _ _ Hdel) as (record' & Hin' & Hid & Htype' & _ & _ & Hkeep').
    apply listRecords_id in Hin, Hin'. rewrite Hin, Hin', Htype, Htype' in Hid.
    apply append_inj_l in Hid. congruence.
Qed.

(** C10.  Whether a record is managed is read off its value alone: whatever
    the pairs (and so whatever topology they were built from), a CNAME record
    of the zone whose value without its trailing dot starts with [on.] or
    contains [.on.], whose name is not in the expected map and not retained,
    is deleted. *)
Theorem managed_absent_unretained_is_deleted
    (cfg : Config) (env : Sync.Env) (pairs : list Sync.Pair) (zone0 : list Hetzner.RRSet)
    (zoneId : string) (record : Hetzner.ZoneRecord) :
  Hetzner.getZoneId (hetznerZoneId cfg) (Sync.zoneIdByName env) = Some zoneId ->
  zoneId <> EmptyString ->
  In record (Hetzner.listRecords (Sync.zoneListable env) zoneId zone0) ->
  Hetzner.rec_type record = "CNAME" ->
  JsString.startsWith "on." (JsString.stripDot (Hetzner.rec_value record)) = true \/
  JsString.includes ".on." (JsString.stripDot (Hetzner.rec_value record)) = true ->
  Sync.mapHas (Hetzner.rec_name record) (Sync.expectedOf cfg pairs) = false ->
  JsString.inList (Hetzner.rec_name record) (keepSubdomains cfg) = false ->
  In (Hetzner.DeleteRecord (Hetzner.rec_id record) zoneId) (callsOf cfg env pairs zone0).
Proof.
  intros Hzone Hid Hin Htype Hman Hexp Hkeep.
  rewrite callsOf_planned, Hzone. apply String.eqb_neq in Hid. rewrite Hid.
  set (records := Hetzner.listRecords (Sync.zoneListable env) zoneId zone0) in *.
  assert (Hpick : pick (Hetzner.rec_name record) record =
                  Some (JsString.stripDot (Hetzner.rec_value record), Hetzner.rec_id record)).
  { unfold pick, Sync.isManaged. rewrite Htype, !String.eqb_refl.
    apply orb_true_iff in Hman. rewrite Hman. reflexivity. }
  destruct (lastFor (Hetzner.rec_name record) records) as [[value id]|] eqn:Hlast.
  2:{ exfalso. exact (lastFor_pick _ _ _ _ Hin Hpick Hlast). }
  pose proof Hlast as Hentry. rewrite <- currentOf_lastFor in Hentry.
  apply mapGet_In in Hentry.
  apply lastFor_Some in Hlast as (record' & Hin' & Hpick').
  apply pick_Some in Hpick' as (Htype' & Hname' & _ & _ & Hid').
  assert (id = Hetzner.rec_id record) as ->.
  { rewrite Hid'. rewrite (listRecords_id _ _ _ _ Hin), (listRecords_id _ _ _ _ Hin').
    rewrite Htype, Htype', Hname'. reflexivity. }
  unfold plannedCalls. apply in_or_app. left.
  apply list_elem_of_In, list_elem_of_omap.
  eexists. split; [apply list_elem_of_In; exact Hentry|].
  unfold plannedDelete. simpl. rewrite Hexp, Hkeep. reflexivity.
Qed.

Lemma deletes_only_unretained_managed_witness :
  (exists record,
     In record (Hetzner.listRecords true "zone1"
                  [Hetzner.mkRRSet "b" "CNAME" 3600 ["on.y.example.com."]]) /\
     Hetzner.rec_id record = "b:CNAME") /\
  Sync.mapHas "b" (Sync.expectedOf exampleConfig []) = false /\
  ~ In (Hetzner.DeleteRecord "d:CNAME" "zone1")
       (callsOf retainConfig exampleEnv []
                [Hetzner.mkRRSet "d" "CNAME" 3600 ["on.x.example.com."]]).
Proof.
  split; [|split].
  - destruct (proj1 (deletes_only_unretained_managed exampleConfig exampleEnv []
                       [Hetzner.mkRRSet "b" "CNAME" 3600 ["on.y.example.com."]])
                    "b:CNAME" "zone1") as (record & Hin & Hid & _).
    + left. reflexivity.
    + exists record. split; [exact Hin | exact Hid].
  - apply (proj1 (proj2 (deletes_only_unretained_managed exampleConfig exampleEnv []
                           [Hetzner.mkRRSet "b" "CNAME" 3600 ["on.y.example.com."]]))
                 (Hetzner.mkZoneRecord "b:CNAME" "b" "CNAME" "on.y.example.com." 3600 "zone1")
                 "zone1").
    + left. reflexivity.
    + intros other [<-|[]] _. reflexivity.
    + left. reflexivity.
  - apply (proj2 (proj2 (deletes_only_unretained_managed retainConfig exampleEnv []
                           [Hetzner.mkRRSet "d" "CNAME" 3600 ["on.x.example.com."]]))
                 (Hetzner.mkZoneRecord "d:CNAME" "d" "CNAME" "on.x.example.com." 3600 "zone1")
                 "zone1" "zone1");
      [left; reflexivity | reflexivity | reflexivity].
Defined.

Lemma managed_absent_unretained_is_deleted_witness :
  In (Hetzner.DeleteRecord "old:CNAME" "zone1")
     (callsOf exampleConfig exampleEnv [examplePair "app" "on.alpha.example.com"]
              [Hetzner.mkRRSet "old" "CNAME" 3600 ["on.ghost.example.com."]]).
Proof.
  apply (managed_absent_unretained_is_deleted exampleConfig exampleEnv
           [examplePair "app" "on.alpha.example.com"]
           [Hetzner.mkRRSet "old" "CNAME" 3600 ["on.ghost.example.com."]]
           "zone1"
           (Hetzner.mkZoneRecord "old:CNAME" "old" "CNAME" "on.ghost.example.com." 3600 "zone1"));
    [reflexivity | discriminate | left; reflexivity | reflexivity
    | left; reflexivity | reflexivity | reflexivity].
Defined.

(** ** Convergence of the zone *)

(** ** What the zone calls do to the current entries *)

Lemma lastFor_app n l1 l2 :
  lastFor n (l1 ++ l2)%list =
  match lastFor n l2 with Some x => Some x | None => lastFor n l1 end.
Proof.
  induction l1 as [|r l1 IH]; simpl.
  - destruct (lastFor n l2); reflexivity.
  - rewrite IH. destruct (lastFor n l2); reflexivity.
Qed.

Lemma lastFor_none n records :
  (forall record, In record records -> pick n record = None) -> lastFor n records = None.
Proof.
  induction records as [|r rest IH]; simpl; intros H; [reflexivity|].
  rewrite IH by auto. apply H. auto.
Qed.

Lemma pick_flatten zoneId rr n value :
  pick n (Hetzner.mkZoneRecord (Hetzner.rr_name rr ++ ":" ++ Hetzner.rr_type rr)
            (Hetzner.rr_name rr) (Hetzner.rr_type rr) value (Hetzner.rr_ttl rr) zoneId) =
  if Hetzner.sameSet n "CNAME" rr then entryOf n value else None.
Proof.
  unfold pick, Hetzner.sameSet, entryOf. simpl.
  destruct (String.eqb (Hetzner.rr_type rr) "CNAME") eqn:Ht;
    destruct (String.eqb (Hetzner.rr_name rr) n) eqn:Hn; simpl; try reflexivity.
  apply String.eqb_eq in Ht, Hn. rewrite Ht, Hn. reflexivity.
Qed.

Lemma lastFor_flatten_other zoneId rr n :
  Hetzner.sameSet n "CNAME" rr = false -> lastFor n (Hetzner.flatten zoneId rr) = None.
Proof.
  intros Hother. apply lastFor_none. intros record Hin.
  unfold Hetzner.flatten in Hin. apply in_map_iff in Hin as (value & <- & _).
  rewrite pick_flatten, Hother. reflexivity.
Qed.

Lemma sameSet_names n n' t rr :
  Hetzner.sameSet n t rr = true -> Hetzner.sameSet n' t rr = true -> n = n'.
Proof.
  unfold Hetzner.sameSet. intros H H'.
  apply andb_true_iff in H as [H _], H' as [H' _].
  apply String.eqb_eq in H, H'. congruence.
Qed.

Lemma sameSet_other n n' t rr :
  String.eqb n n' = false -> Hetzner.sameSet n' t rr = true -> Hetzner.sameSet n t rr = false.
Proof.
  intros Hne H'. destruct (Hetzner.sameSet n t rr) eqn:H; [|reflexivity].
  rewrite (sameSet_names _ _ _ _ H H'), String.eqb_refl in Hne. discriminate.
Qed.

Lemma lastFor_deleted zoneId n n' zone :
  lastFor n (listing zoneId (List.filter (fun rr => negb (Hetzner.sameSet n' "CNAME" rr)) zone)) =
  if String.eqb n n' then None else lastFor n (listing zoneId zone).
Proof.
  induction zone as [|rr rest IH]; simpl.
  - destruct (String.eqb n n'); reflexivity.
  - destruct (Hetzner.sameSet n' "CNAME" rr) eqn:Hrr; simpl.
    + rewrite IH, lastFor_app.
      destruct (String.eqb n n') eqn:Hn; [reflexivity|].
      rewrite (lastFor_flatten_other zoneId rr n (sameSet_other _ _ _ _ Hn Hrr)).
      destruct (lastFor n (listing zoneId rest)); reflexivity.
    + rewrite !lastFor_app, IH.
      destruct (String.eqb n n') eqn:Hn; [|reflexivity].
      apply String.eqb_eq in Hn. subst n'.
      apply lastFor_flatten_other. exact Hrr.
Qed.

Lemma lastFor_replaced zoneId n n' value zone :
  lastFor n (listing zoneId
               (map (fun rr => if Hetzner.sameSet n' "CNAME" rr
                               then Hetzner.mkRRSet (Hetzner.rr_name rr) (Hetzner.rr_type rr)
                                                    (Hetzner.rr_ttl rr) [value]
                               else rr) zone)) =
  if String.eqb n n'
  then (if existsb (Hetzner.sameSet n' "CNAME") zone then entryOf n value else None)
  else lastFor n (listing zoneId zone).
Proof.
  induction zone as [|rr rest IH]; simpl.
  - destruct (String.eqb n n'); reflexivity.
  - rewrite !lastFor_app, IH. clear IH.
    destruct (Hetzner.sameSet n' "CNAME" rr) eqn:Hrr; simpl.
    + destruct (String.eqb n n') eqn:Hn.
      * apply String.eqb_eq in Hn. subst n'.
        rewrite pick_flatten, Hrr.
        destruct (existsb _ rest); [destruct (entryOf n value)|]; reflexivity.
      * rewrite (lastFor_flatten_other zoneId rr n (sameSet_other _ _ _ _ Hn Hrr)).
        rewrite pick_flatten, (sameSet_other _ _ _ _ Hn Hrr). reflexivity.
    + destruct (String.eqb n n') eqn:Hn; [|reflexivity].
      apply String.eqb_eq in Hn. subst n'.
      rewrite (lastFor_flatten_other zoneId rr n Hrr).
      destruct (existsb _ rest); [destruct (entryOf n value)|]; reflexivity.
Qed.

Lemma lastFor_created zoneId n n' ttl value zone :
  lastFor n (listing zoneId (zone ++ [Hetzner.mkRRSet n' "CNAME" ttl [value]])%list) =
  match (if String.eqb n n' then entryOf n value else None) with
  | Some x => Some x
  | None => lastFor n (listing zoneId zone)
  end.
Proof.
  rewrite flat_map_app, lastFor_app. simpl.
  pose proof (pick_flatten zoneId (Hetzner.mkRRSet n' "CNAME" ttl [value]) n value) as H.
  simpl in H. rewrite H.
  unfold Hetzner.sameSet. simpl. rewrite (String.eqb_sym n' n), andb_true_r.
  reflexivity.
Qed.

(** ** Strings *)

Lemma prefix_nil (s : string) : String.prefix EmptyString s = true.
Proof. destruct s; reflexivity. Qed.

Lemma prefix_cons (a b : ascii) (p s : string) :
  String.prefix (String a p) (String b s) = if ascii_dec a b then String.prefix p s else false.
Proof. reflexivity. Qed.

Lemma includes_cons (sub : string) (c : ascii) (s : string) :
  JsString.includes sub (String c s) = String.prefix sub (String c s) || JsString.includes sub s.
Proof. reflexivity. Qed.

Lemma split_cons (sep c : ascii) (s : string) :
  JsString.split sep (String c s) =
  if Ascii.eqb c sep then EmptyString :: JsString.split sep s
  else match JsString.split sep s with
       | h :: t => String c h :: t
       | [] => [String c EmptyString]
       end.
Proof. reflexivity. Qed.

Lemma split_colon (n : string) :
  JsString.includes ":" n = false -> JsString.split ":" (n ++ ":CNAME") = [n; "CNAME"].
Proof.
  induction n as [|c n IH]; intros H; [reflexivity|].
  rewrite includes_cons, prefix_cons in H.
  destruct (ascii_dec ":" c) as [<-|Hc]; [rewrite prefix_nil in H; discriminate|].
  simpl in H.
  rewrite append_cons, split_cons.
  destruct (Ascii.eqb c ":") eqn:Heq; [apply Ascii.eqb_eq in Heq; congruence|].
  rewrite (IH H). reflexivity.
Qed.

Lemma stripDot_no_dot (t : string) :
  JsString.endsWith "." t = false -> JsString.stripDot t = t.
Proof.
  induction t as [|c t IH]; [reflexivity|].
  destruct t as [|c' t].
  - simpl. destruct (Ascii.eqb c ".") eqn:Hc; [|reflexivity].
    apply Ascii.eqb_eq in Hc. subst c. discriminate.
  - intros H. change (JsString.stripDot (String c (String c' t)))
      with (String c (JsString.stripDot (String c' t))).
    f_equal. apply IH.
    change (JsString.endsWith "." (String c (String c' t)))
      with (String.eqb "." (String c (String c' t)) || JsString.endsWith "." (String c' t)) in H.
    apply orb_false_iff in H as [_ H]. exact H.
Qed.

Lemma stripDot_added (t : string) : JsString.stripDot (t ++ ".") = t.
Proof.
  induction t as [|c t IH]; [reflexivity|].
  rewrite append_cons.
  destruct (t ++ ".") as [|c' r] eqn:Hr.
  - destruct t; discriminate.
  - change (JsString.stripDot (String c (String c' r)))
      with (String c (JsString.stripDot (String c' r))).
    rewrite IH. reflexivity.
Qed.

Lemma stripDot_finalValue (t : string) :
  JsString.stripDot (Hetzner.finalValue "CNAME" t) = JsString.stripDot t.
Proof.
  unfold Hetzner.finalValue. simpl.
  destruct (JsString.endsWith "." t) eqn:Hdot; simpl; [reflexivity|].
  rewrite stripDot_added, (stripDot_no_dot t Hdot). reflexivity.
Qed.

Lemma managed_target (cname domain' : string) :
  JsString.startsWith "on." cname = true ->
  Sync.isManaged (JsString.stripDot (cname ++ "." ++ domain')) = true.
Proof.
  unfold JsString.startsWith. intros H.
  destruct cname as [|a [|b [|c h]]]; try discriminate H.
  - rewrite prefix_cons in H. destruct (ascii_dec "o" a); discriminate H.
  - rewrite !prefix_cons in H.
    destruct (ascii_dec "o" a); [|discriminate H].
    destruct (ascii_dec "n" b); discriminate H.
  - rewrite !prefix_cons in H.
    destruct (ascii_dec "o" a) as [<-|]; [|discriminate H].
    destruct (ascii_dec "n" b) as [<-|]; [|discriminate H].
    destruct (ascii_dec "." c) as [<-|]; [|discriminate H].
    change ("." ++ domain') with (String "." domain').
    rewrite !append_cons.
    destruct (h ++ String "." domain') as [|x r] eqn:Hr.
    + destruct h; discriminate.
    + change (JsString.stripDot (String "o" (String "n" (String "." (String x r)))))
        with (String "o" (String "n" (String "." (JsString.stripDot (String x r))))).
      unfold Sync.isManaged, JsString.startsWith.
      rewrite !prefix_cons.
      repeat (destruct (ascii_dec _ _); [|congruence]).
      rewrite prefix_nil. reflexivity.
Qed.

(** ** A call that succeeded *)

Lemma perform_delete accepts n zoneId zone zone' :
  JsString.includes ":" n = false ->
  Hetzner.perform accepts (Hetzner.DeleteRecord (n ++ ":" ++ "CNAME") zoneId) zone = (true, zone') ->
  zone' = List.filter (fun rr => negb (Hetzner.sameSet n "CNAME" rr)) zone.
Proof.
  intros Hn. unfold Hetzner.perform.
  destruct (accepts _); [|discriminate].
  change (n ++ ":" ++ "CNAME") with (n ++ ":CNAME").
  rewrite (split_colon n Hn). simpl. unfold Hetzner.apiDelete.
  destruct (existsb _ zone); [|discriminate]. congruence.
Qed.

Lemma perform_update accepts id zoneId n target ttl zone zone' :
  Hetzner.perform accepts (Hetzner.UpdateRecord id zoneId n "CNAME" target ttl) zone = (true, zone') ->
  existsb (Hetzner.sameSet n "CNAME") zone = true /\
  zone' = map (fun rr => if Hetzner.sameSet n "CNAME" rr
                         then Hetzner.mkRRSet (Hetzner.rr_name rr) (Hetzner.rr_type rr)
                                (Hetzner.rr_ttl rr) [Hetzner.finalValue "CNAME" target]
                         else rr) zone.
Proof.
  unfold Hetzner.perform. destruct (accepts _); [|discriminate].
  unfold Hetzner.apiSetRecords.
  destruct (existsb _ zone); [|discriminate]. intros [= <-]. auto.
Qed.

Lemma perform_create accepts zoneId n target ttl zone zone' :
  Hetzner.perform accepts (Hetzner.CreateRecord zoneId n "CNAME" target ttl) zone = (true, zone') ->
  zone' = (zone ++ [Hetzner.mkRRSet n "CNAME" ttl [Hetzner.finalValue "CNAME" target]])%list.
Proof.
  unfold Hetzner.perform. destruct (accepts _); [|discriminate].
  unfold Hetzner.apiCreate.
  destruct (existsb _ zone); [discriminate|]. intros [= <-]. reflexivity.
Qed.

Lemma issue_ok env c st :
  forallb snd (snd (Sync.issue env c st)) = true ->
  forallb snd (snd st) = true /\
  Hetzner.perform (Sync.zoneAccepts env) c (fst st) = (true, fst (Sync.issue env c st)).
Proof.
  unfold Sync.issue.
  destruct (Hetzner.perform _ c (fst st)) as [ok zone'] eqn:Hp. simpl.
  rewrite forallb_app. simpl. rewrite andb_true_r.
  intros H. apply andb_true_iff in H as [Hlog ->]. auto.
Qed.

(** ** The delete phase *)

Lemma deleteStep_ok cfg env zoneId expected st entry :
  forallb snd (snd (Sync.deleteStep cfg env zoneId expected st entry)) = true ->
  forallb snd (snd st) = true.
Proof.
  destruct entry as [name [value id]]. unfold Sync.deleteStep.
  destruct (negb _); [|auto].
  destruct (JsString.inList _ _); [auto|].
  intros H. apply issue_ok in H. tauto.
Qed.

Lemma delete_phase_ok cfg env zoneId expected entries :
  forall st,
    forallb snd (snd (fold_left (Sync.deleteStep cfg env zoneId expected) entries st)) = true ->
    forallb snd (snd st) = true.
Proof.
  induction entries as [|entry rest IH]; intros st; simpl; [auto|].
  intros H. apply IH in H. eapply deleteStep_ok; eauto.
Qed.

Lemma delete_phase cfg env zoneId expected zid entries :
  forall st,
    (forall entry, In entry entries ->
       snd (snd entry) = fst entry ++ ":" ++ "CNAME" /\
       JsString.includes ":" (fst entry) = false) ->
    forallb snd (snd (fold_left (Sync.deleteStep cfg env zoneId expected) entries st)) = true ->
    forall n,
      lastFor n (listing zid (fst (fold_left (Sync.deleteStep cfg env zoneId expected) entries st))) =
      if isDeleted cfg expected entries n then None else lastFor n (listing zid (fst st)).
Proof.
  induction entries as [|entry rest IH]; intros st Hids Hok n; simpl; [reflexivity|].
  simpl in Hok.
  rewrite (IH _ (fun e He => Hids e (or_intror He)) Hok).
  destruct (Hids entry (or_introl eq_refl)) as [Hid Hcolon].
  pose proof (delete_phase_ok _ _ _ _ _ _ Hok) as Hstep.
  destruct entry as [name [value id]]. simpl in *. subst id.
  unfold Sync.deleteStep in *.
  destruct (Sync.mapHas name expected); simpl in *.
  { rewrite andb_false_r. reflexivity. }
  destruct (JsString.inList name (keepSubdomains cfg)); simpl in *.
  { rewrite andb_false_r. reflexivity. }
  rewrite andb_true_r.
  apply issue_ok in Hstep as [_ Hperform].
  apply perform_delete in Hperform; [|exact Hcolon].
  rewrite Hperform, lastFor_deleted, (String.eqb_sym n name).
  destruct (String.eqb name n); simpl; [|reflexivity].
  destruct (isDeleted cfg expected rest n); reflexivity.
Qed.

(** ** More on insertion-ordered maps *)

Lemma mapGet_cons {V : Type} (n k : string) (v : V) (m : list (string * V)) :
  Sync.mapGet n ((k, v) :: m) = if String.eqb k n then Some v else Sync.mapGet n m.
Proof. unfold Sync.mapGet. simpl. destruct (String.eqb k n); reflexivity. Qed.

Lemma mapGet_None {V : Type} (n : string) (m : list (string * V)) :
  ~ In n (map fst m) -> Sync.mapGet n m = None.
Proof.
  induction m as [|[k v] rest IH]; [reflexivity|].
  simpl. intros H. rewrite mapGet_cons.
  destruct (String.eqb k n) eqn:Hk.
  - apply String.eqb_eq in Hk. tauto.
  - apply IH. tauto.
Qed.

Lemma mapGet_NoDup {V : Type} (n : string) (v : V) (m : list (string * V)) :
  List.NoDup (map fst m) -> In (n, v) m -> Sync.mapGet n m = Some v.
Proof.
  induction m as [|[k w] rest IH]; simpl; [intros _ []|].
  intros Hnd Hin. apply List.NoDup_cons_iff in Hnd as [Hk Hnd]. rewrite mapGet_cons.
  destruct Hin as [[= -> ->]|Hin].
  - rewrite String.eqb_refl. reflexivity.
  - destruct (String.eqb k n) eqn:Hkn; [|auto].
    apply String.eqb_eq in Hkn. subst k. exfalso. apply Hk.
    apply in_map_iff. exists (n, v). auto.
Qed.

Lemma objSet_keys {V : Type} (k : string) (v : V) (m : list (string * V)) :
  map fst (Topology.objSet k v m) =
  if Sync.mapHas k m then map fst m else (map fst m ++ [k])%list.
Proof.
  unfold Sync.mapHas. induction m as [|[k' v'] rest IH]; simpl; [reflexivity|].
  destruct (String.eqb k' k) eqn:Hk; simpl.
  - apply String.eqb_eq in Hk. subst k'. reflexivity.
  - rewrite IH. destruct (existsb _ rest); reflexivity.
Qed.

Lemma mapHas_false {V : Type} (k : string) (m : list (string * V)) :
  Sync.mapHas k m = false -> ~ In k (map fst m).
Proof.
  intros H Hin. apply in_map_iff in Hin as ([k' v] & Hk & Hin).
  simpl in Hk. subst k'. rewrite (In_mapHas _ _ _ Hin) in H. discriminate.
Qed.

Lemma NoDup_snoc {A : Type} (l : list A) (x : A) :
  List.NoDup l -> ~ In x l -> List.NoDup (l ++ [x])%list.
Proof.
  induction l as [|y l IH]; simpl; intros Hnd Hx.
  - constructor; [intros []|constructor].
  - apply List.NoDup_cons_iff in Hnd as [Hy Hnd]. constructor.
    + intros Hin. apply in_app_or in Hin as [Hin|[<-|[]]]; tauto.
    + apply IH; tauto.
Qed.

Lemma objSet_NoDup {V : Type} (k : string) (v : V) (m : list (string * V)) :
  List.NoDup (map fst m) -> List.NoDup (map fst (Topology.objSet k v m)).
Proof.
  intros Hnd. rewrite objSet_keys.
  destruct (Sync.mapHas k m) eqn:Hk; [exact Hnd|].
  apply NoDup_snoc; [exact Hnd | exact (mapHas_false _ _ Hk)].
Qed.

Lemma expectedOf_NoDup cfg pairs : List.NoDup (map fst (Sync.expectedOf cfg pairs)).
Proof.
  unfold Sync.expectedOf.
  assert (H : forall acc, List.NoDup (map fst acc) ->
                          List.NoDup (map fst (fold_left (Sync.expectedStep cfg) pairs acc))).
  { induction pairs as [|pair rest IH]; intros acc Hacc; simpl; [exact Hacc|].
    apply IH. unfold Sync.expectedStep.
    destruct (JsString.inList _ _); [exact Hacc|].
    destruct (_ && _); [exact Hacc|].
    apply objSet_NoDup. exact Hacc. }
  apply H. constructor.
Qed.

Lemma expectedOf_targets cfg pairs name target :
  In (name, target) (Sync.expectedOf cfg pairs) ->
  exists pair, In pair pairs /\ target = Sync.p_cname_full pair.
Proof.
  unfold Sync.expectedOf.
  assert (H : forall acc,
             In (name, target) (fold_left (Sync.expectedStep cfg) pairs acc) ->
             In (name, target) acc \/
             exists pair, In pair pairs /\ target = Sync.p_cname_full pair).
  { induction pairs as [|pair rest IH]; intros acc; simpl; [auto|].
    intros Hin. destruct (IH _ Hin) as [Hacc|(p & Hp & Ht)]; [|eauto].
    unfold Sync.expectedStep in Hacc.
    destruct (JsString.inList _ _); [auto|].
    destruct (_ && _); [auto|].
    apply In_objSet in Hacc as [[= _ ->]|Hacc]; eauto. }
  intros Hin. destruct (H _ Hin) as [[]|Hp]. exact Hp.
Qed.

(** ** The upsert phase *)

Lemma upsertStep_ok env zoneId current st entry :
  forallb snd (snd (Sync.upsertStep env zoneId current st entry)) = true ->
  forallb snd (snd st) = true.
Proof.
  destruct entry as [name target]. unfold Sync.upsertStep.
  destruct (Sync.mapGet name current) as [[value id]|].
  - destruct (negb _); [|auto]. intros H. apply issue_ok in H. tauto.
  - intros H. apply issue_ok in H. tauto.
Qed.

Lemma upsert_phase_ok env zoneId current entries :
  forall st,
    forallb snd (snd (fold_left (Sync.upsertStep env zoneId current) entries st)) = true ->
    forallb snd (snd st) = true.
Proof.
  induction entries as [|entry rest IH]; intros st; simpl; [auto|].
  intros H. apply IH in H. eapply upsertStep_ok; eauto.
Qed.

Lemma entryOf_sent name target :
  Sync.isManaged (JsString.stripDot target) = true ->
  entryOf name (Hetzner.finalValue "CNAME" target) =
    Some (JsString.stripDot target, name ++ ":" ++ "CNAME").
Proof.
  intros H. unfold entryOf. rewrite stripDot_finalValue, H. reflexivity.
Qed.

#[local] Arguments Sync.upsertStep : simpl never.

Lemma upsert_phase env zoneId current zid entries :
  forall st,
    List.NoDup (map fst entries) ->
    (forall entry, In entry entries -> Sync.isManaged (JsString.stripDot (snd entry)) = true) ->
    forallb snd (snd (fold_left (Sync.upsertStep env zoneId current) entries st)) = true ->
    forall n,
      lastFor n (listing zid (fst (fold_left (Sync.upsertStep env zoneId current) entries st))) =
      match Sync.mapGet n entries with
      | Some target =>
          match Sync.mapGet n current with
          | Some (value, id) =>
              if negb (String.eqb value (JsString.stripDot target))
              then Some (JsString.stripDot target, n ++ ":" ++ "CNAME")
              else lastFor n (listing zid (fst st))
          | None => Some (JsString.stripDot target, n ++ ":" ++ "CNAME")
          end
      | None => lastFor n (listing zid (fst st))
      end.
Proof.
  induction entries as [|entry rest IH]; intros st Hnd Hman Hok n; simpl; [reflexivity|].
  simpl in Hok, Hnd. apply List.NoDup_cons_iff in Hnd as [Hfresh Hnd].
  rewrite (IH _ Hnd (fun e He => Hman e (or_intror He)) Hok).
  pose proof (upsert_phase_ok _ _ _ _ _ Hok) as Hstep.
  pose proof (Hman entry (or_introl eq_refl)) as Htarget.
  destruct entry as [name target]. simpl in *. rewrite mapGet_cons.
  destruct (String.eqb name n) eqn:Hn.
  - apply String.eqb_eq in Hn. subst n.
    rewrite (mapGet_None name rest Hfresh).
    unfold Sync.upsertStep in *.
    destruct (Sync.mapGet name current) as [[value id]|].
    + destruct (negb (String.eqb value (JsString.stripDot target))); [|reflexivity].
      apply issue_ok in Hstep as [_ Hperform].
      apply perform_update in Hperform as [Hexists ->].
      rewrite lastFor_replaced, String.eqb_refl, Hexists.
      apply entryOf_sent. exact Htarget.
    + apply issue_ok in Hstep as [_ Hperform].
      apply perform_create in Hperform as ->.
      rewrite lastFor_created, String.eqb_refl, (entryOf_sent name target Htarget).
      reflexivity.
  - assert (Hsame : lastFor n (listing zid (fst (Sync.upsertStep env zoneId current st (name, target)))) =
                    lastFor n (listing zid (fst st))).
    { unfold Sync.upsertStep in *.
      destruct (Sync.mapGet name current) as [[value id]|].
      + destruct (negb (String.eqb value (JsString.stripDot target))); [|reflexivity].
        apply issue_ok in Hstep as [_ Hperform].
        apply perform_update in Hperform as [_ ->].
        rewrite lastFor_replaced, (String.eqb_sym n name), Hn. reflexivity.
      + apply issue_ok in Hstep as [_ Hperform].
        apply perform_create in Hperform as ->.
        rewrite lastFor_created, (String.eqb_sym n name), Hn. reflexivity. }
    rewrite Hsame. reflexivity.
Qed.

(** ** A reconciliation whose calls all succeeded has converged *)

Lemma listing_name zoneId zone record :
  In record (listing zoneId zone) ->
  exists rr, In rr zone /\ Hetzner.rec_name record = Hetzner.rr_name rr.
Proof.
  intros H. apply in_flat_map in H as (rr & Hrr & H).
  unfold Hetzner.flatten in H. apply in_map_iff in H as (value & <- & _).
  exists rr. auto.
Qed.

Lemma fold_noop {A S : Type} (step : S -> A -> S) (l : list A) (st : S) :
  (forall x, In x l -> step st x = st) -> fold_left step l st = st.
Proof.
  induction l as [|x rest IH]; simpl; intros H; [reflexivity|].
  rewrite (H x (or_introl eq_refl)). apply IH. auto.
Qed.

Lemma isDeleted_expected cfg expected entries n :
  Sync.mapHas n expected = true -> isDeleted cfg expected entries n = false.
Proof.
  intros Hn. unfold isDeleted. induction entries as [|entry rest IH]; [reflexivity|].
  simpl. rewrite IH, orb_false_r.
  destruct (String.eqb (fst entry) n) eqn:He; [|reflexivity].
  apply String.eqb_eq in He. rewrite He, Hn. reflexivity.
Qed.

Lemma isDeleted_entry cfg expected entries n x :
  In (n, x) entries ->
  Sync.mapHas n expected = false ->
  JsString.inList n (keepSubdomains cfg) = false ->
  isDeleted cfg expected entries n = true.
Proof.
  intros Hin Hexp Hkeep. unfold isDeleted. apply existsb_exists.
  exists (n, x). split; [exact Hin|]. simpl.
  rewrite String.eqb_refl, Hexp, Hkeep. reflexivity.
Qed.

Lemma current_entry_ids zoneId zone entry :
  (forall rr, In rr zone -> JsString.includes ":" (Hetzner.rr_name rr) = false) ->
  In entry (Sync.currentOf (listing zoneId zone)) ->
  snd (snd entry) = fst entry ++ ":" ++ "CNAME" /\
  JsString.includes ":" (fst entry) = false.
Proof.
  intros Hcolon Hin. unfold Sync.currentOf in Hin.
  apply current_entries in Hin as [[]|(record & Hrec & Hpick)].
  destruct entry as [name [value id]]. simpl in *.
  apply pick_Some in Hpick as (Htype & Hname & _ & _ & ->).
  pose proof (listRecords_id true zoneId zone record Hrec) as Hid.
  destruct (listing_name _ _ _ Hrec) as (rr & Hrr & Hrrname).
  rewrite Hid, Htype, Hname. split; [reflexivity|].
  rewrite <- Hname, Hrrname. auto.
Qed.

Lemma sync_converges cfg env pairs zone0 zoneId :
  Hetzner.getZoneId (hetznerZoneId cfg) (Sync.zoneIdByName env) = Some zoneId ->
  String.eqb zoneId EmptyString = false ->
  Sync.zoneListable env = true ->
  (forall rr, In rr zone0 -> JsString.includes ":" (Hetzner.rr_name rr) = false) ->
  (forall pair, In pair pairs ->
     Sync.isManaged (JsString.stripDot (Sync.p_cname_full pair)) = true) ->
  forallb snd (snd (snd (Sync.syncHetznerDns cfg env pairs zone0))) = true ->
  Sync.syncHetznerDns cfg env pairs (fst (snd (Sync.syncHetznerDns cfg env pairs zone0))) =
    (fst (Sync.syncHetznerDns cfg env pairs zone0),
     (fst (snd (Sync.syncHetznerDns cfg env pairs zone0)), [])).
Proof.
  intros Hzone Hid Hlist Hcolon Htargets.
  unfold Sync.syncHetznerDns. rewrite Hzone, Hid, Hlist.
  unfold Hetzner.listRecords.
  set (current0 := Sync.currentOf (listing zoneId zone0)).
  set (expected := Sync.expectedOf cfg pairs).
  set (deleted := fold_left (Sync.deleteStep cfg env zoneId expected) current0 (zone0, [])).
  set (upserted := fold_left (Sync.upsertStep env zoneId current0) expected deleted).
  cbn [fst snd]. intros Hok.
  set (zone1 := fst upserted).
  set (current1 := Sync.currentOf (listing zoneId zone1)).
  assert (Hexpected : forall entry, In entry expected ->
                        Sync.isManaged (JsString.stripDot (snd entry)) = true).
  { intros [name target] Hin. apply expectedOf_targets in Hin as (pair & Hpair & ->).
    apply Htargets. exact Hpair. }
  pose proof (expectedOf_NoDup cfg pairs) as Hnd. fold expected in Hnd.
  pose proof (upsert_phase env zoneId current0 zoneId expected deleted Hnd Hexpected Hok) as Hup.
  fold upserted in Hup. fold zone1 in Hup.
  pose proof (upsert_phase_ok _ _ _ _ _ Hok) as Hokd.
  pose proof (delete_phase cfg env zoneId expected zoneId current0 (zone0, [])
                (fun entry He => current_entry_ids zoneId zone0 entry Hcolon He) Hokd) as Hdel.
  fold deleted in Hdel. cbn [fst] in Hdel.
  assert (Hdeletes : fold_left (Sync.deleteStep cfg env zoneId expected) current1 (zone1, []) =
                     (zone1, [])).
  { apply fold_noop. intros [n [v id]] Hin. unfold Sync.deleteStep.
    destruct (Sync.mapHas n expected) eqn:Hexp; [reflexivity|]. simpl.
    destruct (JsString.inList n (keepSubdomains cfg)) eqn:Hkeep; [reflexivity|].
    exfalso.
    pose proof (In_mapHas _ _ _ Hin) as Hhas.
    rewrite mapHas_mapGet in Hhas. unfold current1 in Hhas.
    rewrite currentOf_lastFor, Hup in Hhas.
    pose proof Hexp as Hnone. rewrite mapHas_mapGet in Hnone.
    destruct (Sync.mapGet n expected); [discriminate|].
    rewrite Hdel in Hhas.
    destruct (isDeleted cfg expected current0 n) eqn:Hgone; [discriminate|].
    rewrite <- currentOf_lastFor in Hhas. fold current0 in Hhas.
    destruct (Sync.mapGet n current0) as [x0|] eqn:Hget; [|discriminate].
    apply mapGet_In in Hget.
    rewrite (isDeleted_entry cfg expected current0 n x0 Hget Hexp Hkeep) in Hgone.
    discriminate. }
  rewrite Hdeletes.
  assert (Hupserts : fold_left (Sync.upsertStep env zoneId current1) expected (zone1, []) =
                     (zone1, [])).
  { apply fold_noop. intros [n target] Hin. unfold Sync.upsertStep.
    unfold current1. rewrite currentOf_lastFor, Hup.
    rewrite (mapGet_NoDup n target expected Hnd Hin).
    assert (Hkept : lastFor n (listing zoneId (fst deleted)) = Sync.mapGet n current0).
    { rewrite Hdel, (isDeleted_expected cfg expected current0 n (In_mapHas _ _ _ Hin)).
      unfold current0. rewrite currentOf_lastFor. reflexivity. }
    destruct (Sync.mapGet n current0) as [[value id]|] eqn:Hget.
    - destruct (String.eqb value (JsString.stripDot target)) eqn:Hv; simpl.
      + rewrite Hkept, Hv. reflexivity.
      + rewrite String.eqb_refl. reflexivity.
    - rewrite String.eqb_refl. reflexivity. }
  rewrite Hupserts. reflexivity.
Qed.

(** ** The targets of the desired pairs are managed values *)

Lemma startsWith_on (h : string) : JsString.startsWith "on." ("on." ++ h) = true.
Proof.
  unfold JsString.startsWith. change ("on." ++ h) with (String "o" (String "n" (String "." h))).
  rewrite !prefix_cons.
  repeat (destruct (ascii_dec _ _); [|congruence]).
  apply prefix_nil.
Qed.

Lemma parseTopology_keys txtData k v :
  In (k, v) (Topology.parseTopology txtData) -> JsString.startsWith "on." k = true.
Proof.
  unfold Topology.parseTopology.
  assert (H : forall entries acc,
             (forall k v, In (k, v) acc -> JsString.startsWith "on." k = true) ->
             forall k v, In (k, v) (fold_left Topology.parseEntry entries acc) ->
                         JsString.startsWith "on." k = true).
  { induction entries as [|entry rest IH]; intros acc Hacc; simpl; [exact Hacc|].
    apply IH. unfold Topology.parseEntry.
    destruct (negb _); [exact Hacc|].
    destruct (Topology.ipToSubnet _); [|exact Hacc].
    intros k' v' Hin. apply In_objSet in Hin as [[= -> _]|Hin]; [apply startsWith_on|eauto]. }
  apply H. intros k' v' [].
Qed.

Lemma getHostSubnetMapping_keys query mapping k v :
  getHostSubnetMapping query = Returned mapping ->
  In (k, v) mapping -> JsString.startsWith "on." k = true.
Proof.
  destruct query as [txtData|[e|]]; simpl; try discriminate.
  - intros [= <-]. apply parseTopology_keys.
  - intros [= <-] [].
Qed.

Lemma getCnameForIp_In ip mapping cname :
  Topology.getCnameForIp ip mapping = Some cname -> exists subnet, In (cname, subnet) mapping.
Proof.
  induction mapping as [|[k v] rest IH]; simpl; [discriminate|].
  destruct (Topology.ipInSubnet ip v).
  - intros [= ->]. eauto.
  - intros H. destruct (IH H) as [subnet Hin]. eauto.
Qed.

Lemma resourceStep_managed cfg env mapping pairs resource :
  (forall k v, In (k, v) mapping -> JsString.startsWith "on." k = true) ->
  managedTargets pairs -> managedTargets (Sync.resourceStep cfg env mapping pairs resource).
Proof.
  intros Hkeys Hpairs. unfold Sync.resourceStep.
  destruct (String.eqb _ EmptyString); [exact Hpairs|].
  destruct (match Sync.targetsOf env _ with [] => _ | _ => _ end) as [|first targets]; [exact Hpairs|].
  destruct (String.eqb _ EmptyString); [exact Hpairs|].
  destruct (Topology.getCnameForIp _ mapping) as [cname|] eqn:Hc; [|exact Hpairs].
  destruct (String.eqb cname EmptyString); [exact Hpairs|].
  intros pair Hin. apply in_app_or in Hin as [Hin|[<-|[]]]; [auto|].
  simpl. apply managed_target.
  apply getCnameForIp_In in Hc as [subnet Hc]. eauto.
Qed.

Lemma pairs_managed dns cfg env pairs mapping :
  Sync.getPangolinDomainCnamePairs dns cfg env = Returned (pairs, mapping) ->
  managedTargets pairs.
Proof.
  unfold Sync.getPangolinDomainCnamePairs.
  destruct (getHostSubnetMapping _) as [m|e] eqn:Hm; simpl; [|discriminate].
  assert (Hempty : managedTargets []) by (intros pair []).
  destruct m as [|entry m']; [intros [= <- _]; exact Hempty|].
  destruct (Sync.getOrgId _ _) as [orgId|]; [|intros [= <- _]; exact Hempty].
  destruct (Sync.resourcesOf env orgId) as [|r rs]; [intros [= <- _]; exact Hempty|].
  intros [= <- _].
  assert (H : forall resources acc, managedTargets acc ->
             managedTargets (fold_left (Sync.resourceStep cfg env (entry :: m')) resources acc)).
  { induction resources as [|x rest IH]; intros acc Hacc; simpl; [exact Hacc|].
    apply IH. apply resourceStep_managed; [|exact Hacc].
    intros k v. eapply getHostSubnetMapping_keys. exact Hm. }
  apply (H (r :: rs) []). exact Hempty.
Qed.

(** ** Two cycles in succession *)

(** [runOnce], spelled out. *)
Lemma runOnce_unfold dns cfg env st :
  Sync.runOnce dns cfg env st =
  match Sync.getPangolinDomainCnamePairs dns cfg env with
  | Thrown e =>
      (Returned (Sync.mkRunResult false (Sync.mkSummary 0 0 0 [message e])),
       Sync.mkCycle st (Sync.mkSummary 0 0 0 [message e]) [])
  | Returned (pairs, mapping) =>
      let g := Gatus.updateHostMapping mapping in
      let synced := Sync.syncHetznerDns cfg env pairs (Sync.zone st) in
      let st1 := Sync.mkStore (fst (snd synced)) (Sync.gatusFile st) g in
      match Sync.generateGatusConfig cfg env g pairs (fst synced) with
      | Thrown e =>
          let s := Sync.mkSummary (Sync.len pairs) (Sync.len (fst synced)) 0 [message e] in
          (Returned (Sync.mkRunResult false s),
           Sync.mkCycle st1 s (zoneEffects (snd (snd synced))))
      | Returned config =>
          match Sync.yamlDump env config with
          | Thrown e =>
              let s := Sync.mkSummary (Sync.len pairs) (Sync.len (fst synced))
                                      (Sync.len config) [message e] in
              (Returned (Sync.mkRunResult false s),
               Sync.mkCycle st1 s (zoneEffects (snd (snd synced))))
          | Returned _ =>
              let written := Sync.writeGatusConfig env config st1 in
              let s := Sync.mkSummary (Sync.len pairs) (Sync.len (fst synced))
                                      (Sync.len config) [] in
              (Returned (Sync.mkRunResult true s),
               Sync.mkCycle (snd (fst written)) s
                            (zoneEffects (snd (snd synced)) ++ snd written)%list)
          end
      end
  end.
Proof.
  unfold Sync.runOnce, Sync.runOnceWith, Sync.tryCatchM, Sync.cycleBody, Sync.steps.
  unfold mbind, Sync.M_bind, Sync.run. simpl.
  destruct (Sync.getPangolinDomainCnamePairs dns cfg env) as [[pairs mapping]|e]; simpl;
    [|reflexivity].
  destruct (Sync.syncHetznerDns cfg env pairs (Sync.zone st)) as [records [zone' calls]]. simpl.
  destruct (Sync.generateGatusConfig cfg env _ pairs records) as [config|e]; simpl.
  2:{ rewrite app_nil_r. reflexivity. }
  unfold Sync.writeGatusConfig.
  destruct (Sync.yamlDump env config) as [content|e]; simpl.
  2:{ rewrite !app_nil_r. reflexivity. }
  destruct (bool_decide _); simpl; [rewrite !app_nil_r; reflexivity|].
  destruct (Sync.fsWritable env); simpl; rewrite app_nil_r; reflexivity.
Qed.

Lemma zoneEffects_ok calls :
  forallb effectOk (zoneEffects calls) = forallb snd calls.
Proof.
  induction calls as [|[c ok] rest IH]; simpl; [reflexivity|]. rewrite IH. reflexivity.
Qed.

Lemma sync_twice cfg env pairs zone0 :
  Sync.zoneListable env = true ->
  (forall rr, In rr zone0 -> JsString.includes ":" (Hetzner.rr_name rr) = false) ->
  managedTargets pairs ->
  forallb snd (snd (snd (Sync.syncHetznerDns cfg env pairs zone0))) = true ->
  Sync.syncHetznerDns cfg env pairs (fst (snd (Sync.syncHetznerDns cfg env pairs zone0))) =
    (fst (Sync.syncHetznerDns cfg env pairs zone0),
     (fst (snd (Sync.syncHetznerDns cfg env pairs zone0)), [])).
Proof.
  intros Hlist Hcolon Htargets Hok.
  destruct (Hetzner.getZoneId (hetznerZoneId cfg) (Sync.zoneIdByName env)) as [zoneId|] eqn:Hzone.
  - destruct (String.eqb zoneId EmptyString) eqn:Hid.
    + unfold Sync.syncHetznerDns. rewrite Hzone, Hid. reflexivity.
    + apply (sync_converges cfg env pairs zone0 zoneId); assumption.
  - unfold Sync.syncHetznerDns. rewrite Hzone. reflexivity.
Qed.

Lemma write_settles env config content st :
  Sync.yamlDump env config = Returned content ->
  forallb effectOk (snd (Sync.writeGatusConfig env config st)) = true ->
  snd (fst (Sync.writeGatusConfig env config st)) =
    Sync.mkStore (Sync.zone st) (Some content) (Sync.generator st) /\
  Sync.writeGatusConfig env config (snd (fst (Sync.writeGatusConfig env config st))) =
    (Returned false, snd (fst (Sync.writeGatusConfig env config st)), []).
Proof.
  intros Hdump. unfold Sync.writeGatusConfig. rewrite Hdump.
  destruct (bool_decide (Sync.gatusFile st = Some content)) eqn:Hsame.
  - intros _. simpl. rewrite Hsame. apply bool_decide_eq_true in Hsame.
    split; [|reflexivity]. destruct st as [z f g]. simpl in *. subst f. reflexivity.
  - destruct (Sync.fsWritable env); simpl; [|discriminate].
    intros _. rewrite bool_decide_eq_true_2 by reflexivity. auto.
Qed.

(** C1, as the code has it.  When the zone can be listed, no record name of
    the zone contains a colon, and every call of a cycle that changes the
    outside world succeeded (each zone create, update and delete, and the
    write of the output file if there was one), the cycle run again on the
    same inputs makes no zone call and no write: it returns the same result
    and leaves the zone, the file and the generator as they were.  The write
    is skipped because the file holds the serialized configuration of the
    second run. *)
Theorem second_run_is_quiet (dns : Dns.version) (cfg : Config) (env : Sync.Env) (st0 : Sync.Store) :
  Sync.zoneListable env = true ->
  (forall rr, In rr (Sync.zone st0) -> JsString.includes ":" (Hetzner.rr_name rr) = false) ->
  forallb effectOk (Sync.trace (snd (Sync.runOnce dns cfg env st0))) = true ->
  Sync.runOnce dns cfg env (Sync.store (snd (Sync.runOnce dns cfg env st0))) =
    (fst (Sync.runOnce dns cfg env st0),
     Sync.mkCycle (Sync.store (snd (Sync.runOnce dns cfg env st0)))
                  (Sync.report (snd (Sync.runOnce dns cfg env st0))) []) /\
  (forall pairs mapping,
     Sync.getPangolinDomainCnamePairs dns cfg env = Returned (pairs, mapping) ->
     let st1 := Sync.store (snd (Sync.runOnce dns cfg env st0)) in
     callsOf cfg env pairs (Sync.zone st1) = [] /\
     forall config content,
       Sync.generateGatusConfig cfg env (Gatus.updateHostMapping mapping) pairs
         (fst (Sync.syncHetznerDns cfg env pairs (Sync.zone st1))) = Returned config ->
       Sync.yamlDump env config = Returned content ->
       Sync.gatusFile st1 = Some content).
Proof.
  intros Hlist Hcolon.
  pose proof (runOnce_unfold dns cfg env st0) as Hfirst.
  destruct (Sync.getPangolinDomainCnamePairs dns cfg env) as [[pairs mapping]|e] eqn:Hpairs.
  2:{ rewrite Hfirst. cbn [fst snd Sync.store Sync.report]. intros _.
      split; [|discriminate]. rewrite runOnce_unfold, Hpairs. reflexivity. }
  cbn zeta in Hfirst.
  set (g := Gatus.updateHostMapping mapping) in *.
  set (synced := Sync.syncHetznerDns cfg env pairs (Sync.zone st0)) in *.
  set (st := Sync.mkStore (fst (snd synced)) (Sync.gatusFile st0) g) in *.
  assert (Hsync : forallb snd (snd (snd synced)) = true ->
                  Sync.syncHetznerDns cfg env pairs (fst (snd synced)) =
                    (fst synced, (fst (snd synced), []))).
  { intros Hcalls.
    apply (sync_twice cfg env pairs (Sync.zone st0) Hlist Hcolon
             (pairs_managed dns cfg env pairs mapping Hpairs) Hcalls). }
  destruct (Sync.generateGatusConfig cfg env g pairs (fst synced)) as [config|e] eqn:Hgen.
  - destruct (Sync.yamlDump env config) as [content|e] eqn:Hdump.
    + rewrite Hfirst. cbn [fst snd Sync.trace Sync.store Sync.report].
      intros Hok. rewrite forallb_app, zoneEffects_ok in Hok.
      apply andb_true_iff in Hok as [Hcalls Hwrite]. specialize (Hsync Hcalls).
      destruct (write_settles env config content st Hdump Hwrite) as [Hstore Hagain].
      assert (Hzone : Sync.zone (snd (fst (Sync.writeGatusConfig env config st))) =
                      fst (snd synced)).
      { rewrite Hstore. reflexivity. }
      assert (Hfile : Sync.gatusFile (snd (fst (Sync.writeGatusConfig env config st))) =
                      Some content).
      { rewrite Hstore. reflexivity. }
      split.
      * rewrite runOnce_unfold, Hpairs. cbn zeta. fold g.
        rewrite Hzone, Hsync. cbn [fst snd]. rewrite Hgen, Hdump.
        assert (Hst : Sync.mkStore (fst (snd synced))
                        (Sync.gatusFile (snd (fst (Sync.writeGatusConfig env config st)))) g =
                      snd (fst (Sync.writeGatusConfig env config st))).
        { rewrite Hstore. reflexivity. }
        rewrite Hst, Hagain. reflexivity.
      * intros pairs' mapping' [= <- <-]. cbn zeta.
        rewrite Hzone. unfold callsOf. rewrite Hsync. cbn [fst snd map]. fold g.
        split; [reflexivity|]. intros config' content' Hgen' Hdump'.
        rewrite Hgen in Hgen'. injection Hgen' as <-.
        rewrite Hdump in Hdump'. injection Hdump' as <-. exact Hfile.
    + rewrite Hfirst. cbn [fst snd Sync.trace Sync.store Sync.report].
      intros Hok. rewrite zoneEffects_ok in Hok. specialize (Hsync Hok).
      split.
      * rewrite runOnce_unfold, Hpairs. cbn zeta. fold g.
        change (Sync.zone st) with (fst (snd synced)).
        rewrite Hsync. cbn [fst snd]. rewrite Hgen, Hdump. reflexivity.
      * intros pairs' mapping' [= <- <-]. cbn zeta.
        change (Sync.zone st) with (fst (snd synced)).
        unfold callsOf. rewrite Hsync. cbn [fst snd map]. fold g.
        split; [reflexivity|]. intros config' content' Hgen' Hdump'.
        rewrite Hgen in Hgen'. injection Hgen' as <-.
        rewrite Hdump in Hdump'. discriminate Hdump'.
  - rewrite Hfirst. cbn [fst snd Sync.trace Sync.store Sync.report].
    intros Hok. rewrite zoneEffects_ok in Hok. specialize (Hsync Hok).
    split.
    + rewrite runOnce_unfold, Hpairs. cbn zeta. fold g.
      change (Sync.zone st) with (fst (snd synced)).
      rewrite Hsync. cbn [fst snd]. rewrite Hgen. reflexivity.
    + intros pairs' mapping' [= <- <-]. cbn zeta.
      change (Sync.zone st) with (fst (snd synced)).
      unfold callsOf. rewrite Hsync. cbn [fst snd map]. fold g.
      split; [reflexivity|]. intros config' content' Hgen' Hdump'.
      rewrite Hgen in Hgen'. discriminate Hgen'.
Qed.

Lemma second_run_is_quiet_witness :
  Sync.trace (snd (Sync.runOnce Dns.WithRetries exampleConfig (scenarioEnv true)
                     (Sync.store (snd (Sync.runOnce Dns.WithRetries exampleConfig
                                         (scenarioEnv true) emptyStore))))) = [].
Proof.
  destruct (second_run_is_quiet Dns.WithRetries exampleConfig (scenarioEnv true) emptyStore)
    as [Hquiet _].
  - reflexivity.
  - intros rr [].
  - vm_compute. reflexivity.
  - rewrite Hquiet. reflexivity.
Defined.

(** C1, as stated, fails: a zone call that does not succeed is made again
    by the next cycle, on the same inputs.  First, when the zone API rejects
    the create of the first cycle, the zone is unchanged and the second cycle
    makes the same create call.  Second, with an API that accepts every
    request, when the zone already has a CNAME of the desired name that the
    reconciler does not manage: each cycle tries to create the record set
    that exists. *)
Lemma second_run_repeats_a_rejected_call :
  let create := Hetzner.CreateRecord "zone1" "app" "CNAME" "on.alpha.example.com" 3600 in
  (let first := Sync.runOnce Dns.WithRetries exampleConfig (scenarioEnv false) emptyStore in
   let second := Sync.runOnce Dns.WithRetries exampleConfig (scenarioEnv false)
                              (Sync.store (snd first)) in
   Sync.zone (Sync.store (snd first)) = Sync.zone emptyStore /\
   Sync.trace (snd second) = [Sync.ZoneCall create false] /\
   Sync.trace (snd second) <> []) /\
  (let foreign := [Hetzner.mkRRSet "app" "CNAME" 300 ["legacy.example.net."]] in
   let first := Sync.runOnce Dns.WithRetries exampleConfig (scenarioEnv true)
                             (Sync.mkStore foreign None (Gatus.mkGenerator [] [] [])) in
   let second := Sync.runOnce Dns.WithRetries exampleConfig (scenarioEnv true)
                              (Sync.store (snd first)) in
   Sync.zone (Sync.store (snd first)) = foreign /\
   Sync.trace (snd second) = [Sync.ZoneCall create false] /\
   Sync.trace (snd second) <> []).
Proof.
  vm_compute.
  split; (split; [reflexivity|]; split; [reflexivity | discriminate]).
Qed.

(** The end-to-end scenario: the first cycle creates the CNAME of [app] and
    writes one endpoint, named after the resource, for https on the target,
    in the group [alpha]. *)
Example end_to_end_scenario :
  Sync.trace (snd (Sync.runOnce Dns.WithRetries exampleConfig (scenarioEnv true) emptyStore)) =
    [Sync.ZoneCall (Hetzner.CreateRecord "zone1" "app" "CNAME" "on.alpha.example.com" 3600) true;
     Sync.FileWrite "App https://10.0.4.17:443 alpha" true] /\
  Sync.zone (Sync.store (snd (Sync.runOnce Dns.WithRetries exampleConfig (scenarioEnv true)
                                emptyStore))) =
    [Hetzner.mkRRSet "app" "CNAME" 3600 ["on.alpha.example.com."]].
Proof. vm_compute. split; reflexivity. Qed.

(** * Further properties of the code *)

(** ** Strings: separators, parts and substrings *)

Lemma append_assoc (a b c : string) : (a ++ b) ++ c = a ++ (b ++ c).
Proof. induction a as [|x a IH]; [reflexivity|]. rewrite !append_cons, IH. reflexivity. Qed.

Lemma append_nil_r (a : string) : a ++ EmptyString = a.
Proof. induction a as [|x a IH]; [reflexivity|]. rewrite append_cons, IH. reflexivity. Qed.

Lemma includes_char (c x : ascii) (s : string) :
  JsString.includes (String c EmptyString) (String x s) =
  Ascii.eqb x c || JsString.includes (String c EmptyString) s.
Proof.
  rewrite includes_cons, prefix_cons, prefix_nil.
  destruct (ascii_dec c x) as [->|Hne].
  - rewrite Ascii.eqb_refl. reflexivity.
  - destruct (Ascii.eqb_spec x c) as [->|_]; [contradiction|reflexivity].
Qed.

Lemma includes_char_app (c : ascii) (a b : string) :
  JsString.includes (String c EmptyString) (a ++ b) =
  JsString.includes (String c EmptyString) a || JsString.includes (String c EmptyString) b.
Proof.
  induction a as [|x a IH].
  - change (EmptyString ++ b) with b. reflexivity.
  - rewrite append_cons, !includes_char, IH, orb_assoc. reflexivity.
Qed.

Lemma split_nonempty (sep : ascii) (s : string) : JsString.split sep s <> [].
Proof.
  destruct s as [|c s]; [discriminate|]. rewrite split_cons.
  destruct (Ascii.eqb c sep); [discriminate|].
  destruct (JsString.split sep s); discriminate.
Qed.

(** A string without the separator is its own single part. *)
Lemma split_whole (sep : ascii) (a : string) :
  JsString.includes (String sep EmptyString) a = false -> JsString.split sep a = [a].
Proof.
  induction a as [|x a IH]; intros H; [reflexivity|].
  rewrite includes_char in H. apply orb_false_iff in H as [Hx Ha].
  rewrite split_cons, Hx, (IH Ha). reflexivity.
Qed.

(** The first part ends at the first separator. *)
Lemma split_app (sep : ascii) (a b : string) :
  JsString.includes (String sep EmptyString) a = false ->
  JsString.split sep (a ++ String sep b) = a :: JsString.split sep b.
Proof.
  induction a as [|x a IH]; intros H.
  - change (EmptyString ++ String sep b) with (String sep b).
    rewrite split_cons, Ascii.eqb_refl. reflexivity.
  - rewrite includes_char in H. apply orb_false_iff in H as [Hx Ha].
    rewrite append_cons, split_cons, Hx, (IH Ha). reflexivity.
Qed.

(** No part holds the separator, and the parts joined give the string
    back. *)
Lemma split_parts_free (sep : ascii) (s p : string) :
  In p (JsString.split sep s) -> JsString.includes (String sep EmptyString) p = false.
Proof.
  revert p. induction s as [|x s IH]; intros p Hin.
  - destruct Hin as [<-|[]]. reflexivity.
  - rewrite split_cons in Hin. destruct (Ascii.eqb x sep) eqn:Hx.
    + destruct Hin as [<-|Hin]; [reflexivity|apply IH, Hin].
    + destruct (JsString.split sep s) as [|h t] eqn:Hs.
      * destruct (split_nonempty _ _ Hs).
      * destruct Hin as [<-|Hin].
        -- rewrite includes_char, Hx. apply IH. left. reflexivity.
        -- apply IH. right. exact Hin.
Qed.

Lemma join_split (sep : ascii) (s : string) :
  Gatus.join (String sep EmptyString) (JsString.split sep s) = s.
Proof.
  induction s as [|x s IH]; [reflexivity|].
  rewrite split_cons. destruct (Ascii.eqb_spec x sep) as [->|Hne].
  - destruct (JsString.split sep s) as [|h t] eqn:Hs; [destruct (split_nonempty _ _ Hs)|].
    change (Gatus.join (String sep EmptyString) (EmptyString :: h :: t))
      with (EmptyString ++ String sep EmptyString ++ Gatus.join (String sep EmptyString) (h :: t)).
    rewrite IH. reflexivity.
  - destruct (JsString.split sep s) as [|h t] eqn:Hs; [destruct (split_nonempty _ _ Hs)|].
    destruct t as [|h' t].
    + simpl in IH. subst s. reflexivity.
    + change (Gatus.join (String sep EmptyString) (String x h :: h' :: t))
        with (String x h ++ String sep EmptyString ++ Gatus.join (String sep EmptyString) (h' :: t)).
      change (Gatus.join (String sep EmptyString) (h :: h' :: t))
        with (h ++ String sep EmptyString ++ Gatus.join (String sep EmptyString) (h' :: t)) in IH.
      rewrite append_cons, IH. reflexivity.
Qed.

(** ** The /24 block of an address *)

Lemma octetOk_parseInt (part : string) :
  Topology.octetOk part = true ->
  exists n, JsString.parseInt part = Some n /\ 0 <= n <= 255.
Proof.
  unfold Topology.octetOk. destruct (JsString.parseInt part) as [n|]; [|discriminate].
  intros H. apply andb_true_iff in H as [H1 H2]. exists n. split; [reflexivity|lia].
Qed.

Lemma octetsOf_parts (ip p0 p1 p2 p3 : string) :
  JsString.split "." ip = [p0; p1; p2; p3] ->
  forallb Topology.octetOk [p0; p1; p2; p3] = true ->
  exists a b c d,
    octetsOf ip = Some (a, b, c, d) /\
    JsString.parseInt p0 = Some a /\ JsString.parseInt p1 = Some b /\
    JsString.parseInt p2 = Some c /\ JsString.parseInt p3 = Some d.
Proof.
  intros Hs Hok. simpl in Hok.
  repeat (apply andb_true_iff in Hok as [?H Hok]).
  destruct (octetOk_parseInt p0) as (a & Ha & ?); [assumption|].
  destruct (octetOk_parseInt p1) as (b & Hb & ?); [assumption|].
  destruct (octetOk_parseInt p2) as (c & Hc & ?); [assumption|].
  destruct (octetOk_parseInt p3) as (d & Hd & ?); [assumption|].
  exists a, b, c, d. unfold octetsOf. rewrite Hs, Ha, Hb, Hc, Hd.
  repeat split. simpl.
  replace (0 <=? a) with true by (symmetry; apply Z.leb_le; lia).
  replace (a <=? 255) with true by (symmetry; apply Z.leb_le; lia).
  replace (0 <=? b) with true by (symmetry; apply Z.leb_le; lia).
  replace (b <=? 255) with true by (symmetry; apply Z.leb_le; lia).
  replace (0 <=? c) with true by (symmetry; apply Z.leb_le; lia).
  replace (c <=? 255) with true by (symmetry; apply Z.leb_le; lia).
  replace (0 <=? d) with true by (symmetry; apply Z.leb_le; lia).
  replace (d <=? 255) with true by (symmetry; apply Z.leb_le; lia).
  reflexivity.
Qed.

Lemma ipToSubnet_parts (ip subnet : string) :
  Topology.ipToSubnet ip = Some subnet ->
  exists p0 p1 p2 p3,
    JsString.split "." ip = [p0; p1; p2; p3] /\
    forallb Topology.octetOk [p0; p1; p2; p3] = true /\
    subnet = p0 ++ "." ++ p1 ++ "." ++ p2 ++ ".0/24".
Proof.
  unfold Topology.ipToSubnet.
  destruct (JsString.split "." ip) as [|p0 [|p1 [|p2 [|p3 [|? ?]]]]]; try discriminate.
  destruct (forallb Topology.octetOk [p0; p1; p2; p3]) eqn:Hok; [|discriminate].
  intros [= <-]. exists p0, p1, p2, p3. repeat split. exact Hok.
Qed.

Lemma ipToSubnet_valid (ip : string) :
  Topology.ipToSubnet ip = None <-> readableQuad ip = false.
Proof.
  unfold Topology.ipToSubnet, readableQuad.
  destruct (JsString.split "." ip) as [|p0 [|p1 [|p2 [|p3 [|? ?]]]]]; try (split; reflexivity).
  change (Nat.eqb (List.length [p0; p1; p2; p3]) 4) with true.
  rewrite andb_true_l. destruct (forallb Topology.octetOk [p0; p1; p2; p3]); split; congruence.
Qed.

Lemma ipToNumber_valid (ip : string) :
  Topology.ipToNumber ip = None <-> readableQuad ip = false.
Proof.
  split; [|apply ipToNumber_malformed].
  intros Hnone. destruct (readableQuad ip) eqn:Hv; [|reflexivity]. exfalso.
  unfold readableQuad in Hv. apply andb_true_iff in Hv as [Hlen Hok].
  destruct (JsString.split "." ip) as [|p0 [|p1 [|p2 [|p3 [|? ?]]]]] eqn:Hs; try discriminate.
  destruct (octetsOf_parts ip p0 p1 p2 p3 Hs Hok) as (a & b & c & d & Ho & _).
  destruct (ipToNumber_octets _ _ _ _ _ Ho) as [Hn _]. congruence.
Qed.

Lemma block_split (p0 p1 p2 : string) :
  JsString.includes "/" p0 = false -> JsString.includes "/" p1 = false ->
  JsString.includes "/" p2 = false ->
  JsString.split "/" (p0 ++ "." ++ p1 ++ "." ++ p2 ++ ".0/24") =
    [p0 ++ "." ++ p1 ++ "." ++ p2 ++ ".0"; "24"].
Proof.
  intros H0 H1 H2.
  replace (p0 ++ "." ++ p1 ++ "." ++ p2 ++ ".0/24")
    with ((p0 ++ "." ++ p1 ++ "." ++ p2 ++ ".0") ++ String "/" "24").
  - rewrite split_app; [reflexivity|].
    rewrite !includes_char_app, H0, H1, H2. reflexivity.
  - rewrite !append_assoc. reflexivity.
Qed.

Lemma block_parts (p0 p1 p2 : string) :
  JsString.includes "." p0 = false -> JsString.includes "." p1 = false ->
  JsString.includes "." p2 = false ->
  JsString.split "." (p0 ++ "." ++ p1 ++ "." ++ p2 ++ ".0") = [p0; p1; p2; "0"].
Proof.
  intros H0 H1 H2.
  change (p0 ++ "." ++ p1 ++ "." ++ p2 ++ ".0")
    with (p0 ++ String "." (p1 ++ String "." (p2 ++ String "." "0"))).
  rewrite (split_app "." p0), (split_app "." p1), (split_app "." p2) by assumption.
  reflexivity.
Qed.

(** X1 (topology.js, ipToSubnet with ipInSubnet): the block recorded for an
    address contains the address, as long as the address holds no slash;
    ipToSubnet and ipToNumber accept the same strings; and with a slash in
    a part the block that was recorded no longer contains the address. *)
Theorem ipToSubnet_block_contains_address :
  (forall ip subnet,
     Topology.ipToSubnet ip = Some subnet ->
     JsString.includes "/" ip = false ->
     Topology.ipInSubnet ip subnet = true) /\
  (forall ip, Topology.ipToSubnet ip = None <-> Topology.ipToNumber ip = None) /\
  (Topology.ipToSubnet "1/2.0.0.0" = Some "1/2.0.0.0/24" /\
   Topology.ipInSubnet "1/2.0.0.0" "1/2.0.0.0/24" = false).
Proof.
  split; [|split].
  - intros ip subnet Hsub Hslash.
    destruct (ipToSubnet_parts _ _ Hsub) as (p0 & p1 & p2 & p3 & Hs & Hok & ->).
    destruct (octetsOf_parts _ _ _ _ _ Hs Hok) as (a & b & c & d & Ho & Ha & Hb & Hc & Hd).
    assert (Hfree : forall p, In p [p0; p1; p2; p3] -> JsString.includes "." p = false).
    { intros p Hp. apply (split_parts_free "." ip). rewrite Hs. exact Hp. }
    assert (Hjoin := join_split "." ip). rewrite Hs in Hjoin.
    change (Gatus.join "." [p0; p1; p2; p3]) with (p0 ++ "." ++ p1 ++ "." ++ p2 ++ "." ++ p3) in Hjoin.
    rewrite <- Hjoin in Hslash. rewrite !includes_char_app in Hslash.
    repeat (apply orb_false_iff in Hslash as [?Hs Hslash]).
    assert (Hblock : octetsOf (p0 ++ "." ++ p1 ++ "." ++ p2 ++ ".0") = Some (a, b, c, 0)).
    { destruct (octetsOf_parts (p0 ++ "." ++ p1 ++ "." ++ p2 ++ ".0") p0 p1 p2 "0")
        as (a' & b' & c' & d' & Ho' & Ha' & Hb' & Hc' & Hd').
      - apply block_parts; apply Hfree; simpl; auto.
      - simpl in Hok |- *. repeat (apply andb_true_iff in Hok as [?H Hok]).
        repeat (apply andb_true_iff; split); try assumption; reflexivity.
      - rewrite Ho'. vm_compute in Hd'. congruence. }
    rewrite (ipInSubnet_slash24 ip _ _ "24" a b c d a b c 0 Ho
               (block_split p0 p1 p2 ltac:(assumption) ltac:(assumption) ltac:(assumption))
               eq_refl Hblock).
    rewrite !Z.eqb_refl. reflexivity.
  - intros ip. rewrite ipToSubnet_valid, ipToNumber_valid. reflexivity.
  - split; vm_compute; reflexivity.
Qed.

Lemma ipToSubnet_block_contains_address_witness :
  Topology.ipInSubnet "10.0.4.17" "10.0.4.0/24" = true.
Proof.
  apply (proj1 ipToSubnet_block_contains_address "10.0.4.17" "10.0.4.0/24"); reflexivity.
Defined.

(** ** The mapping read from the payload *)

Lemma includes_char_join (c : ascii) (sep : string) (l : list string) (p : string) :
  In p l -> JsString.includes (String c EmptyString) p = true ->
  JsString.includes (String c EmptyString) (Gatus.join sep l) = true.
Proof.
  induction l as [|x l IH]; intros Hin Hp; [destruct Hin|].
  destruct l as [|y l].
  - destruct Hin as [->|[]]. exact Hp.
  - change (Gatus.join sep (x :: y :: l)) with (x ++ sep ++ Gatus.join sep (y :: l)).
    rewrite !includes_char_app. destruct Hin as [->|Hin].
    + rewrite Hp. reflexivity.
    + rewrite (IH Hin Hp), !orb_true_r. reflexivity.
Qed.

Lemma includes_char_part (c sep : ascii) (s p : string) :
  In p (JsString.split sep s) -> JsString.includes (String c EmptyString) p = true ->
  JsString.includes (String c EmptyString) s = true.
Proof.
  intros Hin Hp. rewrite <- (join_split sep s). eapply includes_char_join; eassumption.
Qed.

Lemma includes_char_trimStart (c : ascii) (s : string) :
  JsString.includes (String c EmptyString) (JsString.trimStart s) = true ->
  JsString.includes (String c EmptyString) s = true.
Proof.
  induction s as [|x s IH]; [intros H; exact H|].
  simpl JsString.trimStart. destruct (JsString.isWhite x); [|intros H; exact H].
  intros H. rewrite includes_char, (IH H), orb_true_r. reflexivity.
Qed.

Lemma includes_char_trimEnd (c : ascii) (s : string) :
  JsString.includes (String c EmptyString) (JsString.trimEnd s) = true ->
  JsString.includes (String c EmptyString) s = true.
Proof.
  induction s as [|x s IH]; [intros H; exact H|].
  simpl JsString.trimEnd.
  destruct (JsString.isWhite x && String.eqb (JsString.trimEnd s) EmptyString);
    [discriminate|].
  rewrite !includes_char. intros H. apply orb_true_iff in H as [H|H].
  - rewrite H. reflexivity.
  - rewrite (IH H), orb_true_r. reflexivity.
Qed.

Lemma includes_char_trim (c : ascii) (s : string) :
  JsString.includes (String c EmptyString) (JsString.trim s) = true ->
  JsString.includes (String c EmptyString) s = true.
Proof. intros H. apply includes_char_trimStart, includes_char_trimEnd, H. Qed.

Lemma objSet_length {V : Type} (k : string) (v : V) (m : list (string * V)) :
  (List.length (Topology.objSet k v m) <= S (List.length m))%nat.
Proof.
  induction m as [|[k' v'] m IH]; simpl; [lia|].
  destruct (String.eqb k' k); simpl; lia.
Qed.

Lemma parseEntry_from (mapping : list (string * string)) (entry k v : string) :
  In (k, v) (Topology.parseEntry mapping entry) ->
  In (k, v) mapping \/ fromItem entry k v.
Proof.
  unfold Topology.parseEntry, fromItem.
  destruct (JsString.includes ":" (JsString.trim entry)); simpl; [|auto].
  destruct (Topology.ipToSubnet _) as [subnet|] eqn:Hsub; [|auto].
  intros Hin. apply In_objSet in Hin as [[= -> ->]|Hin]; auto.
Qed.

Lemma parseTopology_fold (entries : list string) :
  forall mapping,
    List.NoDup (map fst mapping) ->
    List.NoDup (map fst (fold_left Topology.parseEntry entries mapping)) /\
    (List.length (fold_left Topology.parseEntry entries mapping)
     <= List.length mapping + List.length entries)%nat /\
    (forall k v, In (k, v) (fold_left Topology.parseEntry entries mapping) ->
       In (k, v) mapping \/ exists entry, In entry entries /\ fromItem entry k v).
Proof.
  induction entries as [|entry entries IH]; intros mapping Hnd.
  - simpl. split; [exact Hnd|]. split; [lia|]. auto.
  - simpl fold_left.
    assert (Hnd' : List.NoDup (map fst (Topology.parseEntry mapping entry))).
    { unfold Topology.parseEntry. destruct (negb _); [exact Hnd|].
      destruct (Topology.ipToSubnet _); [apply objSet_NoDup, Hnd|exact Hnd]. }
    assert (Hlen : (List.length (Topology.parseEntry mapping entry) <= S (List.length mapping))%nat).
    { unfold Topology.parseEntry. destruct (negb _); [lia|].
      destruct (Topology.ipToSubnet _); [apply objSet_length|lia]. }
    destruct (IH _ Hnd') as (H1 & H2 & H3). split; [exact H1|]. split; [simpl; lia|].
    intros k v Hin. destruct (H3 k v Hin) as [Hm|(e & He & Hf)].
    + apply parseEntry_from in Hm as [Hm|Hf]; [left; exact Hm|].
      right. exists entry. split; [left; reflexivity|exact Hf].
    + right. exists e. split; [right; exact He|exact Hf].
Qed.

(** X2 (topology.js, getHostSubnetMapping): the mapping read from a TXT
    payload has no repeated key and at most one entry per item; each of its
    entries comes from an item [host:ip] of the payload, with the key
    [on.host] and the /24 block of the valid address; a payload without a
    colon gives the empty mapping. *)
Theorem parseTopology_mapping_shape (txtData : string) :
  List.NoDup (map fst (Topology.parseTopology txtData)) /\
  (List.length (Topology.parseTopology txtData)
   <= List.length (JsString.split "," txtData))%nat /\
  (forall k v, In (k, v) (Topology.parseTopology txtData) ->
     exists entry,
       In entry (JsString.split "," txtData) /\
       JsString.includes ":" (JsString.trim entry) = true /\
       k = "on." ++ JsString.trim (nth 0 (JsString.split ":" (JsString.trim entry)) EmptyString) /\
       Topology.ipToSubnet
         (JsString.trim (nth 1 (JsString.split ":" (JsString.trim entry)) EmptyString)) = Some v) /\
  (JsString.includes ":" txtData = false -> Topology.parseTopology txtData = []).
Proof.
  unfold Topology.parseTopology.
  destruct (parseTopology_fold (JsString.split "," txtData) [] (List.NoDup_nil _))
    as (H1 & H2 & H3).
  split; [exact H1|]. split; [exact H2|]. split.
  - intros k v Hin. destruct (H3 k v Hin) as [[]|(e & He & Hf)].
    exists e. split; [exact He|exact Hf].
  - intros Hno.
    destruct (fold_left Topology.parseEntry (JsString.split "," txtData) []) as [|[k v] rest] eqn:Hm;
      [reflexivity|].
    destruct (H3 k v (or_introl eq_refl)) as [[]|(e & He & Hcolon & _)].
    apply includes_char_trim in Hcolon.
    rewrite (includes_char_part ":" "," txtData e He Hcolon) in Hno. discriminate.
Qed.

Lemma parseTopology_mapping_shape_witness :
  Topology.parseTopology "no mapping published" = [].
Proof.
  apply (proj2 (proj2 (proj2 (parseTopology_mapping_shape "no mapping published")))).
  reflexivity.
Defined.

(** ** The CNAME of an address *)

(** X3 (topology.js, getCnameForIp): for a mapping, an object with one
    entry per key, whose keys start with [on.], as those that
    getHostSubnetMapping builds do (no key is an array index, so
    [Object.entries] lists the entries in insertion order), the key
    returned is that of the first entry whose block contains the address;
    [null] is returned exactly when no block does, and always for an address
    that [ipToNumber] does not read: one with a part count other than four,
    or with a part that [parseInt] does not read as a number in 0..255. *)
Theorem getCnameForIp_first_match (ip : string) (mapping : list (string * string)) :
  List.NoDup (map fst mapping) ->
  (forall k v, In (k, v) mapping -> JsString.startsWith "on." k = true) ->
  match Topology.getCnameForIp ip mapping with
  | Some cname =>
      exists before subnet after,
        mapping = (before ++ (cname, subnet) :: after)%list /\
        Topology.ipInSubnet ip subnet = true /\
        forall entry, In entry before -> Topology.ipInSubnet ip (snd entry) = false
  | None => forall entry, In entry mapping -> Topology.ipInSubnet ip (snd entry) = false
  end /\
  (readableQuad ip = false -> Topology.getCnameForIp ip mapping = None).
Proof.
  intros _ _. split.
  - induction mapping as [|[cname subnet] rest IH]; simpl; [intros entry []|].
    destruct (Topology.ipInSubnet ip subnet) eqn:Hin.
    + exists [], subnet, rest. split; [reflexivity|]. split; [exact Hin|intros entry []].
    + destruct (Topology.getCnameForIp ip rest) as [found|].
      * destruct IH as (before & s & after & -> & Hs & Hb).
        exists ((cname, subnet) :: before), s, after. split; [reflexivity|].
        split; [exact Hs|]. intros entry [<-|He]; [exact Hin|apply Hb, He].
      * intros entry [<-|He]; [exact Hin|apply IH, He].
  - intros Hbad. induction mapping as [|[cname subnet] rest IH]; simpl; [reflexivity|].
    unfold Topology.ipInSubnet at 1. rewrite (ipToNumber_malformed _ Hbad). exact IH.
Qed.

Lemma getCnameForIp_first_match_witness :
  Topology.getCnameForIp "10.0.4" [("on.alpha", "10.0.4.0/24")] = None.
Proof.
  apply (proj2 (getCnameForIp_first_match "10.0.4" [("on.alpha", "10.0.4.0/24")]
                  ltac:(repeat constructor; intros [])
                  ltac:(intros k v [[= <- <-]|[]]; reflexivity))).
  reflexivity.
Defined.

(** ** Publishing a host list and reading it back *)

Lemma chars_app (a b : string) :
  list_ascii_of_string (a ++ b) = (list_ascii_of_string a ++ list_ascii_of_string b)%list.
Proof. induction a as [|x a IH]; [reflexivity|]. rewrite append_cons. simpl. rewrite IH. reflexivity. Qed.

Lemma excludes_char (c : ascii) (s : string) :
  forallb (fun x => negb (Ascii.eqb x c)) (list_ascii_of_string s) = true ->
  JsString.includes (String c EmptyString) s = false.
Proof.
  induction s as [|x s IH]; [reflexivity|]. simpl forallb. intros H.
  apply andb_true_iff in H as [Hx Hs]. rewrite includes_char, (IH Hs).
  destruct (Ascii.eqb x c); [discriminate|reflexivity].
Qed.

Lemma forallb_weaken {A : Type} (p q : A -> bool) (l : list A) :
  (forall x, p x = true -> q x = true) -> forallb p l = true -> forallb q l = true.
Proof.
  intros Hpq. induction l as [|x l IH]; [reflexivity|]. simpl. intros H.
  apply andb_true_iff in H as [Hx Hl]. rewrite (Hpq x Hx), (IH Hl). reflexivity.
Qed.

Lemma plain_no_comma (s : string) : plain s = true -> JsString.includes "," s = false.
Proof.
  intros H. apply excludes_char. revert H. apply forallb_weaken. intros x Hx.
  destruct (Ascii.eqb x ","); [|reflexivity].
  rewrite orb_true_r in Hx. discriminate.
Qed.

Lemma plain_no_colon (s : string) : plain s = true -> JsString.includes ":" s = false.
Proof.
  intros H. apply excludes_char. revert H. apply forallb_weaken. intros x Hx.
  destruct (Ascii.eqb x ":"); [|reflexivity].
  rewrite orb_true_r in Hx. discriminate.
Qed.

Lemma plain_no_white (s : string) :
  plain s = true -> forallb (fun x => negb (JsString.isWhite x)) (list_ascii_of_string s) = true.
Proof.
  apply forallb_weaken. intros x Hx. destruct (JsString.isWhite x); [discriminate|reflexivity].
Qed.

Lemma trim_no_white (s : string) :
  forallb (fun x => negb (JsString.isWhite x)) (list_ascii_of_string s) = true ->
  JsString.trim s = s.
Proof.
  intros H. unfold JsString.trim.
  assert (Hstart : JsString.trimStart s = s).
  { destruct s as [|x s]; [reflexivity|]. simpl in H |- *.
    destruct (JsString.isWhite x); [discriminate|reflexivity]. }
  rewrite Hstart. induction s as [|x s IH]; [reflexivity|].
  simpl in H. apply andb_true_iff in H as [Hx Hs]. simpl JsString.trimEnd.
  destruct (JsString.isWhite x); [discriminate|].
  rewrite IH; [reflexivity|exact Hs|].
  destruct s as [|y s]; [reflexivity|]. simpl in Hs |- *.
  destruct (JsString.isWhite y); [discriminate|reflexivity].
Qed.

Lemma plain_trim (s : string) : plain s = true -> JsString.trim s = s.
Proof. intros H. apply trim_no_white, plain_no_white, H. Qed.

Lemma item_trim (hostname ip : string) :
  plain hostname = true -> plain ip = true ->
  JsString.trim (hostname ++ ":" ++ ip) = hostname ++ ":" ++ ip.
Proof.
  intros Hh Hi. apply trim_no_white. rewrite !chars_app, !forallb_app.
  rewrite (plain_no_white _ Hh), (plain_no_white _ Hi). reflexivity.
Qed.

Lemma parseEntry_item (mapping : list (string * string)) (hostname ip : string) :
  plain hostname = true -> plain ip = true ->
  Topology.parseEntry mapping (hostname ++ ":" ++ ip) = assignHost mapping (hostname, ip).
Proof.
  intros Hh Hi. unfold Topology.parseEntry, assignHost.
  rewrite (item_trim _ _ Hh Hi).
  change (hostname ++ ":" ++ ip) with (hostname ++ String ":" ip).
  rewrite includes_char_app, includes_char, Ascii.eqb_refl, orb_true_r.
  rewrite (split_app ":" hostname ip (plain_no_colon _ Hh)).
  rewrite (split_whole ":" ip (plain_no_colon _ Hi)).
  simpl negb. cbv iota. simpl nth. rewrite (plain_trim _ Hh), (plain_trim _ Hi). reflexivity.
Qed.

Lemma split_join (sep : ascii) (items : list string) :
  items <> [] ->
  (forall item, In item items -> JsString.includes (String sep EmptyString) item = false) ->
  JsString.split sep (Gatus.join (String sep EmptyString) items) = items.
Proof.
  induction items as [|x items IH]; intros Hne Hfree; [contradiction|].
  destruct items as [|y items].
  - apply split_whole, Hfree. left. reflexivity.
  - change (Gatus.join (String sep EmptyString) (x :: y :: items))
      with (x ++ String sep (Gatus.join (String sep EmptyString) (y :: items))).
    rewrite split_app by (apply Hfree; left; reflexivity).
    rewrite IH; [reflexivity|discriminate|]. intros item Hin. apply Hfree. right. exact Hin.
Qed.

Lemma on_prefix_inj (a b : string) : "on." ++ a = "on." ++ b -> a = b.
Proof. intros H. injection H. auto. Qed.

Lemma assignHost_keeps (hosts : list (string * string)) (hostname subnet : string) :
  (forall ip, In (hostname, ip) hosts -> Topology.ipToSubnet ip = None) ->
  forall mapping,
    Sync.mapGet ("on." ++ hostname) mapping = Some subnet ->
    Sync.mapGet ("on." ++ hostname) (fold_left assignHost hosts mapping) = Some subnet.
Proof.
  induction hosts as [|[h ip] hosts IH]; intros Hlater mapping Hget; [exact Hget|].
  simpl fold_left. apply IH; [intros ip' Hin; apply Hlater; right; exact Hin|].
  unfold assignHost. simpl fst. simpl snd.
  destruct (Topology.ipToSubnet ip) as [s|] eqn:Hs; [|exact Hget].
  rewrite mapGet_objSet. destruct (String.eqb_spec ("on." ++ h) ("on." ++ hostname)) as [Heq|_];
    [|exact Hget].
  apply on_prefix_inj in Heq. subst h.
  rewrite (Hlater ip (or_introl eq_refl)) in Hs. discriminate.
Qed.

(** X4 (topology.js, getHostSubnetMapping): a list of hosts published as
    [host:ip] items separated by commas is read back as the mapping that
    assigns each host with a valid address its /24 block, in order; the
    block found for a host is that of its last valid address. *)
Theorem payload_round_trip (hosts : list (string * string)) :
  forallb (fun host => plain (fst host) && plain (snd host)) hosts = true ->
  Topology.parseTopology (payloadOf hosts) = fold_left assignHost hosts [] /\
  (forall before hostname ip after subnet,
     hosts = (before ++ (hostname, ip) :: after)%list ->
     Topology.ipToSubnet ip = Some subnet ->
     (forall ip', In (hostname, ip') after -> Topology.ipToSubnet ip' = None) ->
     Sync.mapGet ("on." ++ hostname) (Topology.parseTopology (payloadOf hosts)) = Some subnet).
Proof.
  intros Hplain.
  assert (Hread : Topology.parseTopology (payloadOf hosts) = fold_left assignHost hosts []).
  { unfold Topology.parseTopology, payloadOf.
    destruct hosts as [|host hosts]; [reflexivity|].
    rewrite split_join.
    - generalize (@nil (string * string)). revert Hplain.
      generalize (host :: hosts). clear. intros l. induction l as [|[h ip] l IH]; intros Hp m;
        [reflexivity|].
      simpl in Hp. apply andb_true_iff in Hp as [Hhi Hl]. apply andb_true_iff in Hhi as [Hh Hi].
      simpl. rewrite (parseEntry_item m h ip Hh Hi). apply IH, Hl.
    - discriminate.
    - intros item Hin. apply in_map_iff in Hin as ([h ip] & <- & Hin).
      rewrite forallb_forall in Hplain. specialize (Hplain _ Hin). simpl in Hplain.
      apply andb_true_iff in Hplain as [Hh Hi].
      change (h ++ ":" ++ ip) with (h ++ String ":" ip).
      rewrite includes_char_app, includes_char, (plain_no_comma _ Hh), (plain_no_comma _ Hi).
      reflexivity. }
  split; [exact Hread|].
  intros before hostname ip after subnet -> Hsub Hlater. rewrite Hread.
  rewrite fold_left_app. simpl fold_left. apply assignHost_keeps; [exact Hlater|].
  unfold assignHost at 1. simpl fst. simpl snd. rewrite Hsub, mapGet_objSet, String.eqb_refl.
  reflexivity.
Qed.

Lemma payload_round_trip_witness :
  Topology.parseTopology "alpha:10.0.4.5,beta:10.0.5.9,alpha:10.0.6.1" =
    [("on.alpha", "10.0.6.0/24"); ("on.beta", "10.0.5.0/24")].
Proof.
  apply (proj1 (payload_round_trip [("alpha", "10.0.4.5"); ("beta", "10.0.5.9");
                                    ("alpha", "10.0.6.1")] eq_refl)).
Defined.

(** ** The generator's view of the mapping *)

Lemma prefix_drop (p s : string) :
  String.prefix p s = true -> s = p ++ JsString.drop (String.length p) s.
Proof.
  revert s. induction p as [|a p IH]; intros s H; [reflexivity|].
  destruct s as [|b s]; [discriminate|]. rewrite prefix_cons in H.
  destruct (ascii_dec a b) as [->|]; [|discriminate].
  rewrite append_cons. simpl. f_equal. apply IH, H.
Qed.

Lemma drop_append (p s : string) : JsString.drop (String.length p) (p ++ s) = s.
Proof. induction p as [|a p IH]; [reflexivity|]. rewrite append_cons. simpl. exact IH. Qed.

Lemma prefix_append (p s : string) : String.prefix p (p ++ s) = true.
Proof.
  induction p as [|a p IH]; [apply prefix_nil|]. rewrite append_cons, prefix_cons.
  destruct (ascii_dec a a); [exact IH|contradiction].
Qed.

(** Removing the prefix [on.] of a key gives the hostname back. *)
Lemma replace_on (hostname : string) :
  JsString.replace "on." EmptyString ("on." ++ hostname) = hostname.
Proof.
  destruct hostname; reflexivity.
Qed.

Lemma on_key (k : string) :
  JsString.startsWith "on." k = true ->
  k = "on." ++ JsString.replace "on." EmptyString k.
Proof.
  intros H. apply (prefix_drop "on." k) in H. rewrite H at 2. rewrite replace_on. exact H.
Qed.

Lemma objSet_fresh {V : Type} (k : string) (v : V) (m : list (string * V)) :
  Sync.mapHas k m = false -> Topology.objSet k v m = (m ++ [(k, v)])%list.
Proof.
  induction m as [|[k' v'] m IH]; [reflexivity|]. unfold Sync.mapHas. simpl.
  intros H. apply orb_false_iff in H as [Hk Hm]. rewrite Hk. f_equal. apply IH, Hm.
Qed.

Lemma setAdd_In (x y : string) (s : list string) :
  In y (Gatus.setAdd x s) <-> y = x \/ In y s.
Proof.
  unfold Gatus.setAdd. destruct (JsString.inList x s) eqn:Hx.
  - apply inList_In in Hx. split; [auto|]. intros [->|H]; assumption.
  - rewrite in_app_iff. simpl. split; intros [H|H]; auto.
    + destruct H as [<-|[]]. auto.
Qed.

Lemma setAdd_NoDup (x : string) (s : list string) :
  List.NoDup s -> List.NoDup (Gatus.setAdd x s).
Proof.
  intros Hnd. unfold Gatus.setAdd. destruct (JsString.inList x s) eqn:Hx; [exact Hnd|].
  apply NoDup_snoc; [exact Hnd|]. intros Hin. apply inList_In in Hin. congruence.
Qed.

(** The loop of [updateHostMapping], entered with the generator [g]. *)
Lemma updateHostMapping_loop (whole entries : list (string * string)) :
  forall g,
    List.NoDup (Gatus.hostnames g) ->
    List.NoDup (map fst (Gatus.subnetToHostname g)) ->
    let g' := fold_left (fun g '(cname, subnet) =>
                           let hostname := JsString.replace "on." EmptyString cname in
                           Gatus.mkGenerator whole
                             (Topology.objSet subnet hostname (Gatus.subnetToHostname g))
                             (Gatus.setAdd hostname (Gatus.hostnames g)))
                        entries g in
    List.NoDup (Gatus.hostnames g') /\
    List.NoDup (map fst (Gatus.subnetToHostname g')) /\
    (forall h, In h (Gatus.hostnames g') <->
               In h (Gatus.hostnames g) \/
               exists k, In k (map fst entries) /\ h = JsString.replace "on." EmptyString k) /\
    (forall subnet h, In (subnet, h) (Gatus.subnetToHostname g') ->
       In (subnet, h) (Gatus.subnetToHostname g) \/
       exists k, In (k, subnet) entries /\ h = JsString.replace "on." EmptyString k) /\
    (entries <> [] -> Gatus.hostMapping g' = whole).
Proof.
  induction entries as [|[cname subnet] entries IH]; intros g Hnd Hnd'.
  - simpl. split; [exact Hnd|]. split; [exact Hnd'|]. split; [|split; [auto|intros H; contradiction]].
    intros h. split; [auto|]. intros [H|(k & [] & _)]. exact H.
  - simpl fold_left.
    set (g1 := Gatus.mkGenerator whole _ _).
    destruct (IH g1) as (H1 & H1' & H2 & H3 & H4);
      [apply setAdd_NoDup, Hnd|apply objSet_NoDup, Hnd'|].
    split; [exact H1|]. split; [exact H1'|]. split; [|split].
    + intros h. rewrite H2. unfold g1. simpl Gatus.hostnames. rewrite setAdd_In. split.
      * intros [[->|Hg]|(k & Hk & ->)]; [right|left; exact Hg|right].
        -- exists cname. split; [left; reflexivity|reflexivity].
        -- exists k. split; [right; exact Hk|reflexivity].
      * intros [Hg|(k & [<-|Hk] & ->)]; [left; right; exact Hg|left; left; reflexivity|].
        right. exists k. split; [exact Hk|reflexivity].
    + intros s h Hin. destruct (H3 s h Hin) as [Hg|(k & Hk & ->)].
      * unfold g1 in Hg. simpl in Hg. apply In_objSet in Hg as [[= -> ->]|Hg]; [right|left; exact Hg].
        exists cname. split; [left; reflexivity|reflexivity].
      * right. exists k. split; [right; exact Hk|reflexivity].
    + intros _. destruct entries as [|e entries]; [reflexivity|]. apply H4. discriminate.
Qed.

(** X5 (gatus.js, updateHostMapping, on the mapping of topology.js): the
    hostnames the generator keeps are exactly the keys of the mapping
    without their prefix [on.], none of them twice, and each block it knows
    is listed under a host that the mapping places in that block. *)
Theorem updateHostMapping_recovers_hostnames (mapping : list (string * string)) :
  (forall k v, In (k, v) mapping -> JsString.startsWith "on." k = true) ->
  let g := Gatus.updateHostMapping mapping in
  Gatus.hostMapping g = mapping /\
  List.NoDup (Gatus.hostnames g) /\
  (forall h, In h (Gatus.hostnames g) <-> In ("on." ++ h) (map fst mapping)) /\
  List.NoDup (map fst (Gatus.subnetToHostname g)) /\
  (forall subnet h, In (subnet, h) (Gatus.subnetToHostname g) -> In ("on." ++ h, subnet) mapping).
Proof.
  intros Hkeys g. subst g. unfold Gatus.updateHostMapping.
  destruct (updateHostMapping_loop mapping mapping (Gatus.mkGenerator mapping [] []))
    as (H1 & H1' & H2 & H3 & H4); [constructor|constructor|].
  split; [|split; [exact H1|split; [|split; [exact H1'|]]]].
  - destruct mapping as [|e mapping]; [reflexivity|]. apply H4. discriminate.
  - intros h. rewrite H2. cbn [Gatus.hostnames In]. split.
    + intros [[]|(k & Hk & ->)]. apply in_map_iff in Hk as ([k' v] & <- & Hin).
      cbn [fst]. rewrite <- (on_key k' (Hkeys _ _ Hin)). apply in_map_iff. exists (k', v). auto.
    + intros Hin. right. exists ("on." ++ h). split; [exact Hin|]. rewrite replace_on. reflexivity.
  - intros s h Hin. destruct (H3 s h Hin) as [[]|(k & Hk & ->)].
    rewrite <- (on_key k (Hkeys _ _ Hk)). exact Hk.
Qed.

Lemma updateHostMapping_recovers_hostnames_witness :
  In ("on." ++ "beta") (map fst (Topology.parseTopology "alpha:10.0.4.5, beta:10.0.5.9")).
Proof.
  apply (proj1 (proj1 (proj2 (proj2 (updateHostMapping_recovers_hostnames
                                       (Topology.parseTopology "alpha:10.0.4.5, beta:10.0.5.9")
                                       (parseTopology_keys "alpha:10.0.4.5, beta:10.0.5.9"))))
                      "beta")).
  vm_compute. right. left. reflexivity.
Defined.

(** ** The group of a target *)

Lemma subnetToHostname_distinct (whole entries : list (string * string)) :
  forall g,
    List.NoDup (map fst (Gatus.subnetToHostname g) ++ map snd entries)%list ->
    Gatus.subnetToHostname
      (fold_left (fun g '(cname, subnet) =>
                    let hostname := JsString.replace "on." EmptyString cname in
                    Gatus.mkGenerator whole
                      (Topology.objSet subnet hostname (Gatus.subnetToHostname g))
                      (Gatus.setAdd hostname (Gatus.hostnames g)))
                 entries g) =
    (Gatus.subnetToHostname g
     ++ map (fun entry => (snd entry, JsString.replace "on." EmptyString (fst entry))) entries)%list.
Proof.
  induction entries as [|[cname subnet] entries IH]; intros g Hnd.
  - simpl. rewrite app_nil_r. reflexivity.
  - simpl fold_left. simpl map in Hnd.
    assert (Hfresh : Sync.mapHas subnet (Gatus.subnetToHostname g) = false).
    { destruct (Sync.mapHas subnet (Gatus.subnetToHostname g)) eqn:Hhas; [|reflexivity].
      exfalso. apply List.NoDup_remove_2 in Hnd. apply Hnd. apply in_or_app. left.
      unfold Sync.mapHas in Hhas. apply existsb_exists in Hhas as ([k v] & Hin & Hk).
      apply String.eqb_eq in Hk. simpl in Hk. subst k. apply in_map_iff. exists (subnet, v). auto. }
    rewrite IH.
    + simpl Gatus.subnetToHostname. rewrite (objSet_fresh _ _ _ Hfresh), <- app_assoc. reflexivity.
    + simpl Gatus.subnetToHostname. rewrite (objSet_fresh _ _ _ Hfresh), map_app, <- app_assoc.
      cbn [map fst app]. exact Hnd.
Qed.

Lemma firstSubnet_cname (ip : string) (mapping : list (string * string)) :
  Gatus.firstSubnet ip
    (map (fun entry => (snd entry, JsString.replace "on." EmptyString (fst entry))) mapping) =
  JsString.replace "on." EmptyString <$> Topology.getCnameForIp ip mapping.
Proof.
  induction mapping as [|[c s] mapping IH]; [reflexivity|]. simpl.
  destruct (Topology.ipInSubnet ip s); [reflexivity|exact IH].
Qed.

(** X6 (gatus.js, getGroupForTarget, with getCnameForIp of topology.js):
    when no two hosts of the mapping have the same block, the group of a
    target is the host whose CNAME the target gets.  When two hosts share a
    block the CNAME is that of the first host and the group is the last
    host. *)
Theorem group_agrees_with_cname :
  (forall (mapping : list (string * string)) (ip domain' cname : string),
     List.NoDup (map snd mapping) ->
     Topology.getCnameForIp ip mapping = Some cname ->
     Gatus.getGroupForTarget (Gatus.updateHostMapping mapping) ip domain' =
       JsString.replace "on." EmptyString cname) /\
  (let shared := [("on.alpha", "10.0.4.0/24"); ("on.beta", "10.0.4.0/24")] in
   Topology.getCnameForIp "10.0.4.17" shared = Some "on.alpha" /\
   Gatus.getGroupForTarget (Gatus.updateHostMapping shared) "10.0.4.17" "app.example.com" = "beta").
Proof.
  split; [|split; vm_compute; reflexivity].
  intros mapping ip domain' cname Hnd Hc.
  unfold Gatus.getGroupForTarget, Gatus.updateHostMapping.
  rewrite subnetToHostname_distinct by exact Hnd.
  simpl app. rewrite firstSubnet_cname, Hc. reflexivity.
Qed.

Lemma group_agrees_with_cname_witness :
  Gatus.getGroupForTarget
    (Gatus.updateHostMapping [("on.alpha", "10.0.4.0/24"); ("on.beta", "10.0.5.0/24")])
    "10.0.5.9" "app.example.com" = "beta".
Proof.
  apply (proj1 group_agrees_with_cname
           [("on.alpha", "10.0.4.0/24"); ("on.beta", "10.0.5.0/24")]
           "10.0.5.9" "app.example.com" "on.beta").
  - repeat constructor; simpl; intuition discriminate.
  - reflexivity.
Defined.

(** ** The status codes an endpoint accepts *)

Lemma includes_refl (s : string) : JsString.includes s s = true.
Proof.
  destruct s as [|c s]; [reflexivity|]. rewrite includes_cons.
  rewrite <- (append_nil_r (String c s)) at 2. rewrite prefix_append. reflexivity.
Qed.

Lemma insertSorted_In (x y : Z) (l : list Z) : In y (Gatus.insertSorted x l) <-> y = x \/ In y l.
Proof.
  induction l as [|z l IH]; simpl; [intuition|].
  destruct (x <=? z); simpl; [intuition|]. rewrite IH. intuition.
Qed.

Lemma increasing_cons (x : Z) (l : list Z) :
  increasing (x :: l) = true <-> (forall y, In y l -> x < y) /\ increasing l = true.
Proof.
  revert x. induction l as [|z l IH]; intros x.
  - simpl. split; [intros _; split; [intros y []|reflexivity]|reflexivity].
  - change (increasing (x :: z :: l)) with ((x <? z) && increasing (z :: l)).
    rewrite andb_true_iff, Z.ltb_lt. split.
    + intros [Hxz Hl]. split; [|exact Hl]. intros y [<-|Hy]; [exact Hxz|].
      apply IH in Hl as [Hz _]. specialize (Hz y Hy). lia.
    + intros [Hall Hl]. split; [apply Hall; left; reflexivity|exact Hl].
Qed.

Lemma insertSorted_increasing (x : Z) (l : list Z) :
  increasing l = true -> ~ In x l -> increasing (Gatus.insertSorted x l) = true.
Proof.
  induction l as [|z l IH]; intros Hl Hx; [reflexivity|].
  simpl Gatus.insertSorted. destruct (x <=? z) eqn:Hxz.
  - apply Z.leb_le in Hxz. apply increasing_cons. split; [|exact Hl].
    assert (x < z) by (assert (z <> x) by (intros ->; apply Hx; left; reflexivity); lia).
    apply increasing_cons in Hl as [Hz _].
    intros y [<-|Hy]; [assumption|]. specialize (Hz y Hy). lia.
  - apply Z.leb_gt in Hxz. apply increasing_cons in Hl as [Hz Hl].
    apply increasing_cons. split.
    + intros y Hy. apply insertSorted_In in Hy as [->|Hy]; [exact Hxz|apply Hz, Hy].
    + apply IH; [exact Hl|]. intros Hin. apply Hx. right. exact Hin.
Qed.

Lemma existsb_eqb_In (x : Z) (l : list Z) : existsb (Z.eqb x) l = true <-> In x l.
Proof.
  rewrite existsb_exists. split.
  - intros (y & Hy & Heq). apply Z.eqb_eq in Heq. subst y. exact Hy.
  - intros H. exists x. split; [exact H|apply Z.eqb_refl].
Qed.

Lemma sortUnique_spec (codes : list Z) :
  increasing (Gatus.sortUnique codes) = true /\
  forall c, In c (Gatus.sortUnique codes) <-> In c codes.
Proof.
  induction codes as [|x codes [IHs IHm]]; [split; [reflexivity|intros c; reflexivity]|].
  unfold Gatus.sortUnique. simpl fold_right. fold (Gatus.sortUnique codes).
  destruct (existsb (Z.eqb x) (Gatus.sortUnique codes)) eqn:Hx.
  - split; [exact IHs|]. intros c. rewrite IHm. simpl. split; [auto|].
    intros [<-|H]; [|exact H]. apply IHm, existsb_eqb_In, Hx.
  - split.
    + apply insertSorted_increasing; [exact IHs|]. intros Hin.
      apply existsb_eqb_In in Hin. congruence.
    + intros c. rewrite insertSorted_In, IHm. simpl. intuition.
Qed.

(** On strings, the test of a pattern and the two loops never throw. *)
Lemma matchesPattern_plain (subdomain name pattern : string) :
  Gatus.matchesPattern (Proto.Plain subdomain) (Proto.Plain name) pattern =
    Returned (JsString.includes (JsString.toLowerCase pattern) (JsString.toLowerCase subdomain)
              || JsString.includes (JsString.toLowerCase pattern) (JsString.toLowerCase name)
              || String.eqb (JsString.toLowerCase subdomain) (JsString.toLowerCase pattern)
              || String.eqb (JsString.toLowerCase name) (JsString.toLowerCase pattern)).
Proof.
  unfold Gatus.matchesPattern. cbn [Gatus.lower mbind outcome_bind bindO].
  destruct (JsString.includes _ (JsString.toLowerCase subdomain)); [reflexivity|].
  cbn [mbind outcome_bind bindO orb].
  destruct (JsString.includes _ (JsString.toLowerCase name)); [reflexivity|].
  cbn [mbind outcome_bind bindO orb].
  destruct (String.eqb (JsString.toLowerCase subdomain) _); reflexivity.
Qed.

Lemma anyPattern_plain (subdomain name : string) (patterns : list string) :
  Gatus.anyPattern (Proto.Plain subdomain) (Proto.Plain name) patterns =
    Returned (existsb (fun pattern =>
                JsString.includes (JsString.toLowerCase pattern) (JsString.toLowerCase subdomain)
                || JsString.includes (JsString.toLowerCase pattern) (JsString.toLowerCase name)
                || String.eqb (JsString.toLowerCase subdomain) (JsString.toLowerCase pattern)
                || String.eqb (JsString.toLowerCase name) (JsString.toLowerCase pattern))
              patterns).
Proof.
  induction patterns as [|pattern rest IH]; [reflexivity|].
  cbn [Gatus.anyPattern existsb]. rewrite matchesPattern_plain. cbn [bindO].
  destruct (_ || _ || _ || _); [reflexivity|exact IH].
Qed.

Lemma collectCodes_plain (subdomain name : string) (table : list (Z * list string))
    (baseCodes : list Z) :
  Gatus.collectCodes (Proto.Plain subdomain) (Proto.Plain name) table baseCodes =
    Returned
      (fold_left
         (fun base '(codeNum, allowedSubdomains) =>
            if existsb (Z.eqb codeNum) base then base
            else if existsb (fun pattern =>
                       JsString.includes (JsString.toLowerCase pattern)
                                         (JsString.toLowerCase subdomain)
                       || JsString.includes (JsString.toLowerCase pattern)
                                            (JsString.toLowerCase name)
                       || String.eqb (JsString.toLowerCase subdomain)
                                     (JsString.toLowerCase pattern)
                       || String.eqb (JsString.toLowerCase name)
                                     (JsString.toLowerCase pattern))
                     allowedSubdomains
            then (base ++ [codeNum])%list else base)
         table baseCodes).
Proof.
  revert baseCodes. induction table as [|[codeNum allowed] rest IH]; intros baseCodes;
    [reflexivity|].
  cbn [Gatus.collectCodes fold_left].
  destruct (existsb (Z.eqb codeNum) baseCodes); [apply IH|].
  rewrite anyPattern_plain. cbn [bindO]. apply IH.
Qed.

(** X7 (gatus.js, getAllowedCodesForSubdomain): for a subdomain and a name
    that are strings the call returns, and the codes returned are in strictly
    increasing order (so none twice); they are the codes allowed for every
    endpoint together with each code configured for a pattern that occurs,
    letter case apart, in the subdomain or in the name. *)
Theorem allowed_codes_sorted_and_complete (cfg : Config) (subdomain name : string) :
  exists codes,
    Gatus.getAllowedCodesForSubdomain cfg (Proto.Plain subdomain) (Proto.Plain name)
      = Returned codes /\
    increasing codes = true /\
    forall code,
      In code codes <->
      In code (gatusAllowedHttpCodes cfg) \/
      exists patterns pattern,
        In (code, patterns) (gatusSubdomainHttpCodes cfg) /\ In pattern patterns /\
        (JsString.includes (JsString.toLowerCase pattern) (JsString.toLowerCase subdomain) = true \/
         JsString.includes (JsString.toLowerCase pattern) (JsString.toLowerCase name) = true).
Proof.
  unfold Gatus.getAllowedCodesForSubdomain. rewrite collectCodes_plain.
  cbn [mbind outcome_bind bindO]. eexists. split; [reflexivity|].
  match goal with |- context [Gatus.sortUnique ?l] => destruct (sortUnique_spec l) as [Hs Hm] end.
  split; [exact Hs|]. intros code. rewrite Hm. clear Hs Hm.
  generalize (gatusAllowedHttpCodes cfg) as base.
  induction (gatusSubdomainHttpCodes cfg) as [|[codeNum pats] rest IH]; intros base.
  - simpl. split; [auto|]. intros [H|(? & ? & [] & _)]. exact H.
  - simpl fold_left. rewrite IH. clear IH.
    assert (Hmatch : forall pattern,
              (JsString.includes (JsString.toLowerCase pattern) (JsString.toLowerCase subdomain)
               || JsString.includes (JsString.toLowerCase pattern) (JsString.toLowerCase name)
               || String.eqb (JsString.toLowerCase subdomain) (JsString.toLowerCase pattern)
               || String.eqb (JsString.toLowerCase name) (JsString.toLowerCase pattern)) = true <->
              (JsString.includes (JsString.toLowerCase pattern) (JsString.toLowerCase subdomain) = true \/
               JsString.includes (JsString.toLowerCase pattern) (JsString.toLowerCase name) = true)).
    { intros pattern. rewrite !orb_true_iff, !String.eqb_eq. split; [|tauto].
      intros [[[H|H]|H]|H]; auto.
      - left. rewrite H. apply includes_refl.
      - right. rewrite H. apply includes_refl. }
    cbv beta iota. destruct (existsb (Z.eqb codeNum) base) eqn:Hin.
    + apply existsb_eqb_In in Hin. split.
      * intros [H|(ps & p & Hps & Hp)]; [auto|]. right. exists ps, p. split; [right|]; tauto.
      * intros [H|(ps & p & [[= <- <-]|Hps] & Hp)]; [auto|auto|].
        right. exists ps, p. tauto.
    + destruct (existsb _ pats) eqn:Hany.
      * apply existsb_exists in Hany as (p & Hp & Hmp). apply Hmatch in Hmp.
        rewrite in_app_iff. simpl. split.
        -- intros [[H|[<-|[]]]|(ps & q & Hps & Hq)]; [auto| |].
           ++ right. exists pats, p. split; [left; reflexivity|tauto].
           ++ right. exists ps, q. split; [right|]; tauto.
        -- intros [H|(ps & q & [[= <- <-]|Hps] & Hq)]; [auto|auto|].
           right. exists ps, q. tauto.
      * split.
        -- intros [H|(ps & q & Hps & Hq)]; [auto|]. right. exists ps, q. split; [right|]; tauto.
        -- intros [H|(ps & q & [[= <- <-]|Hps] & Hq & Hmq)]; [auto| |].
           ++ exfalso. apply Hmatch in Hmq. apply not_true_iff_false in Hany. apply Hany.
              apply existsb_exists. exists q. split; [exact Hq|exact Hmq].
           ++ right. exists ps, q. tauto.
Qed.

(** ** Names that are left out of the monitoring *)

Lemma includes_occurs (sub s : string) :
  JsString.includes sub s = true <-> exists before after, s = before ++ sub ++ after.
Proof.
  split.
  - induction s as [|c s IH].
    + unfold JsString.includes. rewrite orb_false_r. intros H.
      exists EmptyString, (JsString.drop (String.length sub) EmptyString).
      apply prefix_drop, H.
    + rewrite includes_cons. intros H. apply orb_true_iff in H as [H|H].
      * exists EmptyString, (JsString.drop (String.length sub) (String c s)).
        apply prefix_drop, H.
      * destruct (IH H) as (before & after & ->).
        exists (String c before), after. reflexivity.
  - intros (before & after & ->). induction before as [|c before IH].
    + change (EmptyString ++ sub ++ after) with (sub ++ after).
      destruct (sub ++ after) as [|c r] eqn:Heq.
      * destruct sub; [reflexivity|discriminate].
      * rewrite includes_cons, <- Heq, prefix_append. reflexivity.
    + rewrite append_cons, includes_cons, IH, orb_true_r. reflexivity.
Qed.

Lemma includes_trans (a b c : string) :
  JsString.includes a b = true -> JsString.includes b c = true -> JsString.includes a c = true.
Proof.
  intros Hab Hbc. apply includes_occurs in Hab as (p & q & ->).
  apply includes_occurs in Hbc as (p' & q' & ->). apply includes_occurs.
  exists (p' ++ p), (q ++ q'). rewrite !append_assoc. reflexivity.
Qed.

Lemma existsb_weaken {A : Type} (p q : A -> bool) (l : list A) :
  (forall x, p x = true -> q x = true) -> existsb p l = true -> existsb q l = true.
Proof.
  intros Hpq H. apply existsb_exists in H as (x & Hx & Hp). apply existsb_exists.
  exists x. split; [exact Hx|apply Hpq, Hp].
Qed.

(** X8 (gatus.js, shouldSkipEndpoint): the rules match by substring, so a
    name that is skipped takes with it every name that contains it; only the
    empty name, which the entry [''] of the ignore list matches by equality,
    is an exception. *)
Theorem shouldSkipEndpoint_closed_under_containment :
  (forall (cfg : Config) (g : Gatus.Generator) (name longer : string),
     Gatus.shouldSkipEndpoint cfg g name = true ->
     name <> EmptyString ->
     JsString.includes name longer = true ->
     Gatus.shouldSkipEndpoint cfg g longer = true) /\
  (forall (cfg : Config) (g : Gatus.Generator) (name : string),
     ignoreSubdomains cfg = [EmptyString] ->
     Gatus.hostnames g = [] ->
     Gatus.shouldSkipEndpoint cfg g name = String.eqb EmptyString name).
Proof.
  split.
  - intros cfg g name longer Hskip Hne Hin. unfold Gatus.shouldSkipEndpoint in *.
    apply orb_true_iff in Hskip as [Hskip|Hskip]; [apply orb_true_iff in Hskip as [Hskip|Hskip]|].
    + apply orb_true_iff. left. apply orb_true_iff. left. revert Hskip.
      apply existsb_weaken. intros ignored H. apply orb_true_iff. right.
      apply orb_true_iff in H as [H|H].
      * apply String.eqb_eq in H. subst ignored.
        destruct (String.eqb_spec name EmptyString) as [->|_]; [contradiction|exact Hin].
      * apply andb_true_iff in H as [Hn Hi]. rewrite Hn. simpl. exact (includes_trans _ _ _ Hi Hin).
    + apply orb_true_iff. left. apply orb_true_iff. right.
      apply andb_true_iff in Hskip as [Hflag Hskip]. rewrite Hflag. simpl. revert Hskip.
      apply existsb_weaken. intros hostname H. apply orb_true_iff in H as [H|H].
      * rewrite (includes_trans _ _ _ H Hin). reflexivity.
      * rewrite (includes_trans _ _ _ H Hin), orb_true_r. reflexivity.
    + apply orb_true_iff. right.
      apply andb_true_iff in Hskip as [Hflag Hskip]. rewrite Hflag. simpl. revert Hskip.
      apply existsb_weaken. intros hostname H. exact (includes_trans _ _ _ H Hin).
  - intros cfg g name Hign Hhosts. unfold Gatus.shouldSkipEndpoint. rewrite Hign, Hhosts.
    cbn [existsb]. rewrite !andb_false_r, !orb_false_r. reflexivity.
Qed.

Lemma shouldSkipEndpoint_closed_under_containment_witness :
  Gatus.shouldSkipEndpoint
    (mkConfig "example.com" "org" "zone1" [] ["vpn"] ∅ (mkDefaults None None None) [200] [] ∅
              true false)
    (Gatus.mkGenerator [] [] []) "vpn-admin.example.com" = true /\
  Gatus.shouldSkipEndpoint
    (mkConfig "example.com" "org" "zone1" [] [EmptyString] ∅ (mkDefaults None None None) [200] [] ∅
              true false)
    (Gatus.mkGenerator [] [] []) "app" = false.
Proof.
  split.
  - apply (proj1 shouldSkipEndpoint_closed_under_containment _ _ "vpn" "vpn-admin.example.com");
      [reflexivity|discriminate|reflexivity].
  - rewrite (proj2 shouldSkipEndpoint_closed_under_containment
               (mkConfig "example.com" "org" "zone1" [] [EmptyString] ∅ (mkDefaults None None None)
                         [200] [] ∅ true false)
               (Gatus.mkGenerator [] [] []) "app" eq_refl eq_refl).
    reflexivity.
Defined.

(** ** The endpoints of a configuration *)











(** ** Listing a zone page by page *)

Lemma paged_loop (request : Z -> outcome Error HetznerPaged.Page) (zoneId : string)
    (final : outcome Error HetznerPaged.Page) (pages : list HetznerPaged.Page) :
  forall (k : nat) (acc : list Hetzner.ZoneRecord) (fuel : nat),
    (forall i data, nth_error pages i = Some data ->
       request (Z.of_nat (k + i) + 1) = Returned data /\
       Z.of_nat (k + i) + 1 < HetznerPaged.lastOf data) ->
    request (Z.of_nat (k + List.length pages) + 1) = final ->
    match final with
    | Returned data => HetznerPaged.lastOf data <= Z.of_nat (k + List.length pages) + 1
    | Thrown _ => True
    end ->
    (List.length pages < fuel)%nat ->
    HetznerPaged.loop fuel request zoneId (Z.of_nat k + 1) acc =
      Some match final with
           | Returned data =>
               Returned (acc ++ flat_map (Hetzner.flatten zoneId)
                                         (flat_map HetznerPaged.rrsets (pages ++ [data])))%list
           | Thrown e => Thrown e
           end.
Proof.
  induction pages as [|first pages IH]; intros k acc fuel Hpages Hfinal Hlast Hfuel.
  - destruct fuel as [|fuel]; [simpl in Hfuel; lia|]. simpl HetznerPaged.loop.
    simpl List.length in Hfinal, Hlast. rewrite Nat.add_0_r in Hfinal, Hlast. rewrite Hfinal.
    destruct final as [data|e]; [|reflexivity].
    replace (Z.of_nat k + 1 >=? HetznerPaged.lastOf data) with true
      by (symmetry; apply Z.geb_le; lia).
    simpl. rewrite app_nil_r. reflexivity.
  - destruct fuel as [|fuel]; [simpl in Hfuel; lia|]. simpl HetznerPaged.loop.
    destruct (Hpages 0%nat first eq_refl) as [Hreq Hmore]. rewrite Nat.add_0_r in Hreq, Hmore.
    rewrite Hreq.
    replace (Z.of_nat k + 1 >=? HetznerPaged.lastOf first) with false
      by (symmetry; rewrite Z.geb_leb; apply Z.leb_gt; lia).
    replace (Z.of_nat k + 1 + 1) with (Z.of_nat (S k) + 1) by lia.
    rewrite (IH (S k)).
    + destruct final as [data|e]; [|reflexivity]. simpl. rewrite !flat_map_app, <- !app_assoc.
      reflexivity.
    + intros i data Hi. replace (S k + i)%nat with (k + S i)%nat by lia. apply Hpages. exact Hi.
    + simpl List.length in Hfinal. replace (S k + List.length pages)%nat
        with (k + S (List.length pages))%nat by lia. exact Hfinal.
    + simpl List.length in Hlast. replace (S k + List.length pages)%nat
        with (k + S (List.length pages))%nat by lia. exact Hlast.
    + simpl in Hfuel. lia.
Qed.

Lemma paged_loop_unending (request : Z -> outcome Error HetznerPaged.Page) (zoneId : string) :
  (forall page, exists data, request page = Returned data /\ page < HetznerPaged.lastOf data) ->
  forall fuel page acc, HetznerPaged.loop fuel request zoneId page acc = None.
Proof.
  intros Hmore. induction fuel as [|fuel IH]; intros page acc; [reflexivity|].
  simpl. destruct (Hmore page) as (data & -> & Hlt).
  replace (page >=? HetznerPaged.lastOf data) with false
    by (symmetry; rewrite Z.geb_leb; apply Z.leb_gt; lia).
  apply IH.
Qed.

(** X10 (hetzner.js, listRecords): the pages are requested from the first
    on, up to the first whose number reaches the last page it announces (1
    when it announces none); the result is the records of these pages in
    order, each value of each record set once; if the request of one of them
    fails, the records of the pages before are dropped and the result is
    empty.  When every page announces a later last page the loop does not
    end.  A zone that fits on one page is listed as [Hetzner.listRecords]
    has it. *)
Theorem listRecords_page_by_page
    (request : Z -> outcome Error HetznerPaged.Page) (zoneId : string) :
  (forall (pages : list HetznerPaged.Page) (final : outcome Error HetznerPaged.Page) (fuel : nat),
     (forall i data, nth_error pages i = Some data ->
        request (Z.of_nat i + 1) = Returned data /\
        Z.of_nat i + 1 < HetznerPaged.lastOf data) ->
     request (Z.of_nat (List.length pages) + 1) = final ->
     match final with
     | Returned data => HetznerPaged.lastOf data <= Z.of_nat (List.length pages) + 1
     | Thrown _ => True
     end ->
     (List.length pages < fuel)%nat ->
     HetznerPaged.listRecords fuel request zoneId =
       Some match final with
            | Returned data =>
                flat_map (Hetzner.flatten zoneId)
                         (flat_map HetznerPaged.rrsets (pages ++ [data]))%list
            | Thrown _ => []
            end) /\
  ((forall page, exists data, request page = Returned data /\ page < HetznerPaged.lastOf data) ->
   forall fuel, HetznerPaged.listRecords fuel request zoneId = None) /\
  (forall (zone : list Hetzner.RRSet) (announced : Z) (fuel : nat),
     request 1 = Returned (HetznerPaged.mkPage zone announced) ->
     announced <= 1 ->
     HetznerPaged.listRecords (S fuel) request zoneId =
       Some (Hetzner.listRecords true zoneId zone)) /\
  (forall (e : Error) (zone : list Hetzner.RRSet) (fuel : nat),
     request 1 = Thrown e ->
     HetznerPaged.listRecords (S fuel) request zoneId =
       Some (Hetzner.listRecords false zoneId zone)).
Proof.
  split; [|split; [|split]].
  - intros pages final fuel Hpages Hfinal Hlast Hfuel. unfold HetznerPaged.listRecords.
    pose proof (paged_loop request zoneId final pages 0 [] fuel Hpages Hfinal Hlast Hfuel) as H.
    change (Z.of_nat 0 + 1) with 1 in H. rewrite H.
    destruct final; reflexivity.
  - intros Hmore fuel. unfold HetznerPaged.listRecords.
    rewrite (paged_loop_unending request zoneId Hmore). reflexivity.
  - intros zone announced fuel Hreq Hle. unfold HetznerPaged.listRecords. simpl. rewrite Hreq.
    replace (1 >=? HetznerPaged.lastOf (HetznerPaged.mkPage zone announced)) with true.
    + reflexivity.
    + symmetry. apply Z.geb_le. unfold HetznerPaged.lastOf. simpl.
      destruct (announced =? 0); lia.
  - intros e zone fuel Hreq. unfold HetznerPaged.listRecords. simpl. rewrite Hreq. reflexivity.
Qed.

Lemma listRecords_page_by_page_witness :
  HetznerPaged.listRecords 5
    (fun page =>
       if page =? 1 then Returned (HetznerPaged.mkPage [Hetzner.mkRRSet "a" "A" 300 ["192.0.2.1"]] 2)
       else if page =? 2
            then Returned (HetznerPaged.mkPage
                             [Hetzner.mkRRSet "b" "CNAME" 3600 ["on.alpha.example.com."]] 2)
            else Thrown (mkError "no such page"))
    "zone1" =
  Some [Hetzner.mkZoneRecord "a:A" "a" "A" "192.0.2.1" 300 "zone1";
        Hetzner.mkZoneRecord "b:CNAME" "b" "CNAME" "on.alpha.example.com." 3600 "zone1"] /\
  HetznerPaged.listRecords 5
    (fun page =>
       if page =? 1 then Returned (HetznerPaged.mkPage [Hetzner.mkRRSet "a" "A" 300 ["192.0.2.1"]] 2)
       else Thrown (mkError "page lost"))
    "zone1" = Some [] /\
  HetznerPaged.listRecords 5
    (fun page => Returned (HetznerPaged.mkPage [] (page + 1))) "zone1" = None.
Proof.
  split; [|split].
  - apply (proj1 (listRecords_page_by_page _ "zone1")
             [HetznerPaged.mkPage [Hetzner.mkRRSet "a" "A" 300 ["192.0.2.1"]] 2]
             (Returned (HetznerPaged.mkPage
                          [Hetzner.mkRRSet "b" "CNAME" 3600 ["on.alpha.example.com."]] 2)) 5%nat).
    + intros [|[|i]] data Hi; try discriminate. injection Hi as <-. split; [reflexivity|].
      vm_compute. reflexivity.
    + reflexivity.
    + vm_compute. discriminate.
    + simpl. lia.
  - apply (proj1 (listRecords_page_by_page _ "zone1")
             [HetznerPaged.mkPage [Hetzner.mkRRSet "a" "A" 300 ["192.0.2.1"]] 2]
             (Thrown (mkError "page lost")) 5%nat).
    + intros [|[|i]] data Hi; try discriminate. injection Hi as <-. split; [reflexivity|].
      vm_compute. reflexivity.
    + reflexivity.
    + exact I.
    + simpl. lia.
  - apply (proj1 (proj2 (listRecords_page_by_page _ "zone1"))).
    intros page. eexists. split; [reflexivity|]. unfold HetznerPaged.lastOf. simpl.
    destruct (page + 1 =? 0) eqn:H; lia.
Defined.

(** ** Record ids and record values *)

Lemma endsWith_refl (s : string) : JsString.endsWith s s = true.
Proof.
  destruct s as [|c s]; [reflexivity|].
  change (JsString.endsWith (String c s) (String c s))
    with (String.eqb (String c s) (String c s) || JsString.endsWith (String c s) s).
  rewrite String.eqb_refl. reflexivity.
Qed.

Lemma endsWith_append (a suf : string) : JsString.endsWith suf (a ++ suf) = true.
Proof.
  induction a as [|c a IH]; [apply endsWith_refl|].
  rewrite append_cons.
  change (JsString.endsWith suf (String c (a ++ suf)))
    with (String.eqb suf (String c (a ++ suf)) || JsString.endsWith suf (a ++ suf)).
  rewrite IH, orb_true_r. reflexivity.
Qed.

Lemma flatten_fields (zoneId : string) (rr : Hetzner.RRSet) (record : Hetzner.ZoneRecord) :
  In record (Hetzner.flatten zoneId rr) ->
  Hetzner.rec_name record = Hetzner.rr_name rr /\
  Hetzner.rec_type record = Hetzner.rr_type rr /\
  Hetzner.rec_id record = Hetzner.rr_name rr ++ ":" ++ Hetzner.rr_type rr.
Proof.
  unfold Hetzner.flatten. intros Hin. apply in_map_iff in Hin as (value & <- & _).
  repeat split.
Qed.

Lemma split_id (name recordType : string) :
  JsString.includes ":" name = false -> JsString.includes ":" recordType = false ->
  JsString.split ":" (name ++ ":" ++ recordType) = [name; recordType].
Proof.
  intros Hn Ht. change (name ++ ":" ++ recordType) with (name ++ String ":" recordType).
  rewrite (split_app ":" name recordType Hn), (split_whole ":" recordType Ht). reflexivity.
Qed.

(** X11 (hetzner.js, deleteRecord on an id made by listRecords): for a
    listed record whose name and type hold no colon, the delete call that
    the API accepts removes the record set of that name and type, and
    nothing else: the records listed afterwards are the others, unchanged. *)
Theorem deleteRecord_removes_listed_set
    (accepts : Hetzner.call -> bool) (zoneId : string) (zone : list Hetzner.RRSet)
    (record : Hetzner.ZoneRecord) :
  In record (Hetzner.listRecords true zoneId zone) ->
  JsString.includes ":" (Hetzner.rec_name record) = false ->
  JsString.includes ":" (Hetzner.rec_type record) = false ->
  accepts (Hetzner.DeleteRecord (Hetzner.rec_id record) zoneId) = true ->
  exists zone',
    Hetzner.perform accepts (Hetzner.DeleteRecord (Hetzner.rec_id record) zoneId) zone
      = (true, zone') /\
    forall other,
      In other (Hetzner.listRecords true zoneId zone') <->
      In other (Hetzner.listRecords true zoneId zone) /\
      ~ (Hetzner.rec_name other = Hetzner.rec_name record /\
         Hetzner.rec_type other = Hetzner.rec_type record).
Proof.
  intros Hin Hname Htype Hacc. unfold Hetzner.listRecords in *.
  apply in_flat_map in Hin as (rr & Hrr & Hrec).
  destruct (flatten_fields _ _ _ Hrec) as (Hn & Ht & Hid).
  exists (List.filter (fun rr' => negb (Hetzner.sameSet (Hetzner.rec_name record)
                                         (Hetzner.rec_type record) rr')) zone).
  split.
  - unfold Hetzner.perform. rewrite Hacc, Hid, <- Hn, <- Ht, (split_id _ _ Hname Htype).
    cbn [nth]. unfold Hetzner.apiDelete.
    replace (existsb _ zone) with true; [reflexivity|].
    symmetry. apply existsb_exists. exists rr. split; [exact Hrr|].
    unfold Hetzner.sameSet. rewrite Hn, Ht, !String.eqb_refl. reflexivity.
  - intros other. rewrite !in_flat_map. split.
    + intros (rr' & Hf & Ho). apply filter_In in Hf as [Hz Hdiff]. split; [exists rr'; auto|].
      destruct (flatten_fields _ _ _ Ho) as (Hn' & Ht' & _). intros [En Et].
      unfold Hetzner.sameSet in Hdiff. rewrite <- Hn', <- Ht', En, Et, !String.eqb_refl in Hdiff.
      discriminate.
    + intros [(rr' & Hz & Ho) Hdiff]. exists rr'. split; [|exact Ho].
      apply filter_In. split; [exact Hz|].
      destruct (flatten_fields _ _ _ Ho) as (Hn' & Ht' & _).
      unfold Hetzner.sameSet. rewrite <- Hn', <- Ht'.
      destruct (String.eqb_spec (Hetzner.rec_name other) (Hetzner.rec_name record)) as [En|];
        [|reflexivity].
      destruct (String.eqb_spec (Hetzner.rec_type other) (Hetzner.rec_type record)) as [Et|];
        [|reflexivity].
      destruct (Hdiff (conj En Et)).
Qed.

Lemma deleteRecord_removes_listed_set_witness :
  exists zone',
    Hetzner.perform (fun _ => true) (Hetzner.DeleteRecord "old:CNAME" "zone1")
      [Hetzner.mkRRSet "old" "CNAME" 3600 ["on.ghost.example.com."];
       Hetzner.mkRRSet "old" "TXT" 300 ["kept"]] = (true, zone') /\
    forall other,
      In other (Hetzner.listRecords true "zone1" zone') <->
      In other (Hetzner.listRecords true "zone1"
                  [Hetzner.mkRRSet "old" "CNAME" 3600 ["on.ghost.example.com."];
                   Hetzner.mkRRSet "old" "TXT" 300 ["kept"]]) /\
      ~ (Hetzner.rec_name other = "old" /\ Hetzner.rec_type other = "CNAME").
Proof.
  apply (deleteRecord_removes_listed_set (fun _ => true) "zone1"
           [Hetzner.mkRRSet "old" "CNAME" 3600 ["on.ghost.example.com."];
            Hetzner.mkRRSet "old" "TXT" 300 ["kept"]]
           (Hetzner.mkZoneRecord "old:CNAME" "old" "CNAME" "on.ghost.example.com." 3600 "zone1"));
    [left; reflexivity|reflexivity|reflexivity|reflexivity].
Defined.

(** X12 (hetzner.js, createRecord and updateRecord; sync.js reads the value
    back): the value sent for a CNAME always ends with a dot, sending is
    idempotent, the value of another record type is sent as it is, and
    removing the dot of what was sent gives what removing it from the target
    gives, which is how the reconciler compares the two. *)
Theorem cname_value_sent_with_dot (recordType value : string) :
  JsString.endsWith "." (Hetzner.finalValue "CNAME" value) = true /\
  Hetzner.finalValue recordType (Hetzner.finalValue recordType value) =
    Hetzner.finalValue recordType value /\
  JsString.stripDot (Hetzner.finalValue "CNAME" value) = JsString.stripDot value /\
  (recordType <> "CNAME" -> Hetzner.finalValue recordType value = value).
Proof.
  split; [|split; [|split]].
  - unfold Hetzner.finalValue. rewrite String.eqb_refl. cbn [andb].
    destruct (JsString.endsWith "." value) eqn:He; [exact He|apply endsWith_append].
  - unfold Hetzner.finalValue. destruct (String.eqb recordType "CNAME"); [|reflexivity].
    cbn [andb]. destruct (JsString.endsWith "." value) eqn:He; cbn [negb].
    + rewrite He. reflexivity.
    + rewrite endsWith_append. reflexivity.
  - apply stripDot_finalValue.
  - intros Hne. unfold Hetzner.finalValue.
    destruct (String.eqb_spec recordType "CNAME") as [->|_]; [contradiction|reflexivity].
Qed.

Lemma cname_value_sent_with_dot_witness :
  Hetzner.finalValue "A" "192.0.2.1" = "192.0.2.1".
Proof.
  apply (proj2 (proj2 (proj2 (cname_value_sent_with_dot "A" "192.0.2.1")))). discriminate.
Defined.

(** ** The desired pairs *)

Lemma getCnameForIp_found (ip : string) (mapping : list (string * string)) (cname : string) :
  Topology.getCnameForIp ip mapping = Some cname ->
  exists subnet, In (cname, subnet) mapping /\ Topology.ipInSubnet ip subnet = true.
Proof.
  induction mapping as [|[k v] rest IH]; simpl; [discriminate|].
  destruct (Topology.ipInSubnet ip v) eqn:Hin.
  - intros [= ->]. exists v. auto.
  - intros H. destruct (IH H) as (subnet & Hs & Hc). exists subnet. auto.
Qed.

Lemma targetProtocol_range (resource : Sync.Resource) (target : Sync.Target) (targetPort : Z) :
  In (Sync.targetProtocol resource target targetPort) ["http"; "https"; "tcp"].
Proof.
  unfold Sync.targetProtocol.
  destruct (String.eqb_spec (JsString.toLowerCase (Sync.t_method target)) "http") as [->|_];
    [left; reflexivity|].
  destruct (String.eqb_spec (JsString.toLowerCase (Sync.t_method target)) "https") as [->|_];
    [right; left; reflexivity|].
  cbn [orb].
  destruct (String.eqb_spec (JsString.toLowerCase (Sync.r_protocol resource)) "http") as [->|_];
    [left; reflexivity|].
  destruct (String.eqb_spec (JsString.toLowerCase (Sync.r_protocol resource)) "https") as [->|_];
    [right; left; reflexivity|].
  cbn [orb]. destruct ((targetPort =? 443) || (targetPort =? 8006)); [right; left; reflexivity|].
  destruct (targetPort =? 80); [left; reflexivity|right; right; left; reflexivity].
Qed.

Lemma resourceStep_adds (cfg : Config) (env : Sync.Env) (mapping : list (string * string))
    (pairs : list Sync.Pair) (resource : Sync.Resource) :
  Sync.resourceStep cfg env mapping pairs resource = pairs \/
  exists pair,
    Sync.resourceStep cfg env mapping pairs resource = (pairs ++ [pair])%list /\
    consistentPair cfg mapping pair.
Proof.
  unfold Sync.resourceStep.
  set (domain0 := Gatus.orElse (Sync.r_fullDomain resource) _).
  destruct (String.eqb domain0 EmptyString); [left; reflexivity|].
  destruct (match Sync.targetsOf env _ with [] => _ | _ => _ end) as [|first targets];
    [left; reflexivity|].
  set (target := default first _).
  destruct (String.eqb (Sync.t_ip target) EmptyString) eqn:Hip; [left; reflexivity|].
  destruct (Topology.getCnameForIp _ mapping) as [cname|] eqn:Hc; [|left; reflexivity].
  destruct (String.eqb cname EmptyString); [left; reflexivity|].
  right. eexists. split; [reflexivity|].
  destruct (getCnameForIp_found _ _ _ Hc) as (subnet & Hs & Hin).
  unfold consistentPair. cbn [Sync.p_cname Sync.p_target Sync.p_cname_full Sync.p_domain
    Sync.p_subdomain Sync.p_is_root Sync.p_port Sync.p_protocol Sync.p_name Sync.p_resource_name].
  split; [exists subnet; auto|]. split; [reflexivity|]. split.
  { destruct (JsString.endsWith (domain cfg) domain0) eqn:He; cbn [negb]; [exact He|].
    rewrite <- append_assoc. apply endsWith_append. }
  split; [reflexivity|]. split; [reflexivity|]. split.
  { apply String.eqb_neq. exact Hip. }
  split.
  { destruct (Sync.t_port target =? 0) eqn:Hp; [discriminate|]. apply Z.eqb_neq. exact Hp. }
  split; [apply targetProtocol_range|reflexivity].
Qed.

(** X13 (sync.js, getPangolinDomainCnamePairs): there is at most one pair
    per listed resource, and in every pair the CNAME is a key of the host
    mapping whose block contains the target address, the full CNAME is that
    key under the base domain, the domain ends with the base domain, the
    target address is not empty, the port is not 0 and the protocol is one
    of http, https and tcp. *)
Theorem pairs_are_consistent (dns : Dns.version) (cfg : Config) (env : Sync.Env)
    (pairs : list Sync.Pair) (mapping : list (string * string)) :
  Sync.getPangolinDomainCnamePairs dns cfg env = Returned (pairs, mapping) ->
  (forall orgId, Sync.getOrgId (pangolinOrgId cfg) (Sync.orgs env) = Some orgId ->
     (List.length pairs <= List.length (Sync.resourcesOf env orgId))%nat) /\
  (forall pair, In pair pairs ->
     (exists subnet, In (Sync.p_cname pair, subnet) mapping /\
                     Topology.ipInSubnet (Sync.p_target pair) subnet = true) /\
     Sync.p_cname_full pair = Sync.p_cname pair ++ "." ++ domain cfg /\
     JsString.endsWith (domain cfg) (Sync.p_domain pair) = true /\
     Sync.p_subdomain pair =
       JsString.replace ("." ++ domain cfg) EmptyString (Sync.p_domain pair) /\
     Sync.p_is_root pair =
       (String.eqb (Sync.p_subdomain pair) (domain cfg)
        || String.eqb (Sync.p_subdomain pair) EmptyString) /\
     Sync.p_target pair <> EmptyString /\
     Sync.p_port pair <> 0 /\
     In (Sync.p_protocol pair) ["http"; "https"; "tcp"] /\
     Sync.p_name pair = Sync.p_resource_name pair).
Proof.
  unfold Sync.getPangolinDomainCnamePairs.
  destruct (getHostSubnetMapping _) as [m|e]; simpl; [|discriminate].
  assert (Hnone : forall n : nat, (List.length (@nil Sync.Pair) <= n)%nat) by (intros; simpl; lia).
  destruct m as [|entry m']; [intros [= <- _]; split; [intros; apply Hnone|intros pair []]|].
  destruct (Sync.getOrgId _ _) as [orgId|];
    [|intros [= <- _]; split; [intros; apply Hnone|intros pair []]].
  destruct (Sync.resourcesOf env orgId) as [|r rs] eqn:Hres;
    [intros [= <- _]; split; [intros; apply Hnone|intros pair []]|].
  intros [= <- <-].
  assert (H : forall resources acc,
             (forall pair, In pair acc -> consistentPair cfg (entry :: m') pair) ->
             (List.length (fold_left (Sync.resourceStep cfg env (entry :: m')) resources acc)
              <= List.length acc + List.length resources)%nat /\
             forall pair, In pair (fold_left (Sync.resourceStep cfg env (entry :: m')) resources acc) ->
                          consistentPair cfg (entry :: m') pair).
  { induction resources as [|x rest IH]; intros acc Hacc; simpl; [split; [lia|exact Hacc]|].
    destruct (resourceStep_adds cfg env (entry :: m') acc x) as [->|(pair & -> & Hpair)].
    - destruct (IH acc Hacc) as [Hlen Hall]. split; [lia|exact Hall].
    - destruct (IH (acc ++ [pair])%list) as [Hlen Hall].
      + intros p Hin. apply in_app_or in Hin as [Hin|[<-|[]]]; [apply Hacc, Hin|exact Hpair].
      + split; [rewrite length_app in Hlen; simpl in Hlen; lia|exact Hall]. }
  destruct (H (r :: rs) []) as [Hlen Hall]; [intros pair []|].
  split.
  - intros orgId' [= <-]. rewrite Hres. exact Hlen.
  - intros pair Hin. exact (Hall pair Hin).
Qed.

Lemma pairs_are_consistent_witness :
  exists subnet,
    In ("on.alpha", subnet) [("on.alpha", "10.0.4.0/24")] /\
    Topology.ipInSubnet "10.0.4.17" subnet = true.
Proof.
  exact (proj1 (proj2 (pairs_are_consistent Dns.WithRetries exampleConfig (scenarioEnv true)
                         [Sync.mkPair "App" "app.example.com" "app" "on.alpha"
                                      "on.alpha.example.com" false "App" "10.0.4.17" 443 "https"]
                         [("on.alpha", "10.0.4.0/24")] eq_refl)
                      (Sync.mkPair "App" "app.example.com" "app" "on.alpha"
                                   "on.alpha.example.com" false "App" "10.0.4.17" 443 "https")
                      (or_introl eq_refl))).
Defined.

(** ** A cycle without a host mapping *)

Lemma unexpected_managed_planned (cfg : Config) (zoneId : string)
    (records : list Hetzner.ZoneRecord) (expected : list (string * string))
    (record : Hetzner.ZoneRecord) :
  (forall r, In r records ->
     Hetzner.rec_id r = Hetzner.rec_name r ++ ":" ++ Hetzner.rec_type r) ->
  In record records ->
  Hetzner.rec_type record = "CNAME" ->
  Sync.isManaged (JsString.stripDot (Hetzner.rec_value record)) = true ->
  Sync.mapHas (Hetzner.rec_name record) expected = false ->
  JsString.inList (Hetzner.rec_name record) (keepSubdomains cfg) = false ->
  In (Hetzner.DeleteRecord (Hetzner.rec_id record) zoneId)
     (plannedCalls cfg zoneId (Sync.currentOf records) expected).
Proof.
  intros Hids Hin Htype Hman Hexp Hkeep.
  assert (Hpick : pick (Hetzner.rec_name record) record =
                  Some (JsString.stripDot (Hetzner.rec_value record), Hetzner.rec_id record)).
  { unfold pick. rewrite Htype, !String.eqb_refl, Hman. reflexivity. }
  destruct (lastFor (Hetzner.rec_name record) records) as [[value id]|] eqn:Hlast.
  2:{ exfalso. exact (lastFor_pick _ _ _ _ Hin Hpick Hlast). }
  pose proof Hlast as Hentry. rewrite <- currentOf_lastFor in Hentry.
  apply mapGet_In in Hentry.
  apply lastFor_Some in Hlast as (record' & Hin' & Hpick').
  apply pick_Some in Hpick' as (Htype' & Hname' & _ & _ & Hid').
  assert (id = Hetzner.rec_id record) as ->.
  { rewrite Hid', (Hids _ Hin), (Hids _ Hin'), Htype, Htype', Hname'. reflexivity. }
  unfold plannedCalls. apply in_or_app. left.
  apply list_elem_of_In, list_elem_of_omap.
  eexists. split; [apply list_elem_of_In; exact Hentry|].
  unfold plannedDelete. simpl. rewrite Hexp, Hkeep. reflexivity.
Qed.

Lemma zoneEffects_In (calls : list (Hetzner.call * bool)) (c : Hetzner.call) (ok : bool) :
  In (Sync.ZoneCall c ok) (zoneEffects calls) <-> In (c, ok) calls.
Proof.
  unfold zoneEffects. rewrite in_map_iff. split.
  - intros ([c' ok'] & [= -> ->] & Hin). exact Hin.
  - intros Hin. exists (c, ok). auto.
Qed.

Lemma write_effects (env : Sync.Env) (config : list Gatus.Endpoint) (st : Sync.Store)
    (c : Hetzner.call) (ok : bool) :
  ~ In (Sync.ZoneCall c ok) (snd (Sync.writeGatusConfig env config st)).
Proof.
  unfold Sync.writeGatusConfig. destruct (Sync.yamlDump env config); [|intros []].
  destruct (bool_decide _); [intros []|].
  destruct (Sync.fsWritable env); intros [H|[]]; discriminate.
Qed.

(** X14 (sync.js, runOnce after getPangolinDomainCnamePairs found no host
    mapping): when the topology gives no mapping, because the TXT query
    failed or because no item of the payload was valid, the cycle goes on
    with no pair and reports zero mappings; it reports success, unless
    generating or serializing the monitoring configuration throws, in which
    case it reports that error; either way it creates and updates nothing,
    and it makes a delete call for every managed CNAME record of the zone
    whose name is not retained. *)
Theorem cycle_without_mapping_deletes (dns : Dns.version) (cfg : Config) (env : Sync.Env)
    (st : Sync.Store) (zoneId : string) :
  getHostSubnetMapping (fst (Dns.queryTXT dns (Sync.txtAnswer env))) = Returned [] ->
  Hetzner.getZoneId (hetznerZoneId cfg) (Sync.zoneIdByName env) = Some zoneId ->
  zoneId <> EmptyString ->
  exists result final,
    Sync.runOnce dns cfg env st = (Returned result, final) /\
    Sync.pangolinMappings (Sync.summary result) = 0 /\
    match Sync.generateGatusConfig cfg env (Gatus.updateHostMapping []) []
            (fst (Sync.syncHetznerDns cfg env [] (Sync.zone st))) with
    | Returned config =>
        match Sync.yamlDump env config with
        | Returned _ => Sync.success result = true /\ Sync.errors (Sync.summary result) = []
        | Thrown e =>
            Sync.success result = false /\ Sync.errors (Sync.summary result) = [message e]
        end
    | Thrown e => Sync.success result = false /\ Sync.errors (Sync.summary result) = [message e]
    end /\
    (forall c ok, In (Sync.ZoneCall c ok) (Sync.trace final) -> isDelete c = true) /\
    (forall record,
       In record (Hetzner.listRecords (Sync.zoneListable env) zoneId (Sync.zone st)) ->
       Hetzner.rec_type record = "CNAME" ->
       Sync.isManaged (JsString.stripDot (Hetzner.rec_value record)) = true ->
       JsString.inList (Hetzner.rec_name record) (keepSubdomains cfg) = false ->
       exists ok,
         In (Sync.ZoneCall (Hetzner.DeleteRecord (Hetzner.rec_id record) zoneId) ok)
            (Sync.trace final)).
Proof.
  intros Hmap Hzone Hid.
  assert (Hpairs : Sync.getPangolinDomainCnamePairs dns cfg env = Returned ([], [])).
  { unfold Sync.getPangolinDomainCnamePairs. rewrite Hmap. reflexivity. }
  assert (Hcalls : callsOf cfg env [] (Sync.zone st) =
                   plannedCalls cfg zoneId
                     (Sync.currentOf (Hetzner.listRecords (Sync.zoneListable env) zoneId
                                        (Sync.zone st))) []).
  { rewrite callsOf_planned, Hzone. apply String.eqb_neq in Hid. rewrite Hid. reflexivity. }
  assert (Hdeletes : forall c ok,
            In (Sync.ZoneCall c ok)
               (zoneEffects (snd (snd (Sync.syncHetznerDns cfg env [] (Sync.zone st))))) ->
            isDelete c = true).
  { intros c ok Hin. apply zoneEffects_In in Hin.
    assert (Hc : In c (callsOf cfg env [] (Sync.zone st))).
    { unfold callsOf. apply in_map_iff. exists (c, ok). auto. }
    rewrite Hcalls in Hc. unfold plannedCalls in Hc. simpl omap at 2 in Hc. rewrite app_nil_r in Hc.
    exact (planned_deletes_only _ _ _ _ _ Hc). }
  assert (Hall : forall record,
            In record (Hetzner.listRecords (Sync.zoneListable env) zoneId (Sync.zone st)) ->
            Hetzner.rec_type record = "CNAME" ->
            Sync.isManaged (JsString.stripDot (Hetzner.rec_value record)) = true ->
            JsString.inList (Hetzner.rec_name record) (keepSubdomains cfg) = false ->
            exists ok,
              In (Sync.ZoneCall (Hetzner.DeleteRecord (Hetzner.rec_id record) zoneId) ok)
                 (zoneEffects (snd (snd (Sync.syncHetznerDns cfg env [] (Sync.zone st)))))).
  { intros record Hin Htype Hman Hkeep.
    assert (Hc : In (Hetzner.DeleteRecord (Hetzner.rec_id record) zoneId)
                    (callsOf cfg env [] (Sync.zone st))).
    { rewrite Hcalls. apply unexpected_managed_planned; try assumption; [|reflexivity].
      intros r Hr. exact (listRecords_id _ _ _ _ Hr). }
    unfold callsOf in Hc. apply in_map_iff in Hc as ([c ok] & Hfst & Hc). simpl in Hfst. subst c.
    exists ok. apply zoneEffects_In. exact Hc. }
  rewrite runOnce_unfold, Hpairs. cbv zeta.
  destruct (Sync.generateGatusConfig cfg env (Gatus.updateHostMapping []) []
              (fst (Sync.syncHetznerDns cfg env [] (Sync.zone st)))) as [config|e].
  - destruct (Sync.yamlDump env config) as [content|e] eqn:Hdump.
    + eexists. eexists. split; [reflexivity|].
      cbn [Sync.success Sync.summary Sync.pangolinMappings Sync.errors Sync.trace].
      split; [reflexivity|]. split; [split; reflexivity|]. split.
      * intros c ok Hin. apply in_app_or in Hin as [Hin|Hin];
          [exact (Hdeletes c ok Hin)|destruct (write_effects _ _ _ _ _ Hin)].
      * intros record Hin Htype Hman Hkeep.
        destruct (Hall record Hin Htype Hman Hkeep) as [ok Hok].
        exists ok. apply in_or_app. left. exact Hok.
    + eexists. eexists. split; [reflexivity|].
      cbn [Sync.success Sync.summary Sync.pangolinMappings Sync.errors Sync.trace].
      split; [reflexivity|]. split; [split; reflexivity|]. split; [exact Hdeletes|exact Hall].
  - eexists. eexists. split; [reflexivity|].
    cbn [Sync.success Sync.summary Sync.pangolinMappings Sync.errors Sync.trace].
    split; [reflexivity|]. split; [split; reflexivity|]. split; [exact Hdeletes|exact Hall].
Qed.

Lemma cycle_without_mapping_deletes_witness :
  exists result final,
    Sync.runOnce Dns.WithRetries exampleConfig
      (Sync.mkEnv (fun _ => Thrown (mkError "DNS query timeout")) [] (fun _ => []) (fun _ => [])
                  None true (fun _ => true) (fun _ _ => false) true exampleDump)
      (Sync.mkStore [Hetzner.mkRRSet "app" "CNAME" 3600 ["on.alpha.example.com."]] None
                    (Gatus.mkGenerator [] [] [])) = (Returned result, final) /\
    Sync.success result = true /\
    Sync.trace final = [Sync.ZoneCall (Hetzner.DeleteRecord "app:CNAME" "zone1") true;
                        Sync.FileWrite EmptyString true].
Proof.
  destruct (cycle_without_mapping_deletes Dns.WithRetries exampleConfig
              (Sync.mkEnv (fun _ => Thrown (mkError "DNS query timeout")) [] (fun _ => [])
                          (fun _ => []) None true (fun _ => true) (fun _ _ => false) true
                          exampleDump)
              (Sync.mkStore [Hetzner.mkRRSet "app" "CNAME" 3600 ["on.alpha.example.com."]] None
                            (Gatus.mkGenerator [] [] []))
              "zone1" eq_refl eq_refl) as (result & final & Hrun & _ & Hok & _);
    [discriminate|].
  exists result, final. split; [exact Hrun|]. split; [exact (proj1 Hok)|].
  vm_compute in Hrun. injection Hrun as _ <-. reflexivity.
Defined.

(** ** Names on the ignore list *)

Lemma expectedOf_not_ignored (cfg : Config) (pairs : list Sync.Pair) (name : string) :
  JsString.inList name (ignoreSubdomains cfg) = true ->
  Sync.mapHas name (Sync.expectedOf cfg pairs) = false.
Proof.
  intros Hign. unfold Sync.expectedOf.
  assert (H : forall acc, Sync.mapHas name acc = false ->
                          Sync.mapHas name (fold_left (Sync.expectedStep cfg) pairs acc) = false).
  { induction pairs as [|pair pairs IH]; intros acc Hacc; [exact Hacc|].
    simpl fold_left. apply IH. unfold Sync.expectedStep.
    destruct (JsString.inList (Sync.p_subdomain pair) (ignoreSubdomains cfg)) eqn:Hsub;
      [exact Hacc|].
    destruct (Sync.p_is_root pair && _) eqn:Hroot; [exact Hacc|].
    rewrite mapHas_mapGet, mapGet_objSet.
    destruct (String.eqb_spec (if Sync.p_is_root pair then "@" else Sync.p_subdomain pair) name)
      as [Heq|_]; [|rewrite <- mapHas_mapGet; exact Hacc].
    exfalso. destruct (Sync.p_is_root pair).
    - subst name. rewrite Hign in Hroot. discriminate.
    - subst name. congruence. }
  apply H. reflexivity.
Qed.

(** X15 (sync.js, syncHetznerDns): a name on the ignore list is never in
    the expected map, so no record of that name is created or updated,
    whatever the pairs and the zone; for the root, the name is [@]. *)
Theorem ignored_name_never_upserted (cfg : Config) (env : Sync.Env) (pairs : list Sync.Pair)
    (zone0 : list Hetzner.RRSet) (name : string) :
  JsString.inList name (ignoreSubdomains cfg) = true ->
  Sync.mapHas name (Sync.expectedOf cfg pairs) = false /\
  forall c, In c (callsOf cfg env pairs zone0) ->
    match c with
    | Hetzner.CreateRecord _ created _ _ _ => created <> name
    | Hetzner.UpdateRecord _ _ updated _ _ _ => updated <> name
    | Hetzner.DeleteRecord _ _ => True
    end.
Proof.
  intros Hign. pose proof (expectedOf_not_ignored cfg pairs name Hign) as Hexp.
  split; [exact Hexp|]. intros c Hc. rewrite callsOf_planned in Hc.
  destruct (Hetzner.getZoneId _ _) as [zoneId|]; [|destruct Hc].
  destruct (String.eqb zoneId EmptyString); [destruct Hc|].
  unfold plannedCalls in Hc. apply in_app_or in Hc as [Hc|Hc].
  - apply planned_deletes_only in Hc. destruct c; try discriminate. exact I.
  - apply list_elem_of_In, list_elem_of_omap in Hc as ([n target] & Hin & Hplan).
    apply list_elem_of_In in Hin. apply In_mapHas in Hin.
    assert (Hne : n <> name) by (intros ->; congruence).
    unfold plannedUpsert in Hplan. simpl in Hplan.
    destruct (Sync.mapGet n _) as [[value id]|].
    + destruct (negb _); [|discriminate]. injection Hplan as <-. exact Hne.
    + injection Hplan as <-. exact Hne.
Qed.

Lemma ignored_name_never_upserted_witness :
  Sync.mapHas "app"
    (Sync.expectedOf
       (mkConfig "example.com" "org" "zone1" [] ["app"] ∅ (mkDefaults None None None) [200] [] ∅
                 true false)
       [examplePair "app" "on.alpha.example.com"]) = false.
Proof.
  apply (proj1 (ignored_name_never_upserted
                  (mkConfig "example.com" "org" "zone1" [] ["app"] ∅ (mkDefaults None None None)
                            [200] [] ∅ true false)
                  exampleEnv [examplePair "app" "on.alpha.example.com"] [] "app" eq_refl)).
Defined.

(** ** The organisation id *)

Lemma getProp_defined (x : Json.json) (k : string) :
  x <> Json.JNull -> exists v, Json.getProp (Some x) k = Returned v.
Proof. destruct x; intros H; [contradiction| | | | |]; eexists; reflexivity. Qed.

(** What [listOrgs] returns is an array or a string. *)
Lemma listOrgs_loggable (response : outcome Error Json.json) :
  Pangolin.loggable (Pangolin.listOrgs response) = true.
Proof.
  destruct response as [data|e]; [|reflexivity].
  rewrite listOrgs_policy.
  destruct (Pangolin.loggable (Pangolin.shapePolicy "orgs" data)) eqn:Hl; [exact Hl|reflexivity].
Qed.

(** Choosing the id of a first organisation that [listOrgs] has logged:
    the only failure is an [org_id] that cannot be shown. *)
Lemma getOrgId_first (firstOrg : Json.json) :
  Pangolin.entryLoggable firstOrg = true ->
  match (orgId ← Json.getProp (Some firstOrg) "orgId";
         orgId ← (if Json.truthy orgId then Returned orgId
                  else Json.getProp (Some firstOrg) "id");
         orgId ← (if Json.truthy orgId then Returned orgId
                  else Json.getProp (Some firstOrg) "org_id");
         if Json.truthy orgId then (_ ← Json.interpolate orgId; Returned orgId)
         else Returned None) : outcome Error Json.value with
  | Returned chosen => chosen = None \/ Json.truthy chosen = true
  | Thrown _ =>
      exists fields org_id,
        firstOrg = Json.JObj fields /\
        Json.truthy (Json.field "orgId" fields) = false /\
        Json.truthy (Json.field "id" fields) = false /\
        Json.field "org_id" fields = Some org_id /\
        Json.truthy (Some org_id) = true /\
        Json.convertible org_id = false
  end.
Proof.
  intros Hlog.
  destruct firstOrg as [| b | n | s | items | fields]; try discriminate;
    try (left; reflexivity).
  unfold Pangolin.entryLoggable, Pangolin.orValue in Hlog.
  cbn [Json.getProp mbind outcome_bind bindO].
  destruct (Json.truthy (Json.field "orgId" fields)) eqn:Ta.
  - cbn [mbind outcome_bind bindO]. rewrite Ta. cbn [mbind outcome_bind bindO]. rewrite Ta.
    destruct (Json.field "orgId" fields) as [orgId|]; [|discriminate].
    cbn [Json.defined default from_option id] in Hlog.
    apply andb_true_iff in Hlog as [Hid _].
    rewrite interpolate_convertible, Hid. cbn [mbind outcome_bind bindO]. right. exact Ta.
  - cbn [mbind outcome_bind bindO].
    destruct (Json.truthy (Json.field "id" fields)) eqn:Tb.
    + cbn [mbind outcome_bind bindO]. rewrite Tb.
      destruct (Json.field "id" fields) as [ident|]; [|discriminate].
      cbn [Json.defined default from_option id] in Hlog.
      apply andb_true_iff in Hlog as [Hid _].
      rewrite interpolate_convertible, Hid. cbn [mbind outcome_bind bindO]. right. exact Tb.
    + cbn [mbind outcome_bind bindO].
      destruct (Json.truthy (Json.field "org_id" fields)) eqn:Tc; [|left; reflexivity].
      destruct (Json.field "org_id" fields) as [org_id|] eqn:Hc; [|discriminate].
      rewrite interpolate_convertible.
      destruct (Json.convertible org_id) eqn:Hconv; cbn [mbind outcome_bind bindO].
      * right. exact Tc.
      * exists fields, org_id. repeat split; assumption.
Qed.

(** X16 (pangolin.js, getOrgId over listOrgs): getOrgId returns the
    configured id when there is one; otherwise what it returns is [null]
    or a value that counts as true, and after a failed request, or an answer
    without organisations, it returns [null].  It throws in one case only:
    there is no configured id, the first organisation is an object whose
    [orgId] and [id] count as false, and its [org_id] counts as true and
    cannot be converted to a string for the log line, which is outside any
    [try].  Reading the first organisation cannot fail, because listOrgs,
    which logs every entry, has already replaced an answer with an entry it
    cannot log by the empty list. *)
Theorem getOrgId_throws_only_for_org_id
    (specifiedOrgId : string) (response : outcome Error Json.json) :
  (specifiedOrgId <> EmptyString ->
   PangolinOrg.getOrgId specifiedOrgId response = Returned (Some (Json.JStr specifiedOrgId))) /\
  (specifiedOrgId = EmptyString ->
   (exists failure, response = Thrown failure) \/ Pangolin.listOrgs response = Json.JArr [] ->
   PangolinOrg.getOrgId specifiedOrgId response = Returned None) /\
  (forall chosen,
     PangolinOrg.getOrgId specifiedOrgId response = Returned chosen ->
     chosen = None \/ Json.truthy chosen = true) /\
  (forall failure,
     PangolinOrg.getOrgId specifiedOrgId response = Thrown failure ->
     specifiedOrgId = EmptyString /\
     exists fields rest org_id,
       Pangolin.listOrgs response = Json.JArr (Json.JObj fields :: rest) /\
       Json.truthy (Json.field "orgId" fields) = false /\
       Json.truthy (Json.field "id" fields) = false /\
       Json.field "org_id" fields = Some org_id /\
       Json.truthy (Some org_id) = true /\
       Json.convertible org_id = false) /\
  PangolinOrg.getOrgId EmptyString
    (Returned (Json.JArr [Json.JObj [("org_id", Json.JObj [("toString", Json.JNum 1)])]])) =
    Thrown (mkError "Cannot convert object to primitive value").
Proof.
  assert (Hcases :
    match PangolinOrg.getOrgId specifiedOrgId response with
    | Returned chosen => chosen = None \/ Json.truthy chosen = true
    | Thrown _ =>
        specifiedOrgId = EmptyString /\
        exists fields rest org_id,
          Pangolin.listOrgs response = Json.JArr (Json.JObj fields :: rest) /\
          Json.truthy (Json.field "orgId" fields) = false /\
          Json.truthy (Json.field "id" fields) = false /\
          Json.field "org_id" fields = Some org_id /\
          Json.truthy (Some org_id) = true /\
          Json.convertible org_id = false
    end).
  { unfold PangolinOrg.getOrgId.
    destruct (String.eqb_spec specifiedOrgId EmptyString) as [->|Hne]; cbn [negb].
    2:{ right. simpl.
        destruct (String.eqb_spec specifiedOrgId EmptyString); [contradiction|reflexivity]. }
    pose proof (listOrgs_loggable response) as Hlog.
    destruct (Pangolin.listOrgs response) as [| | | s | items | ]; try discriminate.
    - destruct s as [|c s]; [left; reflexivity|].
      cbn [PangolinOrg.firstEntry mbind outcome_bind bindO].
      pose proof (getOrgId_first (Json.JStr (String c EmptyString)) eq_refl) as H.
      destruct (_ : outcome Error Json.value) as [chosen|e]; [exact H|].
      destruct H as (fields & org_id & Hx & _). discriminate Hx.
    - destruct items as [|x items]; [left; reflexivity|].
      cbn [PangolinOrg.firstEntry mbind outcome_bind bindO].
      cbn [Pangolin.loggable forallb] in Hlog. apply andb_true_iff in Hlog as [Hx _].
      pose proof (getOrgId_first x Hx) as H.
      destruct (_ : outcome Error Json.value) as [chosen|e]; [exact H|].
      destruct H as (fields & org_id & -> & H). split; [reflexivity|].
      exists fields, items, org_id. split; [reflexivity|exact H]. }
  split; [|split; [|split; [|split]]].
  - intros Hne. unfold PangolinOrg.getOrgId.
    destruct (String.eqb_spec specifiedOrgId EmptyString); [contradiction|reflexivity].
  - intros -> H. unfold PangolinOrg.getOrgId. cbn [String.eqb negb].
    destruct H as [(failure & ->) | ->]; reflexivity.
  - intros chosen Hret. rewrite Hret in Hcases. exact Hcases.
  - intros failure Hthrown. rewrite Hthrown in Hcases. exact Hcases.
  - reflexivity.
Qed.

Lemma getOrgId_throws_only_for_org_id_witness :
  PangolinOrg.getOrgId "org-7" (Returned (Json.JArr [Json.JNull])) =
    Returned (Some (Json.JStr "org-7")) /\
  PangolinOrg.getOrgId EmptyString (Thrown (mkError "Pangolin API error: 502 Bad Gateway")) =
    Returned None /\
  PangolinOrg.getOrgId EmptyString (Returned (Json.JArr [Json.JNull])) = Returned None.
Proof.
  split; [|split].
  - apply (proj1 (getOrgId_throws_only_for_org_id "org-7" (Returned (Json.JArr [Json.JNull])))).
    discriminate.
  - apply (proj1 (proj2 (getOrgId_throws_only_for_org_id EmptyString
                           (Thrown (mkError "Pangolin API error: 502 Bad Gateway"))))
             eq_refl).
    left. eexists. reflexivity.
  - apply (proj1 (proj2 (getOrgId_throws_only_for_org_id EmptyString
                           (Returned (Json.JArr [Json.JNull]))))
             eq_refl).
    right. reflexivity.
Defined.

(** ** Sessions *)

Lemma validateSession_absent (sessions : gmap string Auth.Session) (sessionId : string)
    (now now' : Z) :
  sessions !! sessionId = None ->
  Auth.validateSession sessions sessionId now now' = (false, sessions).
Proof.
  intros H. unfold Auth.validateSession. rewrite H.
  destruct (String.eqb sessionId EmptyString); reflexivity.
Qed.

(** X17 (AuthService.validateSession and logout): a session is accepted
    exactly when it is known and its last activity is no more than 24 hours
    before the check, and accepting it moves its last activity to the time of
    the update; a session found expired is removed, so that it is refused
    ever after, whatever the clock says; so is a session that was logged out.
    Neither operation touches another session. *)
Theorem session_refused_after_expiry_or_logout
    (sessions : gmap string Auth.Session) (sessionId : string) (now now' : Z) :
  (fst (Auth.validateSession sessions sessionId now now') = true <->
   sessionId <> EmptyString /\
   exists session, sessions !! sessionId = Some session /\
                   now - Auth.s_lastActivity session <= Auth.SESSION_TIMEOUT_MS) /\
  (fst (Auth.validateSession sessions sessionId now now') = true ->
   Auth.s_lastActivity <$> snd (Auth.validateSession sessions sessionId now now') !! sessionId
     = Some now') /\
  (forall session later later',
     sessions !! sessionId = Some session ->
     now - Auth.s_lastActivity session > Auth.SESSION_TIMEOUT_MS ->
     fst (Auth.validateSession (snd (Auth.validateSession sessions sessionId now now'))
            sessionId later later') = false) /\
  (forall later later',
     fst (Auth.validateSession (Auth.logout sessions sessionId) sessionId later later') = false) /\
  (forall other, other <> sessionId ->
     snd (Auth.validateSession sessions sessionId now now') !! other = sessions !! other /\
     Auth.logout sessions sessionId !! other = sessions !! other).
Proof.
  unfold Auth.validateSession, Auth.logout, Auth.expired.
  split; [|split; [|split; [|split]]].
  - destruct (String.eqb_spec sessionId EmptyString) as [->|Hne].
    + simpl. split; [discriminate|intros [H _]; contradiction].
    + destruct (sessions !! sessionId) as [session|] eqn:Hs.
      * destruct (now - Auth.s_lastActivity session >? Auth.SESSION_TIMEOUT_MS) eqn:He; simpl.
        -- split; [discriminate|]. intros (_ & s & [= <-] & Hle). apply Z.gtb_lt in He. lia.
        -- split; [|reflexivity]. intros _. split; [exact Hne|]. exists session.
           split; [reflexivity|]. rewrite Z.gtb_ltb in He. apply Z.ltb_ge in He. exact He.
      * simpl. split; [discriminate|]. intros (_ & s & Habs & _). discriminate.
  - destruct (String.eqb sessionId EmptyString); [discriminate|].
    destruct (sessions !! sessionId) as [session|]; [|discriminate].
    destruct (_ >? _); [discriminate|]. simpl. intros _. rewrite lookup_insert_eq. reflexivity.
  - intros session later later' Hs Hexp. rewrite Hs.
    destruct (String.eqb sessionId EmptyString) eqn:He; [reflexivity|].
    replace (now - Auth.s_lastActivity session >? Auth.SESSION_TIMEOUT_MS) with true
      by (symmetry; apply Z.gtb_lt; lia).
    cbn [snd]. rewrite lookup_delete_eq. reflexivity.
  - intros later later'. destruct (String.eqb sessionId EmptyString) eqn:He.
    + reflexivity.
    + rewrite lookup_delete_eq. reflexivity.
  - intros other Hother. split.
    + destruct (String.eqb sessionId EmptyString); [reflexivity|].
      destruct (sessions !! sessionId) as [session|]; [|reflexivity].
      destruct (_ >? _); simpl.
      * apply lookup_delete_ne. congruence.
      * apply lookup_insert_ne. congruence.
    + destruct (String.eqb sessionId EmptyString); [reflexivity|].
      apply lookup_delete_ne. congruence.
Qed.

Lemma session_refused_after_expiry_or_logout_witness :
  fst (Auth.validateSession
         (snd (Auth.validateSession {["6f1c" := Auth.mkSession (Some (Json.JStr "admin")) 0 0]} "6f1c" 86400001 86400001))
         "6f1c" 5 5) = false /\
  fst (Auth.validateSession {["6f1c" := Auth.mkSession (Some (Json.JStr "admin")) 0 0]} "6f1c" 86400000 86400000) = true.
Proof.
  split.
  - apply (proj1 (proj2 (proj2 (session_refused_after_expiry_or_logout
                                  {["6f1c" := Auth.mkSession (Some (Json.JStr "admin")) 0 0]} "6f1c"
                                  86400001 86400001)))
             (Auth.mkSession (Some (Json.JStr "admin")) 0 0) 5 5).
    + reflexivity.
    + vm_compute. reflexivity.
  - apply (proj1 (session_refused_after_expiry_or_logout
                    {["6f1c" := Auth.mkSession (Some (Json.JStr "admin")) 0 0]} "6f1c" 86400000 86400000)).
    split; [discriminate|]. exists (Auth.mkSession (Some (Json.JStr "admin")) 0 0). split; [reflexivity|].
    vm_compute. discriminate.
Defined.

Lemma cleanup_fold (now : Z) (whole seen : gmap string Auth.Session) (sessionId : string) :
  map_fold (fun sessionId session remaining =>
              if Auth.expired now session then delete sessionId remaining else remaining)
           whole seen !! sessionId =
  match seen !! sessionId with
  | Some session => if Auth.expired now session then None else whole !! sessionId
  | None => whole !! sessionId
  end.
Proof.
  apply (map_fold_weak_ind
           (fun (r : gmap string Auth.Session) (m : gmap string Auth.Session) =>
              r !! sessionId =
              match m !! sessionId with
              | Some session => if Auth.expired now session then None else whole !! sessionId
              | None => whole !! sessionId
              end)).
  - rewrite lookup_empty. reflexivity.
  - intros i x m r Hi IH. destruct (decide (i = sessionId)) as [->|Hne].
    + rewrite lookup_insert_eq. rewrite Hi in IH.
      destruct (Auth.expired now x); [apply lookup_delete_eq|exact IH].
    + rewrite lookup_insert_ne by exact Hne.
      destruct (Auth.expired now x); [|exact IH].
      rewrite lookup_delete_ne by exact Hne. exact IH.
Qed.

Lemma cleanupSessions_lookup (now : Z) (sessions : gmap string Auth.Session) (sessionId : string) :
  Auth.cleanupSessions now sessions !! sessionId =
  match sessions !! sessionId with
  | Some session => if Auth.expired now session then None else Some session
  | None => None
  end.
Proof.
  unfold Auth.cleanupSessions. rewrite cleanup_fold.
  destruct (sessions !! sessionId) as [session|]; [|reflexivity].
  destruct (Auth.expired now session); reflexivity.
Qed.

(** X18 (AuthService.cleanupSessions, with validateSession): cleaning up
    at a given time removes exactly the sessions whose last activity is more
    than 24 hours before it and leaves the others as they are; the sessions
    that remain are those that a validation at that time accepts; cleaning
    up twice at the same time is cleaning up once. *)
Theorem cleanup_keeps_what_validation_accepts (now : Z) (sessions : gmap string Auth.Session) :
  (forall sessionId,
     Auth.cleanupSessions now sessions !! sessionId =
     match sessions !! sessionId with
     | Some session =>
         if now - Auth.s_lastActivity session >? Auth.SESSION_TIMEOUT_MS then None else Some session
     | None => None
     end) /\
  (forall sessionId now',
     sessionId <> EmptyString ->
     (is_Some (Auth.cleanupSessions now sessions !! sessionId) <->
      fst (Auth.validateSession sessions sessionId now now') = true)) /\
  Auth.cleanupSessions now (Auth.cleanupSessions now sessions) = Auth.cleanupSessions now sessions.
Proof.
  split; [|split].
  - intros sessionId. apply cleanupSessions_lookup.
  - intros sessionId now' Hne. rewrite cleanupSessions_lookup. unfold Auth.validateSession.
    destruct (String.eqb_spec sessionId EmptyString); [contradiction|].
    destruct (sessions !! sessionId) as [session|].
    + destruct (Auth.expired now session); simpl.
      * split; [intros [x Hx]; discriminate|discriminate].
      * split; [reflexivity|eauto].
    + simpl. split; [intros [x Hx]; discriminate|discriminate].
  - apply map_eq. intros sessionId. rewrite !cleanupSessions_lookup.
    destruct (sessions !! sessionId) as [session|]; [|reflexivity].
    destruct (Auth.expired now session) eqn:He; [reflexivity|]. rewrite He. reflexivity.
Qed.

Lemma cleanup_keeps_what_validation_accepts_witness :
  is_Some (Auth.cleanupSessions 90000000
             {["6f1c" := Auth.mkSession (Some (Json.JStr "admin")) 0 4000000]} !! "6f1c").
Proof.
  apply (proj1 (proj2 (cleanup_keeps_what_validation_accepts 90000000
                         {["6f1c" := Auth.mkSession (Some (Json.JStr "admin")) 0 4000000]}))
           "6f1c" 90000000).
  - discriminate.
  - vm_compute. reflexivity.
Defined.

(** ** Registration and login *)

(** X19 (AuthService.register, login and getStatus; the route passes the
    members of the request body unchecked): a registration is accepted only
    while no user is registered, for a user name and a password that count
    as true and are not too short, and it stores that name with the hash; a
    name that is a string has at least 3 characters and a password that is a
    string at least 8, but a value without a length, such as the number 7,
    passes the check and is registered as the user name.  With a hash that
    is not empty the user then counts as registered, even when writing the
    file failed, and every later registration is refused and changes
    nothing.  A login that is not accepted leaves the sessions as they were;
    a login that is accepted is for the registered name with a password that
    bcrypt accepts, and the session it creates is valid for the next 24
    hours. *)
Theorem registration_once_then_login
    (textBelow : Json.json -> Z -> outcome Error bool)
    (compare : Json.value -> Json.value -> outcome Error bool) (account : Auth.Account)
    (sessions : gmap string Auth.Session) :
  (forall username password hashed saved reply,
     fst (Auth.register textBelow account username password hashed saved) = Returned reply ->
     Auth.success reply = true ->
     Auth.registered account = false /\
     Json.truthy username = true /\ Json.truthy password = true /\
     Auth.shorter textBelow (Json.defined username) 3 = Returned false /\
     Auth.shorter textBelow (Json.defined password) 8 = Returned false /\
     (forall name, username = Some (Json.JStr name) -> (3 <= String.length name)%nat) /\
     (forall word, password = Some (Json.JStr word) -> (8 <= String.length word)%nat) /\
     exists hash,
       hashed = Returned hash /\
       snd (Auth.register textBelow account username password hashed saved) =
         Auth.mkAccount username (Some (Json.JStr hash))) /\
  (forall hash,
     Auth.registered account = false ->
     Auth.register textBelow account (Some (Json.JNum 7)) (Some (Json.JStr "12345678"))
                   (Returned hash) (Returned tt) =
       (Returned (Auth.mkReply true None None),
        Auth.mkAccount (Some (Json.JNum 7)) (Some (Json.JStr hash)))) /\
  (forall username password hash saved,
     Auth.registered account = false ->
     Auth.missingOrShort textBelow username 3 = Returned false ->
     Auth.missingOrShort textBelow password 8 = Returned false ->
     hash <> EmptyString ->
     let account' := snd (Auth.register textBelow account username password (Returned hash) saved) in
     Auth.registered account' = true /\
     forall username' password' hashed' saved',
       Auth.register textBelow account' username' password' hashed' saved' =
         (Returned (Auth.refused "User already registered"), account')) /\
  (forall username password fresh now now',
     (forall reply,
        fst (Auth.login compare account sessions username password fresh now now')
          = Returned reply -> Auth.success reply = false) ->
     snd (Auth.login compare account sessions username password fresh now now') = sessions) /\
  (forall username password fresh now now' reply,
     fst (Auth.login compare account sessions username password fresh now now')
       = Returned reply ->
     Auth.success reply = true ->
     Auth.registered account = true /\
     Auth.strictEq username (Auth.a_username account) = true /\
     compare password (Auth.a_password_hash account) = Returned true /\
     Auth.sessionId reply = Some fresh /\
     forall later later',
       fresh <> EmptyString ->
       later - now' <= Auth.SESSION_TIMEOUT_MS ->
       fst (Auth.validateSession
              (snd (Auth.login compare account sessions username password fresh now now'))
              fresh later later') = true).
Proof.
  split; [|split; [|split; [|split]]].
  - intros username password hashed saved reply. unfold Auth.register.
    destruct (Auth.registered account); [intros [= <-]; discriminate|].
    destruct (Auth.missingOrShort textBelow username 3) as [[]|e] eqn:Hu;
      [intros [= <-]; discriminate| |discriminate].
    destruct (Auth.missingOrShort textBelow password 8) as [[]|e] eqn:Hp;
      [intros [= <-]; discriminate| |discriminate].
    destruct hashed as [hash|e]; [|discriminate].
    unfold Auth.missingOrShort in Hu, Hp.
    destruct (Json.truthy username) eqn:Tu; [|discriminate].
    destruct (Json.truthy password) eqn:Tp; [|discriminate].
    cbn [negb] in Hu, Hp. intros _ _.
    split; [reflexivity|]. split; [reflexivity|]. split; [reflexivity|].
    split; [exact Hu|]. split; [exact Hp|]. split; [|split].
    + intros name ->. cbn in Hu. injection Hu as Hu. apply Z.ltb_ge in Hu. lia.
    + intros word ->. cbn in Hp. injection Hp as Hp. apply Z.ltb_ge in Hp. lia.
    + exists hash. split; [reflexivity|]. destruct saved; reflexivity.
  - intros hash Hreg. unfold Auth.register. rewrite Hreg. reflexivity.
  - intros username password hash saved Hreg Hu Hp Hh. unfold Auth.register.
    rewrite Hreg, Hu, Hp.
    assert (Hnow : Auth.registered (Auth.mkAccount username (Some (Json.JStr hash))) = true).
    { unfold Auth.registered. cbn [Auth.a_username Auth.a_password_hash Json.truthy].
      unfold Auth.missingOrShort in Hu. destruct (Json.truthy username); [|discriminate].
      destruct (String.eqb_spec hash EmptyString); [contradiction|reflexivity]. }
    destruct saved; cbn [snd]; (split; [exact Hnow|]); intros; rewrite Hnow; reflexivity.
  - intros username password fresh now now'. unfold Auth.login.
    destruct (negb _ || negb _); [reflexivity|].
    destruct (negb (Auth.strictEq username (Auth.a_username account))); [reflexivity|].
    destruct (compare password (Auth.a_password_hash account)) as [[]|e];
      [|reflexivity|reflexivity].
    intros H. specialize (H _ eq_refl). discriminate H.
  - intros username password fresh now now' reply. unfold Auth.login.
    unfold Auth.registered.
    destruct (Json.truthy (Auth.a_username account)); [|intros [= <-]; discriminate].
    destruct (Json.truthy (Auth.a_password_hash account)); [|intros [= <-]; discriminate].
    cbn [negb orb andb].
    destruct (Auth.strictEq username (Auth.a_username account)); [|intros [= <-]; discriminate].
    cbn [negb]. destruct (compare password (Auth.a_password_hash account)) as [[]|e];
      [|intros [= <-]; discriminate|discriminate].
    cbn [fst snd]. intros [= <-] _. repeat (split; [reflexivity|]).
    intros later later' Hne Hle. unfold Auth.validateSession.
    destruct (String.eqb_spec fresh EmptyString); [contradiction|].
    rewrite lookup_insert_eq. unfold Auth.expired. cbn [Auth.s_lastActivity].
    replace (later - now' >? Auth.SESSION_TIMEOUT_MS) with false; [reflexivity|].
    symmetry. rewrite Z.gtb_ltb. apply Z.ltb_ge. exact Hle.
Qed.

Lemma registration_once_then_login_witness :
  Auth.register (fun _ _ => Returned false)
                (Auth.mkAccount (Some (Json.JStr "admin")) (Some (Json.JStr "$2b$12$hash")))
                (Some (Json.JStr "mallory")) (Some (Json.JStr "correct horse"))
                (Returned "$2b$12$other") (Returned tt) =
    (Returned (Auth.refused "User already registered"),
     Auth.mkAccount (Some (Json.JStr "admin")) (Some (Json.JStr "$2b$12$hash"))) /\
  fst (Auth.validateSession
         (snd (Auth.login (fun password _ =>
                             Returned (Auth.strictEq password
                                                     (Some (Json.JStr "correct horse"))))
                          (Auth.mkAccount (Some (Json.JStr "admin"))
                                          (Some (Json.JStr "$2b$12$hash"))) ∅
                          (Some (Json.JStr "admin")) (Some (Json.JStr "correct horse"))
                          "6f1c" 1000 1000))
         "6f1c" 2000 2000) = true.
Proof.
  split.
  - destruct (registration_once_then_login
                (fun _ _ => Returned false)
                (fun password _ =>
                   Returned (Auth.strictEq password (Some (Json.JStr "correct horse"))))
                (Auth.mkAccount None None) ∅) as (_ & _ & Hregister & _).
    destruct (Hregister (Some (Json.JStr "admin")) (Some (Json.JStr "correct horse"))
                        "$2b$12$hash" (Returned tt)) as [_ Honce];
      [reflexivity|reflexivity|reflexivity|discriminate|].
    apply Honce.
  - destruct (registration_once_then_login
                (fun _ _ => Returned false)
                (fun password _ =>
                   Returned (Auth.strictEq password (Some (Json.JStr "correct horse"))))
                (Auth.mkAccount (Some (Json.JStr "admin")) (Some (Json.JStr "$2b$12$hash"))) ∅)
      as (_ & _ & _ & _ & Hlogin).
    destruct (Hlogin (Some (Json.JStr "admin")) (Some (Json.JStr "correct horse"))
                     "6f1c" 1000 1000 _ eq_refl) as (_ & _ & _ & _ & Hvalid);
      [reflexivity|].
    apply Hvalid; [discriminate|vm_compute; discriminate].
Defined.

(** ** The log buffer *)

Lemma log_buffer (sendOk : nat -> bool) (now : Z) (level msg : string) (lg : Log.Logger) :
  (List.length (Log.buffer lg) <= Log.MAX_BUFFER_SIZE)%nat ->
  Log.buffer (Log.log sendOk now level msg lg) =
    skipn (List.length (Log.buffer lg) + 1 - Log.MAX_BUFFER_SIZE)
          (Log.buffer lg ++ [Log.mkEntry now level msg (Log.currentRunId lg)]) /\
  (List.length (Log.buffer (Log.log sendOk now level msg lg)) <= Log.MAX_BUFFER_SIZE)%nat.
Proof.
  intros Hlen. unfold Log.log. cbn [Log.buffer]. rewrite length_app. cbn [List.length].
  destruct (Nat.ltb_spec Log.MAX_BUFFER_SIZE (List.length (Log.buffer lg) + 1)) as [Hlt|Hge].
  - replace (List.length (Log.buffer lg) + 1 - Log.MAX_BUFFER_SIZE)%nat with 1%nat by lia.
    split; [reflexivity|].
    destruct (Log.buffer lg) as [|x rest]; simpl in *; [lia|]. rewrite length_app. simpl. lia.
  - replace (List.length (Log.buffer lg) + 1 - Log.MAX_BUFFER_SIZE)%nat with 0%nat by lia.
    split; [reflexivity|]. rewrite length_app. simpl. lia.
Qed.

(** X20 (Logger.log): over any sequence of calls, a buffer that holds at
    most 1000 entries keeps holding at most 1000, namely the most recent
    entries in the order they were logged; every entry carries the run id
    that was set; and the clients that remain are those whose every send
    succeeded. *)
Theorem buffer_keeps_latest_entries
    (calls : list ((nat -> bool) * Z * string * string)) (lg : Log.Logger) :
  (List.length (Log.buffer lg) <= Log.MAX_BUFFER_SIZE)%nat ->
  (List.length (Log.buffer (logAll calls lg)) <= Log.MAX_BUFFER_SIZE)%nat /\
  Log.buffer (logAll calls lg) =
    skipn (List.length (Log.buffer lg) + List.length calls - Log.MAX_BUFFER_SIZE)
          (Log.buffer lg
           ++ map (fun '(_, now, level, msg) => Log.mkEntry now level msg (Log.currentRunId lg))
                  calls) /\
  Log.currentRunId (logAll calls lg) = Log.currentRunId lg /\
  (forall client,
     In client (Log.wsClients (logAll calls lg)) <->
     In client (Log.wsClients lg) /\
     forall sendOk now level msg, In (sendOk, now, level, msg) calls -> sendOk client = true).
Proof.
  revert lg. induction calls as [|[[[sendOk now] level] msg] calls IH]; intros lg Hlen.
  - simpl. split; [exact Hlen|]. split.
    + rewrite app_nil_r, Nat.add_0_r.
      replace (List.length (Log.buffer lg) - Log.MAX_BUFFER_SIZE)%nat with 0%nat by lia.
      reflexivity.
    + split; [reflexivity|]. intros client. split; [intros H; split; [exact H|intros ? ? ? ? []]|tauto].
  - unfold logAll. simpl fold_left. fold (logAll calls (Log.log sendOk now level msg lg)).
    destruct (log_buffer sendOk now level msg lg Hlen) as [Hbuf Hlen'].
    destruct (IH _ Hlen') as (H1 & H2 & H3 & H4).
    split; [exact H1|]. split; [|split].
    + rewrite H2. clear IH H1 H2 H3 H4.
      assert (Hrun : Log.currentRunId (Log.log sendOk now level msg lg) = Log.currentRunId lg)
        by reflexivity.
      rewrite Hrun, Hbuf.
      set (entry := Log.mkEntry now level msg (Log.currentRunId lg)).
      set (rest := map _ calls).
      set (k := (List.length (Log.buffer lg) + 1 - Log.MAX_BUFFER_SIZE)%nat).
      assert (Hk : (k <= List.length (Log.buffer lg ++ [entry]))%nat)
        by (rewrite length_app; simpl; lia).
      rewrite length_skipn, length_app. cbn [List.length].
      change (map (fun '(_, now0, level0, msg0) =>
                     Log.mkEntry now0 level0 msg0 (Log.currentRunId lg))
                  ((sendOk, now, level, msg) :: calls)) with (entry :: rest).
      replace (Log.buffer lg ++ entry :: rest)%list with ((Log.buffer lg ++ [entry]) ++ rest)%list
        by (rewrite <- app_assoc; reflexivity).
      replace (skipn k (Log.buffer lg ++ [entry]) ++ rest)%list
        with (skipn k ((Log.buffer lg ++ [entry]) ++ rest)).
      * rewrite skipn_skipn. f_equal. subst k. lia.
      * rewrite skipn_app. replace (k - List.length (Log.buffer lg ++ [entry]))%nat with 0%nat by lia.
        reflexivity.
    + rewrite H3. reflexivity.
    + intros client. rewrite H4. unfold Log.log. cbn [Log.wsClients]. rewrite filter_In. split.
      * intros [[Hc Hok] Hall]. split; [exact Hc|].
        intros s n l m [[= <- <- <- <-]|Hin]; [exact Hok|eapply Hall, Hin].
      * intros [Hc Hall]. split; [split; [exact Hc|]|].
        -- eapply Hall. left. reflexivity.
        -- intros s n l m Hin. eapply Hall. right. exact Hin.
Qed.

Lemma buffer_keeps_latest_entries_witness :
  Log.buffer (logAll [(fun _ => true, 5, "INFO", "Starting DNS sync cycle");
                      (fun client => Nat.eqb client 1, 6, "ERROR", "DNS sync cycle failed")]
                     (Log.mkLogger [] [1%nat; 2%nat] (Some "9a3f"))) =
    [Log.mkEntry 5 "INFO" "Starting DNS sync cycle" (Some "9a3f");
     Log.mkEntry 6 "ERROR" "DNS sync cycle failed" (Some "9a3f")].
Proof.
  destruct (buffer_keeps_latest_entries
              [(fun _ => true, 5, "INFO", "Starting DNS sync cycle");
               (fun client => Nat.eqb client 1, 6, "ERROR", "DNS sync cycle failed")]
              (Log.mkLogger [] [1%nat; 2%nat] (Some "9a3f"))) as (_ & Hbuf & _).
  - simpl. unfold Log.MAX_BUFFER_SIZE. lia.
  - rewrite Hbuf. reflexivity.
Defined.

(** ** The history of runs *)

Lemma filter_snoc {A : Type} (p : A -> bool) (l : list A) (x : A) :
  List.filter p (l ++ [x]) = (List.filter p l ++ if p x then [x] else [])%list.
Proof. rewrite List.filter_app. reflexivity. Qed.

Lemma filter_none {A : Type} (p : A -> bool) (l : list A) :
  (forall x, In x l -> p x = false) -> List.filter p l = [].
Proof.
  induction l as [|x l IH]; intros H; [reflexivity|]. simpl.
  rewrite (H x (or_introl eq_refl)). apply IH. intros y Hy. apply H. right. exact Hy.
Qed.

Lemma verdict_snoc (entries : list Log.Entry) (entry : Log.Entry) :
  verdict (entries ++ [entry]) =
  if String.eqb (Log.level entry) "SUCCESS" then true
  else if String.eqb (Log.level entry) "ERROR" then false
  else verdict entries.
Proof. unfold verdict. rewrite fold_left_app. reflexivity. Qed.

Lemma In_objSet_other {V : Type} (x : string * V) (k : string) (v : V) (m : list (string * V)) :
  List.NoDup (map fst m) -> In x (Topology.objSet k v m) ->
  x = (k, v) \/ (In x m /\ fst x <> k).
Proof.
  induction m as [|[k' v'] m IH]; intros Hnd Hin.
  - destruct Hin as [<-|[]]. left. reflexivity.
  - simpl in Hin, Hnd. apply List.NoDup_cons_iff in Hnd as [Hk Hnd].
    destruct (String.eqb_spec k' k) as [->|Hne].
    + destruct Hin as [<-|Hin]; [left; reflexivity|]. right. split; [right; exact Hin|].
      intros <-. apply Hk. apply in_map_iff. exists x. auto.
    + destruct Hin as [<-|Hin]; [right; split; [left; reflexivity|exact Hne]|].
      destruct (IH Hnd Hin) as [->|[Hm Hx]]; [left; reflexivity|right; split; [right; exact Hm|exact Hx]].
Qed.

(** What the loop of [getHistory] has built after the entries [seen]. *)
Lemma history_runs (seen : list Log.Entry) :
  let runs := fold_left Log.historyStep seen [] in
  List.NoDup (map fst runs) /\
  (forall runId run, In (runId, run) runs -> historyRun seen runId run) /\
  (forall entry runId, In entry seen -> Log.run_id entry = Some runId -> runId <> EmptyString ->
     Sync.mapHas runId runs = true).
Proof.
  induction seen as [|entry seen IH] using rev_ind.
  - simpl. split; [constructor|]. split; [intros ? ? []|intros ? ? []].
  - rewrite fold_left_app. cbn [fold_left]. cbv zeta in IH |- *.
    set (runs := fold_left Log.historyStep seen []) in *.
    destruct IH as (Hnd & Hruns & Hall).
    assert (Hother : forall runId, Log.run_id entry <> Some runId ->
              List.filter (fun l => bool_decide (Log.run_id l = Some runId)) (seen ++ [entry]) =
              List.filter (fun l => bool_decide (Log.run_id l = Some runId)) seen).
    { intros runId Hne. rewrite filter_snoc, bool_decide_eq_false_2 by exact Hne.
      apply app_nil_r. }
    assert (Hkeep : forall runId run, Log.run_id entry <> Some runId ->
              historyRun seen runId run -> historyRun (seen ++ [entry]) runId run).
    { intros runId run Hne (H1 & H2 & H3 & H4). unfold historyRun. rewrite Hother by exact Hne.
      auto. }
    unfold Log.historyStep.
    destruct (Log.run_id entry) as [rid|] eqn:Hrid.
    2:{ split; [exact Hnd|]. split.
        - intros runId run Hin. apply Hkeep; [discriminate|apply Hruns, Hin].
        - intros e runId Hin He Hne. apply in_app_or in Hin as [Hin|[<-|[]]]; [eauto|congruence]. }
    destruct (String.eqb_spec rid EmptyString) as [->|Hrne].
    { split; [exact Hnd|]. split.
      - intros runId run Hin. pose proof (Hruns runId run Hin) as Hrun.
        apply Hkeep; [|exact Hrun]. destruct Hrun as (_ & Hne & _). congruence.
      - intros e runId Hin He Hne. apply in_app_or in Hin as [Hin|[<-|[]]]; [eauto|congruence]. }
    set (run0 := default _ (Sync.mapGet rid runs)).
    set (run1 := Log.mkRun _ _ _ _ _).
    assert (Hrun0 : Log.id run0 = rid /\
                    Log.logs run0 = List.filter (fun l => bool_decide (Log.run_id l = Some rid)) seen /\
                    Log.start run0 = default (Log.ts entry) (Log.ts <$> head (Log.logs run0)) /\
                    Log.success run0 = verdict (Log.logs run0)).
    { subst run0. destruct (Sync.mapGet rid runs) as [run|] eqn:Hget.
      - apply mapGet_In in Hget. destruct (Hruns rid run Hget) as (H1 & H2 & H3 & H4 & H5 & H6 & H7).
        cbn [from_option id]. split; [exact H1|]. split; [exact H3|]. split; [|exact H7].
        rewrite H4. destruct (Log.logs run); [contradiction|reflexivity].
      - cbn [from_option id Log.id Log.logs Log.start Log.success].
        split; [reflexivity|]. split; [|split; reflexivity].
        symmetry. apply filter_none. intros e He.
        apply bool_decide_eq_false_2. intros Hrun.
        specialize (Hall e rid He Hrun Hrne). rewrite mapHas_mapGet, Hget in Hall. discriminate. }
    destruct Hrun0 as (Hid0 & Hlogs0 & Hstart0 & Hok0).
    split; [apply objSet_NoDup, Hnd|]. split.
    + intros runId run Hin. apply In_objSet_other in Hin as [[= -> ->]|[Hin Hdiff]]; [| |exact Hnd].
      * subst run1. unfold historyRun. cbn [Log.id Log.logs Log.start Log.finish Log.success].
        split; [exact Hid0|]. split; [exact Hrne|]. split.
        { rewrite filter_snoc, bool_decide_eq_true_2 by exact Hrid. rewrite Hlogs0. reflexivity. }
        split.
        { rewrite Hstart0. destruct (Log.logs run0); reflexivity. }
        split; [rewrite last_snoc; reflexivity|]. split.
        { destruct (Log.logs run0); discriminate. }
        rewrite verdict_snoc, Hok0.
        destruct (String.eqb (Log.level entry) "SUCCESS") eqn:Hs; [reflexivity|].
        destruct (String.eqb (Log.level entry) "ERROR"); reflexivity.
      * apply Hkeep; [|apply Hruns, Hin]. simpl in Hdiff. congruence.
    + intros e runId Hin He Hne. rewrite mapHas_mapGet, mapGet_objSet.
      destruct (String.eqb_spec rid runId) as [_|Hdiff]; [reflexivity|].
      rewrite <- mapHas_mapGet. apply in_app_or in Hin as [Hin|[<-|[]]]; [eauto|congruence].
Qed.

(** X21 (Logger.getHistory, with getRunLogs): the history has one run for
    each run id of the buffer and none twice; the entries of a run are those
    that getRunLogs returns for its id, in order; it starts with the first of
    them and ends with the last; and it counts as a success unless the last
    of its entries of level ERROR or SUCCESS is an ERROR. *)
Theorem history_agrees_with_run_logs (lg : Log.Logger) :
  List.NoDup (map Log.id (Log.getHistory lg)) /\
  (forall run, In run (Log.getHistory lg) ->
     Log.id run <> EmptyString /\
     Log.logs run = Log.getRunLogs (Log.id run) lg /\
     Log.logs run <> [] /\
     Log.start run = default 0 (Log.ts <$> head (Log.logs run)) /\
     Log.finish run = default 0 (Log.ts <$> last (Log.logs run)) /\
     Log.success run = verdict (Log.logs run)) /\
  (forall entry runId,
     In entry (Log.buffer lg) -> Log.run_id entry = Some runId -> runId <> EmptyString ->
     exists run, In run (Log.getHistory lg) /\ Log.id run = runId).
Proof.
  destruct (history_runs (Log.buffer lg)) as (Hnd & Hruns & Hall). cbv zeta in Hnd, Hruns, Hall.
  unfold Log.getHistory.
  set (runs := fold_left Log.historyStep (Log.buffer lg) []) in *.
  assert (Hids : map Log.id (map snd runs) = map fst runs).
  { rewrite map_map. apply map_ext_in. intros [runId run] Hin.
    destruct (Hruns runId run Hin) as (H1 & _). exact H1. }
  split; [|split].
  - rewrite map_rev, Hids. apply List.NoDup_rev, Hnd.
  - intros run Hin. apply in_rev, in_map_iff in Hin as ([runId run'] & <- & Hin).
    destruct (Hruns runId run' Hin) as (H1 & H2 & H3 & H4 & H5 & H6 & H7). cbn [snd].
    rewrite H1. unfold Log.getRunLogs. auto 10.
  - intros entry runId Hin Hrun Hne. specialize (Hall entry runId Hin Hrun Hne).
    unfold Sync.mapHas in Hall. apply existsb_exists in Hall as ([k run] & Hk & Heq).
    apply String.eqb_eq in Heq. simpl in Heq. subst k.
    exists run. split; [apply -> in_rev; apply in_map_iff; exists (runId, run); auto|].
    destruct (Hruns runId run Hk) as (H1 & _). exact H1.
Qed.

(** ** Reading the log buffer *)

Lemma sliceLast_suffix {A : Type} (limit : option Z) (l : list A) :
  exists older, l = (older ++ Log.sliceLast limit l)%list.
Proof.
  unfold Log.sliceLast. destruct limit as [n|]; [|exists []; reflexivity].
  destruct (0 <? n); eexists; symmetry; apply firstn_skipn.
Qed.

(** X22 (Logger.getLogs): the entries returned are entries of the buffer
    that pass the filters, and they are the last of those, in order; a limit
    above zero bounds their number; with the limit 0, or a limit that is not
    a number, all of them are returned. *)
Theorem getLogs_returns_latest_matching
    (since : option (option Z)) (limit : option Z) (levels : option (list string))
    (lg : Log.Logger) :
  (forall entry, In entry (Log.getLogs since limit levels lg) ->
     In entry (Log.buffer lg) /\
     match since with
     | Some (Some t) => t < Log.ts entry
     | Some None => False
     | None => True
     end /\
     match levels with
     | Some (wanted :: more) => In (Log.level entry) (wanted :: more)
     | _ => True
     end) /\
  (exists older,
     Log.getLogs since None levels lg = (older ++ Log.getLogs since limit levels lg)%list) /\
  (forall n, limit = Some n -> 0 < n ->
     (List.length (Log.getLogs since limit levels lg) <= Z.to_nat n)%nat) /\
  (limit = Some 0 \/ limit = None ->
   Log.getLogs since limit levels lg = Log.getLogs since None levels lg).
Proof.
  unfold Log.getLogs.
  set (bySince := match since with Some _ => _ | None => _ end).
  set (byLevel := match levels with Some (_ :: _) => _ | _ => _ end).
  split; [|split; [|split]].
  - intros entry Hin.
    destruct (sliceLast_suffix limit byLevel) as (older & Hsuffix).
    assert (Hl : In entry byLevel) by (rewrite Hsuffix; apply in_or_app; right; exact Hin).
    assert (Hs : In entry bySince /\
                 match levels with
                 | Some (wanted :: more) => In (Log.level entry) (wanted :: more)
                 | _ => True
                 end).
    { subst byLevel. destruct levels as [[|wanted more]|]; auto.
      apply filter_In in Hl as [Hl Hw]. split; [exact Hl|]. apply inList_In, Hw. }
    destruct Hs as [Hs Hlevel]. split; [|split; [|exact Hlevel]].
    + subst bySince. destruct since as [sinceDate|]; [|exact Hs].
      apply filter_In in Hs as [Hs _]. exact Hs.
    + subst bySince. destruct since as [[t|]|]; [| |exact I].
      * apply filter_In in Hs as [_ Ht]. apply Z.ltb_lt, Ht.
      * apply filter_In in Hs as [_ Ht]. discriminate.
  - apply sliceLast_suffix.
  - intros n -> Hpos. unfold Log.sliceLast.
    replace (0 <? n) with true by (symmetry; apply Z.ltb_lt; exact Hpos).
    rewrite length_skipn. lia.
  - intros [->| ->]; reflexivity.
Qed.

Lemma getLogs_returns_latest_matching_witness :
  Nat.le (List.length (Log.getLogs None (Some 1) (Some ["ERROR"])
                         (Log.mkLogger [Log.mkEntry 5 "ERROR" "first" None;
                                        Log.mkEntry 6 "INFO" "second" None;
                                        Log.mkEntry 7 "ERROR" "third" None] [] None))) 1 /\
  Log.getLogs None (Some 0) None
    (Log.mkLogger [Log.mkEntry 5 "ERROR" "first" None; Log.mkEntry 6 "INFO" "second" None] [] None)
  = [Log.mkEntry 5 "ERROR" "first" None; Log.mkEntry 6 "INFO" "second" None].
Proof.
  split.
  - apply (proj1 (proj2 (proj2 (getLogs_returns_latest_matching None (Some 1) (Some ["ERROR"])
                                  (Log.mkLogger [Log.mkEntry 5 "ERROR" "first" None;
                                                 Log.mkEntry 6 "INFO" "second" None;
                                                 Log.mkEntry 7 "ERROR" "third" None] [] None))))
             1 eq_refl).
    lia.
  - rewrite (proj2 (proj2 (proj2 (getLogs_returns_latest_matching None (Some 0) None
                                    (Log.mkLogger [Log.mkEntry 5 "ERROR" "first" None;
                                                   Log.mkEntry 6 "INFO" "second" None] [] None))))
               (or_introl eq_refl)).
    reflexivity.
Defined.

(** ** One cycle at a time *)

Lemma runSyncBegin_oneCycle (manual : bool) (runId : string) (w : Scheduler.World) :
  oneCycle w -> oneCycle (snd (Scheduler.runSyncBegin manual runId w)).
Proof.
  unfold Scheduler.runSyncBegin. intros H.
  destruct (Scheduler.syncState w) eqn:Hs; cbn [snd]; [|exact H|].
  - unfold oneCycle in *.
    cbn [Scheduler.awaiting Scheduler.syncState Scheduler.currentRunId].
    destruct (Scheduler.awaiting w) as [|[rid m] [|? ?]]; [|destruct H; congruence|destruct H].
    split; reflexivity.
  - unfold oneCycle in *.
    cbn [Scheduler.awaiting Scheduler.syncState Scheduler.currentRunId].
    destruct (Scheduler.awaiting w) as [|[rid m] [|? ?]]; [|destruct H; congruence|destruct H].
    split; reflexivity.
Qed.

Lemma runSyncEnd_state (loopInterval now : Z) (runId : string) (manual : bool)
    (result : outcome Error bool) (w : Scheduler.World) :
  Scheduler.syncState (Scheduler.runSyncEnd loopInterval now runId manual result w)
    <> Scheduler.RUNNING /\
  Scheduler.currentRunId (Scheduler.runSyncEnd loopInterval now runId manual result w) = None /\
  Scheduler.awaiting (Scheduler.runSyncEnd loopInterval now runId manual result w) =
    List.filter (fun a => negb (String.eqb (fst a) runId)) (Scheduler.awaiting w).
Proof.
  unfold Scheduler.runSyncEnd. destruct result as [[|]|e]; cbn [Scheduler.setState];
    repeat match goal with
           | |- context [if ?c then _ else _] => destruct c
           end;
    (split; [discriminate|split; reflexivity]).
Qed.

Lemma step_oneCycle (loopInterval : Z) (w : Scheduler.World) (ev : Scheduler.event) :
  oneCycle w -> oneCycle (Scheduler.step loopInterval w ev).
Proof.
  intros H. destruct ev as [now| |runId|handle runId|runId result now]; cbn [Scheduler.step].
  - exact H.
  - unfold Scheduler.stop. destruct (Scheduler.timer w); exact H.
  - apply runSyncBegin_oneCycle, H.
  - unfold Scheduler.fire. destruct (List.find _ _) as [[h cb]|]; [|exact H].
    destruct cb.
    + apply runSyncBegin_oneCycle. exact H.
    + cbn [Scheduler.clearTimeout Scheduler.syncState].
      destruct (Scheduler.syncState w) eqn:Hs; try exact H.
      unfold oneCycle in *. cbn [Scheduler.setState Scheduler.clearTimeout Scheduler.awaiting
                                Scheduler.syncState Scheduler.currentRunId].
      rewrite Hs in H.
      destruct (Scheduler.awaiting w) as [|[rid m] [|? ?]]; [|destruct H; congruence|destruct H].
      destruct H as [_ Hc]. split; [discriminate|exact Hc].
  - destruct (List.find _ (Scheduler.awaiting w)) as [[rid manual]|] eqn:Hfind; [|exact H].
    destruct (runSyncEnd_state loopInterval now runId manual result w) as (Hs & Hc & Ha).
    unfold oneCycle in *. rewrite Ha.
    destruct (Scheduler.awaiting w) as [|[rid' m'] [|? ?]]; [discriminate| |destruct H].
    simpl in Hfind. destruct (String.eqb rid' runId) eqn:Heq; [|discriminate].
    simpl. rewrite Heq. simpl. split; [exact Hs|exact Hc].
Qed.

Lemma run_oneCycle (loopInterval : Z) (events : list Scheduler.event) (w : Scheduler.World) :
  oneCycle w -> oneCycle (fold_left (Scheduler.step loopInterval) events w).
Proof.
  revert w. induction events as [|ev events IH]; intros w H; [exact H|].
  simpl. apply IH, step_oneCycle, H.
Qed.

(** X23 (scheduler.js, runSync; the trigger of api.js): whatever timers
    fire, however often a cycle is triggered by hand and whenever the
    scheduler is started or stopped, at most one call of runSync waits for
    its cycle, so at most one runOnce is in progress; the state is RUNNING
    exactly while one is, and the current run id is then its id, and null
    otherwise. *)
Theorem at_most_one_cycle_runs (loopInterval : Z) (events : list Scheduler.event) :
  let w := fold_left (Scheduler.step loopInterval) events Scheduler.initial in
  (List.length (Scheduler.awaiting w) <= 1)%nat /\
  (Scheduler.syncState w = Scheduler.RUNNING <-> Scheduler.awaiting w <> []) /\
  Scheduler.currentRunId w = fst <$> head (Scheduler.awaiting w).
Proof.
  intros w. assert (H : oneCycle w).
  { apply run_oneCycle. split; [discriminate|reflexivity]. }
  unfold oneCycle in H. destruct (Scheduler.awaiting w) as [|[rid m] [|? ?]]; [| |destruct H].
  - destruct H as [Hs Hc]. split; [simpl; lia|]. split; [|exact Hc].
    split; [intros Hr; contradiction|intros Hne; contradiction].
  - destruct H as [Hs Hc]. split; [simpl; lia|]. split; [|exact Hc].
    split; [discriminate|intros _; exact Hs].
Qed.

(** ** When the next cycle is armed *)

Lemma cycleTimers_clear (handle : nat) (w : Scheduler.World) :
  cycleTimers (Scheduler.clearTimeout handle w) =
  List.filter (fun h => negb (Nat.eqb h handle)) (cycleTimers w).
Proof.
  unfold cycleTimers, Scheduler.clearTimeout. cbn [Scheduler.pending].
  induction (Scheduler.pending w) as [|[h cb] rest IH]; [reflexivity|].
  cbn [List.filter fst snd]. destruct (Nat.eqb h handle) eqn:Hh; destruct cb; cbn [negb List.filter map fst snd];
    rewrite ?Hh; cbn [negb]; rewrite IH; reflexivity.
Qed.

(** X24 (scheduler.js, runSync and scheduleNextRun): when a cycle that a
    timer started returns, a timer for the next cycle is armed and recorded.
    A timer that fires while a cycle is running is used up and starts
    nothing.  When the cycle that is running was triggered by hand while the
    scheduler records a timer, its return arms no timer: after a start, a
    trigger by hand, the timer firing and the return of the cycle, no timer
    for a next cycle is armed. *)
Theorem next_cycle_timer (loopInterval : Z) :
  (forall w runId result now,
     Scheduler.awaiting w = [(runId, false)] ->
     let w' := Scheduler.step loopInterval w (Scheduler.Finish runId result now) in
     Scheduler.timer w' = Some (Nat.pred (Scheduler.armed w')) /\
     In (Nat.pred (Scheduler.armed w')) (cycleTimers w') /\
     Scheduler.nextRunTime w' = Some (now + loopInterval * 1000)) /\
  (forall w handle runId,
     Scheduler.syncState w = Scheduler.RUNNING ->
     List.find (fun t => Nat.eqb (fst t) handle) (Scheduler.pending w)
       = Some (handle, Scheduler.CallRunSync) ->
     let w' := Scheduler.step loopInterval w (Scheduler.Fire handle runId) in
     cycleTimers w' = List.filter (fun h => negb (Nat.eqb h handle)) (cycleTimers w) /\
     Scheduler.awaiting w' = Scheduler.awaiting w /\
     Scheduler.syncState w' = Scheduler.RUNNING) /\
  (forall t0 t1 runId runId',
     let w := fold_left (Scheduler.step loopInterval)
                [Scheduler.Start t0; Scheduler.Trigger runId; Scheduler.Fire 0 runId';
                 Scheduler.Finish runId (Returned true) t1]
                Scheduler.initial in
     cycleTimers w = [] /\ Scheduler.pending w = [] /\
     Scheduler.syncState w = Scheduler.IDLE /\ Scheduler.timer w = Some 0%nat).
Proof.
  split; [|split].
  - intros w runId result now Haw w'. subst w'. cbn [Scheduler.step]. rewrite Haw.
    cbn [List.find fst]. rewrite String.eqb_refl.
    unfold Scheduler.runSyncEnd, Scheduler.scheduleNextRun, Scheduler.enterError, cycleTimers.
    destruct result as [[|]|e]; cbn; rewrite ?List.filter_app, ?map_app; cbn;
      (split; [reflexivity|split; [|reflexivity]]);
      apply in_or_app; right; left; reflexivity.
  - intros w handle runId Hs Hfind w'. subst w'. cbn [Scheduler.step]. unfold Scheduler.fire.
    rewrite Hfind. unfold Scheduler.runSyncBegin. cbn [Scheduler.clearTimeout Scheduler.syncState].
    rewrite Hs. cbn [snd Scheduler.awaiting Scheduler.syncState]. split; [|split; [reflexivity|exact Hs]].
    apply cycleTimers_clear.
  - intros t0 t1 runId runId' w. subst w. cbn [fold_left Scheduler.step].
    unfold Scheduler.start, Scheduler.scheduleNextRun. cbn.
    rewrite String.eqb_refl. cbn. unfold cycleTimers. cbn. auto.
Qed.

(** ** The configuration shown by the API *)

Lemma field_map (k k' : string) (change : Json.json -> Json.json)
    (fields : list (string * Json.json)) :
  Json.field k' (map (fun kv => if String.eqb (fst kv) k then (fst kv, change (snd kv)) else kv)
                     fields) =
  if String.eqb k k' then change <$> Json.field k' fields else Json.field k' fields.
Proof.
  induction fields as [|[k0 v0] fields IH].
  - simpl. destruct (String.eqb k k'); reflexivity.
  - cbn [map fst snd].
    destruct (String.eqb_spec k0 k) as [->|Hk0]; cbn [Json.field]; rewrite IH.
    + destruct (String.eqb k k'); destruct (Json.field k' fields); reflexivity.
    + destruct (String.eqb_spec k k') as [->|]; destruct (Json.field k' fields); try reflexivity.
      destruct (String.eqb_spec k0 k'); [contradiction|reflexivity].
Qed.

Lemma field_app (k : string) (a b : list (string * Json.json)) :
  Json.field k (a ++ b) =
  match Json.field k b with Some later => Some later | None => Json.field k a end.
Proof.
  induction a as [|[k0 v0] a IH]; [simpl; destruct (Json.field k b); reflexivity|].
  cbn [app Json.field]. rewrite IH. destruct (Json.field k b); [reflexivity|].
  destruct (Json.field k a); reflexivity.
Qed.

Lemma field_has (k : string) (fields : list (string * Json.json)) :
  existsb (fun kv => String.eqb (fst kv) k) fields = false -> Json.field k fields = None.
Proof.
  induction fields as [|[k0 v0] fields IH]; [reflexivity|]. cbn [existsb fst Json.field].
  intros H. apply orb_false_iff in H as [H0 H]. rewrite (IH H), H0. reflexivity.
Qed.

Lemma field_found (k : string) (fields : list (string * Json.json)) :
  existsb (fun kv => String.eqb (fst kv) k) fields = true -> Json.field k fields <> None.
Proof.
  induction fields as [|[k0 v0] fields IH]; [discriminate|]. cbn [existsb fst Json.field].
  intros H. destruct (Json.field k fields) as [later|]; [discriminate|].
  apply orb_true_iff in H as [H|H]; [rewrite H; discriminate|destruct (IH H); reflexivity].
Qed.

Lemma field_assign (k k' : string) (v : Json.json) (fields : list (string * Json.json)) :
  Json.field k' (ConfigFile.assignField k v fields) =
  if String.eqb k k' then Some v else Json.field k' fields.
Proof.
  unfold ConfigFile.assignField. destruct (existsb _ fields) eqn:Hhas.
  - rewrite (field_map k k' (fun _ => v)). destruct (String.eqb_spec k k') as [->|]; [|reflexivity].
    apply field_found in Hhas. destruct (Json.field k' fields); [reflexivity|contradiction].
  - rewrite field_app. cbn [Json.field]. destruct (String.eqb_spec k k') as [->|]; [reflexivity|].
    reflexivity.
Qed.

Lemma field_delete (k k' : string) (fields : list (string * Json.json)) :
  Json.field k' (ConfigFile.deleteField k fields) =
  if String.eqb k k' then None else Json.field k' fields.
Proof.
  unfold ConfigFile.deleteField. induction fields as [|[k0 v0] fields IH].
  - simpl. destruct (String.eqb k k'); reflexivity.
  - cbn [List.filter fst]. destruct (String.eqb_spec k0 k) as [->|Hne]; cbn [negb Json.field].
    + rewrite IH. destruct (String.eqb_spec k k') as [->|Hne']; [reflexivity|].
      destruct (Json.field k' fields); [reflexivity|].
      destruct (String.eqb_spec k k'); [contradiction|reflexivity].
    + rewrite IH. destruct (String.eqb_spec k k') as [->|Hne']; [|reflexivity].
      destruct (String.eqb_spec k0 k'); [contradiction|].
      destruct (Json.field k' fields); reflexivity.
Qed.

Lemma path_none (keys : list string) : path None keys = None.
Proof. destruct keys; reflexivity. Qed.

Lemma path_inMember (k k' : string) (change : Json.json -> Json.json) (j : Json.json)
    (rest : list string) :
  path (Some (ConfigFile.inMember k change j)) (k' :: rest) =
  if String.eqb k k' then path (change <$> path (Some j) [k']) rest
  else path (Some j) (k' :: rest).
Proof.
  destruct j; cbn [ConfigFile.inMember path];
    try (destruct (String.eqb k k'); [rewrite path_none|]; reflexivity).
  rewrite field_map. destruct (String.eqb k k'); reflexivity.
Qed.

Lemma getProp_path (j : Json.json) (k : string) (v : Json.value) :
  Json.getProp (Some j) k = Returned v -> v = path (Some j) [k].
Proof. destruct j; simpl; intros [= <-]; reflexivity. Qed.

Lemma optProp_path (v : Json.value) (k : string) : Json.optProp v k = Returned (path v [k]).
Proof. destruct v as [[]|]; reflexivity. Qed.

Lemma path_step (v : Json.value) (k : string) (rest : list string) :
  path v (k :: rest) = path (path v [k]) rest.
Proof. destruct v as [[]|]; cbn [path]; rewrite ?path_none; reflexivity. Qed.

Lemma maskToken_spec (service : string) (config out : Json.json) :
  ConfigFile.maskToken service config = Returned out ->
  (path (Some out) ["apis"; service; "auth_token"] = Some (Json.JStr ConfigFile.MASK) \/
   Json.truthy (path (Some out) ["apis"; service; "auth_token"]) = false) /\
  (forall k rest, k <> "apis" -> path (Some out) (k :: rest) = path (Some config) (k :: rest)) /\
  (forall other rest, other <> service ->
     path (Some out) ("apis" :: other :: rest) = path (Some config) ("apis" :: other :: rest)).
Proof.
  unfold ConfigFile.maskToken.
  destruct (Json.getProp (Some config) "apis") as [apis|e] eqn:Hapis; [|discriminate].
  apply getProp_path in Hapis. cbn [mbind outcome_bind bindO].
  rewrite optProp_path. cbn [mbind outcome_bind bindO].
  rewrite optProp_path. cbn [mbind outcome_bind bindO].
  assert (Htoken : path (path (path (Some config) ["apis"]) [service]) ["auth_token"] =
                   path (Some config) ["apis"; service; "auth_token"]).
  { symmetry. rewrite (path_step (Some config) "apis" [service; "auth_token"]).
    rewrite (path_step (path (Some config) ["apis"]) service ["auth_token"]). reflexivity. }
  subst apis. rewrite Htoken.
  destruct (Json.truthy (path (Some config) ["apis"; service; "auth_token"])) eqn:Ht;
    intros [= <-].
  2:{ split; [right; exact Ht|]. split; reflexivity. }
  split; [|split].
  - left. rewrite path_inMember, String.eqb_refl.
    rewrite (path_step (Some config) "apis" [service; "auth_token"]) in Ht.
    rewrite (path_step (path (Some config) ["apis"]) service ["auth_token"]) in Ht.
    destruct (path (Some config) ["apis"]) as [apis|]; [|rewrite !path_none in Ht; discriminate].
    cbn [fmap option_fmap option_map]. rewrite path_inMember, String.eqb_refl.
    destruct (path (Some apis) [service]) as [client|]; [|rewrite path_none in Ht; discriminate].
    cbn [fmap option_fmap option_map].
    destruct client; try discriminate. cbn [ConfigFile.onFields path].
    rewrite field_assign, String.eqb_refl. reflexivity.
  - intros k rest Hne. rewrite path_inMember.
    destruct (String.eqb_spec "apis" k) as [<-|_]; [contradiction|reflexivity].
  - intros other rest Hne. rewrite path_inMember, String.eqb_refl.
    rewrite (path_step (Some config) "apis" (other :: rest)).
    destruct (path (Some config) ["apis"]) as [apis|]; [|reflexivity].
    cbn [fmap option_fmap option_map]. rewrite path_inMember.
    destruct (String.eqb_spec service other) as [->|_]; [contradiction|reflexivity].
Qed.

Lemma dropSecret_spec (key : string) (config out : Json.json) :
  ConfigFile.dropSecret key config = Returned out ->
  Json.truthy (path (Some out) ["auth"; key]) = false /\
  (forall k rest, k <> "auth" -> path (Some out) (k :: rest) = path (Some config) (k :: rest)) /\
  (forall other, other <> key ->
     path (Some out) ["auth"; other] = path (Some config) ["auth"; other]).
Proof.
  unfold ConfigFile.dropSecret.
  destruct (Json.getProp (Some config) "auth") as [auth|e] eqn:Hauth; [|discriminate].
  apply getProp_path in Hauth. cbn [mbind outcome_bind bindO].
  rewrite optProp_path. cbn [mbind outcome_bind bindO]. subst auth.
  rewrite <- (path_step (Some config) "auth" [key]).
  destruct (Json.truthy (path (Some config) ["auth"; key])) eqn:Ht; intros [= <-].
  2:{ split; [exact Ht|]. split; reflexivity. }
  split; [|split].
  - rewrite path_inMember, String.eqb_refl.
    destruct (path (Some config) ["auth"]) as [auth|]; [|reflexivity].
    cbn [fmap option_fmap option_map]. destruct auth; try reflexivity.
    cbn [ConfigFile.onFields path]. rewrite field_delete, String.eqb_refl. reflexivity.
  - intros k rest Hne. rewrite path_inMember.
    destruct (String.eqb_spec "auth" k) as [<-|_]; [contradiction|reflexivity].
  - intros other Hne. rewrite path_inMember, String.eqb_refl.
    rewrite (path_step (Some config) "auth" [other]).
    destruct (path (Some config) ["auth"]) as [auth|]; [|reflexivity].
    cbn [fmap option_fmap option_map]. destruct auth; try reflexivity.
    cbn [ConfigFile.onFields path]. rewrite field_delete.
    destruct (String.eqb_spec key other) as [->|_]; [contradiction|reflexivity].
Qed.

(** X25 (Config.toJSON): in the configuration shown with its secrets
    masked, each of the two API tokens is the placeholder or a value that
    counts as false, and the password hash and the password count as false
    (they are removed when set); every member of the configuration other
    than [apis] and [auth] is shown as it is.  Masking fails only for a
    configuration that is [null], and without masking the configuration is
    shown as it is. *)
Theorem toJSON_masks_secrets :
  (forall config out,
     ConfigFile.toJSON config true = Returned out ->
     (path (Some out) ["apis"; "pangolin"; "auth_token"] = Some (Json.JStr ConfigFile.MASK) \/
      Json.truthy (path (Some out) ["apis"; "pangolin"; "auth_token"]) = false) /\
     (path (Some out) ["apis"; "hetzner"; "auth_token"] = Some (Json.JStr ConfigFile.MASK) \/
      Json.truthy (path (Some out) ["apis"; "hetzner"; "auth_token"]) = false) /\
     Json.truthy (path (Some out) ["auth"; "password_hash"]) = false /\
     Json.truthy (path (Some out) ["auth"; "password"]) = false /\
     (forall k rest, k <> "apis" -> k <> "auth" ->
        path (Some out) (k :: rest) = path (Some config) (k :: rest))) /\
  (forall config, config <> Json.JNull ->
     exists out, ConfigFile.toJSON config true = Returned out) /\
  (forall config, ConfigFile.toJSON config false = Returned config).
Proof.
  split; [|split].
  - intros config out. unfold ConfigFile.toJSON.
    destruct (ConfigFile.maskToken "pangolin" config) as [c1|] eqn:H1; [|discriminate].
    cbn [mbind outcome_bind bindO].
    destruct (ConfigFile.maskToken "hetzner" c1) as [c2|] eqn:H2; [|discriminate].
    cbn [mbind outcome_bind bindO].
    destruct (ConfigFile.dropSecret "password_hash" c2) as [c3|] eqn:H3; [|discriminate].
    cbn [mbind outcome_bind bindO]. intros H4.
    apply maskToken_spec in H1 as (P1 & F1 & _).
    apply maskToken_spec in H2 as (P2 & F2 & G2).
    apply dropSecret_spec in H3 as (P3 & F3 & _).
    apply dropSecret_spec in H4 as (P4 & F4 & G4).
    assert (Hp : path (Some out) ["apis"; "pangolin"; "auth_token"] =
                 path (Some c1) ["apis"; "pangolin"; "auth_token"]).
    { rewrite F4, F3, G2 by discriminate. reflexivity. }
    assert (Hh : path (Some out) ["apis"; "hetzner"; "auth_token"] =
                 path (Some c2) ["apis"; "hetzner"; "auth_token"]).
    { rewrite F4, F3 by discriminate. reflexivity. }
    rewrite Hp, Hh. split; [exact P1|]. split; [exact P2|]. split.
    + rewrite G4 by discriminate. exact P3.
    + split; [exact P4|]. intros k rest Ha Hb. rewrite F4, F3, F2, F1 by assumption. reflexivity.
  - intros config Hnn. unfold ConfigFile.toJSON.
    assert (Hm : forall service c, c <> Json.JNull ->
              exists c', ConfigFile.maskToken service c = Returned c' /\ c' <> Json.JNull).
    { intros service c Hc. unfold ConfigFile.maskToken.
      destruct (getProp_defined c "apis" Hc) as (apis & ->). cbn [mbind outcome_bind bindO].
      rewrite optProp_path. cbn [mbind outcome_bind bindO].
      rewrite optProp_path. cbn [mbind outcome_bind bindO].
      destruct (Json.truthy _); eexists; (split; [reflexivity|]); [|exact Hc].
      destruct c; try contradiction; discriminate. }
    assert (Hd : forall key c, c <> Json.JNull ->
              exists c', ConfigFile.dropSecret key c = Returned c' /\ c' <> Json.JNull).
    { intros key c Hc. unfold ConfigFile.dropSecret.
      destruct (getProp_defined c "auth" Hc) as (auth & ->). cbn [mbind outcome_bind bindO].
      rewrite optProp_path. cbn [mbind outcome_bind bindO].
      destruct (Json.truthy _); eexists; (split; [reflexivity|]); [|exact Hc].
      destruct c; try contradiction; discriminate. }
    destruct (Hm "pangolin" config Hnn) as (c1 & -> & Hc1). cbn [mbind outcome_bind bindO].
    destruct (Hm "hetzner" c1 Hc1) as (c2 & -> & Hc2). cbn [mbind outcome_bind bindO].
    destruct (Hd "password_hash" c2 Hc2) as (c3 & -> & Hc3). cbn [mbind outcome_bind bindO].
    destruct (Hd "password" c3 Hc3) as (c4 & -> & _). exists c4. reflexivity.
  - reflexivity.
Qed.

Lemma toJSON_masks_secrets_witness :
  exists out,
    ConfigFile.toJSON
      (Json.JObj
         [("general", Json.JObj [("domain", Json.JStr "example.com")]);
          ("apis", Json.JObj [("hetzner", Json.JObj [("auth_token", Json.JStr "hz-secret")])]);
          ("auth", Json.JObj [("username", Json.JStr "admin");
                              ("password_hash", Json.JStr "$2b$12$hash")])])
      true = Returned out /\
    Json.truthy (path (Some out) ["auth"; "password_hash"]) = false /\
    path (Some out) ["general"; "domain"] = Some (Json.JStr "example.com").
Proof.
  destruct (proj1 (proj2 toJSON_masks_secrets)
              (Json.JObj
                 [("general", Json.JObj [("domain", Json.JStr "example.com")]);
                  ("apis", Json.JObj [("hetzner", Json.JObj [("auth_token", Json.JStr "hz-secret")])]);
                  ("auth", Json.JObj [("username", Json.JStr "admin");
                                      ("password_hash", Json.JStr "$2b$12$hash")])]))
    as (out & Hout); [discriminate|].
  exists out. split; [exact Hout|].
  destruct (proj1 toJSON_masks_secrets _ out Hout) as (_ & _ & Hhash & _ & Hrest).
  split; [exact Hhash|]. rewrite Hrest by discriminate. reflexivity.
Defined.

(** ** What a reconciliation leaves in the zone *)

(** X26 (sync.js, syncHetznerDns): when the zone can be listed, no record
    name holds a colon, the targets of the pairs are managed values and every
    call succeeded, the records returned show the expected state: each
    expected name has a managed CNAME with the expected target, and every
    name that still has a managed CNAME is expected or retained. *)
Theorem reconciliation_reaches_expected
    (cfg : Config) (env : Sync.Env) (pairs : list Sync.Pair) (zone0 : list Hetzner.RRSet)
    (zoneId : string) :
  Hetzner.getZoneId (hetznerZoneId cfg) (Sync.zoneIdByName env) = Some zoneId ->
  zoneId <> EmptyString ->
  Sync.zoneListable env = true ->
  (forall rr, In rr zone0 -> JsString.includes ":" (Hetzner.rr_name rr) = false) ->
  managedTargets pairs ->
  forallb snd (snd (snd (Sync.syncHetznerDns cfg env pairs zone0))) = true ->
  let records := fst (Sync.syncHetznerDns cfg env pairs zone0) in
  records = Hetzner.listRecords true zoneId (fst (snd (Sync.syncHetznerDns cfg env pairs zone0))) /\
  (forall name target,
     In (name, target) (Sync.expectedOf cfg pairs) ->
     Sync.mapGet name (Sync.currentOf records) =
       Some (JsString.stripDot target, name ++ ":" ++ "CNAME")) /\
  (forall name,
     Sync.mapHas name (Sync.currentOf records) = true ->
     Sync.mapHas name (Sync.expectedOf cfg pairs) = true \/
     JsString.inList name (keepSubdomains cfg) = true).
Proof.
  intros Hzone Hid Hlist Hcolon Htargets. apply String.eqb_neq in Hid.
  unfold Sync.syncHetznerDns. rewrite Hzone, Hid, Hlist.
  unfold Hetzner.listRecords.
  set (current0 := Sync.currentOf (listing zoneId zone0)).
  set (expected := Sync.expectedOf cfg pairs).
  set (deleted := fold_left (Sync.deleteStep cfg env zoneId expected) current0 (zone0, [])).
  set (upserted := fold_left (Sync.upsertStep env zoneId current0) expected deleted).
  cbn [fst snd]. intros Hok. cbv zeta.
  assert (Hexpected : forall entry, In entry expected ->
                        Sync.isManaged (JsString.stripDot (snd entry)) = true).
  { intros [name target] Hin. apply expectedOf_targets in Hin as (pair & Hpair & ->).
    apply Htargets. exact Hpair. }
  pose proof (expectedOf_NoDup cfg pairs) as Hnd. fold expected in Hnd.
  pose proof (upsert_phase env zoneId current0 zoneId expected deleted Hnd Hexpected Hok) as Hup.
  pose proof (upsert_phase_ok _ _ _ _ _ Hok) as Hokd.
  pose proof (delete_phase cfg env zoneId expected zoneId current0 (zone0, [])
                (fun entry He => current_entry_ids zoneId zone0 entry Hcolon He) Hokd) as Hdel.
  fold deleted in Hdel. cbn [fst] in Hdel. fold upserted in Hup.
  split; [reflexivity|]. split.
  - intros name target Hin. rewrite currentOf_lastFor, Hup.
    rewrite (mapGet_NoDup name target expected Hnd Hin).
    destruct (Sync.mapGet name current0) as [[value id]|] eqn:Hget; [|reflexivity].
    destruct (String.eqb_spec value (JsString.stripDot target)) as [->|_]; [|reflexivity].
    cbn [negb]. rewrite Hdel, (isDeleted_expected cfg expected current0 name (In_mapHas _ _ _ Hin)).
    unfold current0 in Hget. rewrite currentOf_lastFor in Hget. rewrite Hget.
    rewrite <- currentOf_lastFor in Hget. apply mapGet_In in Hget.
    destruct (current_entry_ids zoneId zone0 _ Hcolon Hget) as [Hentry _]. simpl in Hentry.
    rewrite Hentry. reflexivity.
  - intros name Hhas. rewrite mapHas_mapGet, currentOf_lastFor, Hup in Hhas.
    destruct (Sync.mapHas name expected) eqn:Hexp; [left; reflexivity|]. right.
    pose proof Hexp as Hnone. rewrite mapHas_mapGet in Hnone.
    destruct (Sync.mapGet name expected); [discriminate|].
    rewrite Hdel in Hhas.
    destruct (isDeleted cfg expected current0 name) eqn:Hgone; [discriminate|].
    rewrite <- currentOf_lastFor in Hhas. fold current0 in Hhas.
    destruct (Sync.mapGet name current0) as [x0|] eqn:Hget; [|discriminate].
    apply mapGet_In in Hget.
    destruct (JsString.inList name (keepSubdomains cfg)) eqn:Hkeep; [reflexivity|].
    rewrite (isDeleted_entry cfg expected current0 name x0 Hget Hexp Hkeep) in Hgone.
    discriminate.
Qed.

Lemma reconciliation_reaches_expected_witness :
  Sync.mapGet "app"
    (Sync.currentOf
       (fst (Sync.syncHetznerDns exampleConfig (scenarioEnv true)
               [examplePair "app" "on.alpha.example.com"]
               [Hetzner.mkRRSet "app" "CNAME" 300 ["on.beta.example.com."];
                Hetzner.mkRRSet "old" "CNAME" 300 ["on.ghost.example.com."]]))) =
    Some ("on.alpha.example.com", "app:CNAME").
Proof.
  apply (proj1 (proj2 (reconciliation_reaches_expected exampleConfig (scenarioEnv true)
                         [examplePair "app" "on.alpha.example.com"]
                         [Hetzner.mkRRSet "app" "CNAME" 300 ["on.beta.example.com."];
                          Hetzner.mkRRSet "old" "CNAME" 300 ["on.ghost.example.com."]]
                         "zone1" eq_refl ltac:(discriminate) eq_refl
                         ltac:(intros rr [<-|[<-|[]]]; reflexivity)
                         ltac:(intros pair [<-|[]]; reflexivity)
                         ltac:(vm_compute; reflexivity)))
           "app" "on.alpha.example.com").
  left. reflexivity.
Defined.
